(** * website-analyzer-backend: a shallow embedding of the analysis server

    The repository holds three near-duplicate Express servers
    ([src/index.js], [src/unnamed/part_000], [src/unnamed/part_001]).
    Each drives a headless browser, extracts colours, fonts, tags and a
    category from the rendered page, and answers over HTTP.

    The embedding keeps the three variants apart, one module per concern and
    one definition per source function, suffixed [_index], [_part000],
    [_part001] where the variants differ. *)

From Stdlib Require Import List String Ascii Bool Arith NArith ZArith Lia DecimalString.
From Stdlib Require Import Permutation Sorted.
Import ListNotations.
#[local] Set Warnings "-register-all,-abstract-large-number".
Open Scope string_scope.

(** ** JavaScript values and the string primitives the sources use *)

Module JS.

(** The outcome of an expression that may throw. *)
Inductive result (A : Type) : Type :=
| Ok (a : A)
| Throw (e : string).
Arguments Ok {A} a.
Arguments Throw {A} e.

Definition TypeError : string := "TypeError".

(** [String.prototype.startsWith]. *)
Fixpoint startsWith (p s : string) : bool :=
  match p, s with
  | EmptyString, _ => true
  | String a p', String b s' => Ascii.eqb a b && startsWith p' s'
  | String _ _, EmptyString => false
  end.

(** [String.prototype.includes]: [k] occurs in [s] as a substring. *)
Fixpoint includes (k s : string) : bool :=
  startsWith k s ||
  match s with
  | EmptyString => false
  | String _ s' => includes k s'
  end.

(** [String.prototype.toLowerCase], on the ASCII letters. *)
Definition lower_ascii (c : ascii) : ascii :=
  let n := nat_of_ascii c in
  if ((65 <=? n) && (n <=? 90))%nat then ascii_of_nat (n + 32) else c.

Fixpoint toLowerCase (s : string) : string :=
  match s with
  | EmptyString => EmptyString
  | String c s' => String (lower_ascii c) (toLowerCase s')
  end.

(** [s.slice(0, n)]. *)
Fixpoint slice0 (n : nat) (s : string) : string :=
  match n, s with
  | S n', String c s' => String c (slice0 n' s')
  | _, _ => EmptyString
  end.

Definition is_digit (c : ascii) : bool :=
  let n := nat_of_ascii c in ((48 <=? n) && (n <=? 57))%nat.

Fixpoint all_chars (p : ascii -> bool) (s : string) : bool :=
  match s with
  | EmptyString => true
  | String c s' => p c && all_chars p s'
  end.

Definition flush (cur : string) : list string :=
  match cur with
  | EmptyString => []
  | _ => [cur]
  end.

(** The maximal runs of decimal digits of [s], left to right; [cur] is the
    run being read. *)
Fixpoint digit_runs (s cur : string) : list string :=
  match s with
  | EmptyString => flush cur
  | String c s' =>
      if is_digit c then digit_runs s' (cur ++ String c EmptyString)
      else (flush cur ++ digit_runs s' EmptyString)%list
  end.

(** [s.match(/\d+/g)]: [None] is JavaScript's [null] (no match). *)
Definition match_digits (s : string) : option (list string) :=
  match digit_runs s EmptyString with
  | [] => None
  | m => Some m
  end.

(** [Number(x)] on a run of decimal digits.  The value is exact, which is
    what a double gives below 2^53; colour channels are far below. *)
Definition digit_value (c : ascii) : N := N.of_nat (nat_of_ascii c - 48).

Definition Number (x : string) : N :=
  fold_left (fun acc c => (10 * acc + digit_value c)%N) (list_ascii_of_string x) 0%N.

Definition hex_digit (d : N) : ascii :=
  match String.get (N.to_nat d) "0123456789abcdef" with
  | Some c => c
  | None => "0"%char
  end.

Fixpoint to_hex (fuel : nat) (n : N) (acc : string) : string :=
  match fuel with
  | O => acc
  | S fuel' =>
      let acc' := String (hex_digit (n mod 16)) acc in
      if (n / 16 =? 0)%N then acc' else to_hex fuel' (n / 16)%N acc'
  end.

(** [n.toString(16)]. *)
Definition toString16 (n : N) : string :=
  to_hex (S (N.to_nat (N.log2 n))) n EmptyString.

Fixpoint repeat_char (c : ascii) (n : nat) : string :=
  match n with
  | O => EmptyString
  | S n' => String c (repeat_char c n')
  end.

(** [s.padStart(width, "0")]. *)
Definition padStart0 (width : nat) (s : string) : string :=
  repeat_char "0"%char (width - String.length s) ++ s.

(** [parts.join("")]. *)
Definition join (parts : list string) : string :=
  fold_right String.append EmptyString parts.

(** A [Set] of strings keeps its members in insertion order; [add] of a
    member already present changes nothing. *)
Definition set_add (x : string) (set : list string) : list string :=
  if existsb (String.eqb x) set then set else (set ++ [x])%list.

(** A string is falsy exactly when it is empty. *)
Definition truthy_string (s : string) : bool :=
  match s with
  | EmptyString => false
  | _ => true
  end.

(** [array.slice(0, n)]. *)
Definition slice {A : Type} (n : nat) (l : list A) : list A := firstn n l.

End JS.

(** ** The rendered page, as the extractors read it *)

Module Dom.

(** What [getComputedStyle(el)] gives for one element. *)
Record style : Type := mkStyle {
  color : string;
  backgroundColor : string;
  fontFamily : string
}.

(** A loaded document: [body] is [None] when [document.body] is [null]. *)
Record document : Type := mkDocument {
  title : string;
  body : option string;          (* document.body.innerText *)
  elements : list style;         (* document.querySelectorAll("*") *)
  metaKeywords : list string;    (* content of meta[name='keywords'] *)
  headings : list string         (* innerText of h1, h2 *)
}.

End Dom.

(** ** Colour extraction *)

Module Colors.
Import JS Dom.

(** The two-digit hexadecimal form of one channel:
    [Number(x).toString(16).padStart(2, "0")]. *)
Definition hex2 (n : N) : string := padStart0 2 (toString16 n).

(** The arrow function of [src/index.js] lines 159-165 and of
    [src/unnamed/part_001] lines 115-120: every digit run becomes two hex
    digits; [m.map] throws when [m] is [null]. *)
Definition rgbToHexAll (rgb : string) : result string :=
  match match_digits rgb with
  | None => Throw TypeError
  | Some m => Ok ("#" ++ join (map (fun x => hex2 (Number x)) m))
  end.

(** A [map] whose callback may throw. *)
Fixpoint map_result {A B : Type} (f : A -> result B) (l : list A) : result (list B) :=
  match l with
  | [] => Ok []
  | x :: l' =>
      match f x with
      | Throw e => Throw e
      | Ok y =>
          match map_result f l' with
          | Throw e => Throw e
          | Ok ys => Ok (y :: ys)
          end
      end
  end.

(** [src/index.js], [extractColors]: the function evaluated in the page. *)
Definition collect_index (els : list style) : list string :=
  fold_left
    (fun set s =>
       let set := if startsWith "rgb" (color s) then set_add (color s) set else set in
       if startsWith "rgb" (backgroundColor s) then set_add (backgroundColor s) set else set)
    els [].

Definition extractColors_index (els : list style) : result (list string) :=
  map_result rgbToHexAll (slice 25 (collect_index els)).

(** [src/unnamed/part_001], the [colors] evaluation of [/analyze]. *)
Definition collect_part001 (els : list style) : list string :=
  fold_left
    (fun set s =>
       let set := if truthy_string (color s) then set_add (color s) set else set in
       if truthy_string (backgroundColor s) then set_add (backgroundColor s) set else set)
    els [].

Definition extractColors_part001 (els : list style) : result (list string) :=
  map_result rgbToHexAll
    (slice 20 (filter (startsWith "rgb") (collect_part001 els))).

(** [src/unnamed/part_000], [rgbToHex]: only the first three digit runs are
    used; [null] when there is none; [x.toString] throws on [undefined]
    when there are fewer than three. *)
Definition rgbToHex (rgb : string) : result (option string) :=
  match match_digits rgb with
  | None => Ok None
  | Some (r :: g :: b :: _) =>
      Ok (Some ("#" ++ join (map (fun x => hex2 (Number x)) [r; g; b])))
  | Some _ => Throw TypeError
  end.

(** [src/unnamed/part_000], [extractCSSColors]: the function evaluated in
    the page. *)
Definition extractCSSColors_inpage (els : list style) : list string :=
  fold_left
    (fun colors s =>
       fold_left
         (fun colors c =>
            if truthy_string c
               && negb (String.eqb c "rgba(0, 0, 0, 0)")
               && startsWith "rgb" c
            then set_add c colors else colors)
         [color s; backgroundColor s] colors)
    (slice 1200 els) [].

(** [rawColors.map(rgbToHex).filter(Boolean).slice(0, 30)]. *)
Definition filter_Boolean (l : list (option string)) : list string :=
  flat_map (fun o => match o with Some s => [s] | None => [] end) l.

Definition colors_part000 (rawColors : list string) : result (list string) :=
  match map_result rgbToHex rawColors with
  | Throw e => Throw e
  | Ok hexes => Ok (slice 30 (filter_Boolean hexes))
  end.

End Colors.

(** ** Font extraction and classification *)

Module Fonts.
Import JS Dom.

(** [s.split(",")]. *)
Fixpoint split_comma (s cur : string) : list string :=
  match s with
  | EmptyString => [cur]
  | String c s' =>
      if Ascii.eqb c ","%char then cur :: split_comma s' EmptyString
      else split_comma s' (cur ++ String c EmptyString)
  end.

(** The double quote (code 34) and the single quote (code 39). *)
Definition is_quote (c : ascii) : bool :=
  let n := nat_of_ascii c in ((n =? 34) || (n =? 39))%nat.

(** [f.replace(/[...]/g, "")] with the class of the two quote characters. *)
Fixpoint remove_quotes (s : string) : string :=
  match s with
  | EmptyString => EmptyString
  | String c s' => if is_quote c then remove_quotes s' else String c (remove_quotes s')
  end.

Definition is_space (c : ascii) : bool :=
  let n := nat_of_ascii c in ((n =? 32) || ((9 <=? n) && (n <=? 13)))%nat.

Fixpoint trim_start (s : string) : string :=
  match s with
  | String c s' => if is_space c then trim_start s' else s
  | EmptyString => EmptyString
  end.

Fixpoint trim_end (s : string) : string :=
  match s with
  | EmptyString => EmptyString
  | String c s' =>
      match trim_end s' with
      | EmptyString => if is_space c then EmptyString else String c EmptyString
      | t => String c t
      end
  end.

(** [s.trim()], on the ASCII white space. *)
Definition trim (s : string) : string := trim_end (trim_start s).

(** [src/unnamed/part_000], [extractFonts]: the function evaluated in the
    page. *)
Definition extractFonts_inpage_part000 (els : list style) : list string :=
  slice 10
    (fold_left
       (fun fonts s =>
          if truthy_string (fontFamily s)
          then fold_left (fun fonts f => set_add (trim (remove_quotes f)) fonts)
                 (split_comma (fontFamily s) EmptyString) fonts
          else fonts)
       (slice 1200 els) []).

(** [src/unnamed/part_001], the [fonts] evaluation. *)
Definition extractFonts_inpage_part001 (els : list style) : list string :=
  slice 8
    (fold_left
       (fun fonts s =>
          fold_left (fun fonts f => set_add (trim (remove_quotes f)) fonts)
            (split_comma (fontFamily s) EmptyString) fonts)
       els []).

(** [src/index.js], [extractFonts]. *)
Definition generic_names : list string :=
  ["inherit"; "initial"; "unset"; "sans-serif"; "serif"].

Definition extractFonts_inpage_index (els : list style) : list string :=
  slice 10
    (fold_left
       (fun fonts s =>
          if truthy_string (fontFamily s)
          then fold_left
                 (fun fonts font =>
                    let clean := toLowerCase (trim (remove_quotes font)) in
                    if truthy_string clean && negb (existsb (String.eqb clean) generic_names)
                    then set_add clean fonts else fonts)
                 (split_comma (fontFamily s) EmptyString) fonts
          else fonts)
       els []).

(** [src/unnamed/part_000], [classifyFontTypes]: the body of the [forEach]
    callback, which names the type added for one font. *)
Definition classifyFont (f : string) : string :=
  let name := toLowerCase f in
  if includes "mono" name then "monospace"
  else if includes "serif" name && negb (includes "sans" name) then "serif"
  else "sans-serif".

Definition classifyFontTypes (fonts : list string) : list string :=
  fold_left (fun types f => set_add (classifyFont f) types) fonts [].

End Fonts.

(** ** Tag extraction *)

Module Tags.
Import JS Dom Fonts.

(** [src/unnamed/part_000], [extractTags]: the function evaluated in the
    page.  [String.length] counts the code units of a string of the model;
    on ASCII text they are the UTF-16 units [length] counts in the source,
    and the properties of the tags are stated for such pages. *)
Definition extractTags_inpage_part000 (d : document) : list string :=
  let tags :=
    fold_left
      (fun tags content =>
         fold_left (fun tags t => set_add (trim t) tags)
           (split_comma content EmptyString) tags)
      (metaKeywords d) [] in
  slice 12
    (fold_left
       (fun tags h => if (String.length h <? 60)%nat then set_add (toLowerCase h) tags else tags)
       (headings d) tags).

(** [src/unnamed/part_001], the [tags] evaluation. *)
Definition extractTags_inpage_part001 (d : document) : list string :=
  slice 10
    (fold_left
       (fun tags h => if (String.length h <? 50)%nat then set_add (toLowerCase h) tags else tags)
       (headings d) []).

End Tags.

(** ** Category classification *)

Module Category.
Import JS Dom.

Definition General_Website : string := "General Website".

(** The text the rules are scored on:
    [(document.title + " " + document.body.innerText.slice(0, n)).toLowerCase()];
    reading [innerText] of a [null] body throws. *)
Definition page_text (n : nat) (d : document) : result string :=
  match body d with
  | None => Throw TypeError
  | Some innerText => Ok (toLowerCase (title d ++ " " ++ slice0 n innerText))
  end.

(** *** [src/unnamed/part_000] *)

Definition rules_part000 : list (string * list string) :=
  [ ("E-commerce",
     ["shop"; "store"; "cart"; "checkout"; "buy"; "order"; "product"; "sale"]);
    ("Marketplace", ["marketplace"; "vendors"; "sellers"; "listings"]);
    ("Technology / SaaS",
     ["software"; "saas"; "platform"; "cloud"; "api"; "dashboard"; "integration"]);
    ("AI / Data / ML",
     ["artificial intelligence"; "machine learning"; "ai"; "llm"; "chatbot"; "analytics"]);
    ("Education",
     ["education"; "course"; "learn"; "training"; "tutorial"; "academy"; "certification"]);
    ("Finance", ["bank"; "banking"; "investment"; "loan"; "insurance"; "finance"]);
    ("Healthcare", ["health"; "medical"; "clinic"; "hospital"; "doctor"; "patient"]);
    ("News / Media", ["news"; "media"; "journal"; "headline"; "breaking news"]);
    ("Blog / Content", ["blog"; "article"; "post"; "read more"; "author"; "comments"]);
    ("Portfolio / Personal",
     ["portfolio"; "my work"; "projects"; "case study"; "developer"; "designer"]);
    ("Corporate Website",
     ["about us"; "our company"; "leadership"; "investors"; "careers"; "mission"]);
    ("Real Estate", ["real estate"; "property"; "rent"; "buy home"]);
    ("Travel / Hospitality", ["travel"; "hotel"; "booking"; "reservation"; "vacation"]);
    ("Government / Public Service",
     ["government"; "ministry"; "public service"; "policy"]);
    ("Non-Profit / NGO", ["ngo"; "charity"; "donation"; "volunteer"; "foundation"]) ].

(** The inner loop: [for (const k of keywords) if (text.includes(k)) score++]. *)
Definition score_loop (text : string) (keywords : list string) : nat :=
  fold_left (fun score k => if includes k text then S score else score) keywords 0.

(** The outer loop over the rules, with its two variables. *)
Definition best_loop (score : string -> list string -> nat)
    (rules : list (string * list string)) (text : string) : string * nat :=
  fold_left
    (fun '(bestCategory, highestScore) '(label, keywords) =>
       let s := score text keywords in
       if (highestScore <? s)%nat then (label, s) else (bestCategory, highestScore))
    rules (General_Website, 0).

Definition bestCategory_part000 (text : string) : string :=
  fst (best_loop score_loop rules_part000 text).

Definition extractCategory_inpage_part000 (d : document) : result string :=
  match page_text 3000 d with
  | Throw e => Throw e
  | Ok text => Ok (bestCategory_part000 text)
  end.

(** *** [src/unnamed/part_001] *)

Definition rules_part001 : list (string * list string) :=
  [ ("AI / Data / ML", ["ai"; "machine learning"; "chatbot"; "llm"; "analytics"]);
    ("Social Media", ["social"; "community"; "followers"; "share"]);
    ("E-commerce", ["shop"; "store"; "cart"; "checkout"; "buy"]);
    ("Education", ["course"; "learn"; "academy"; "training"]);
    ("Finance", ["bank"; "finance"; "investment"; "crypto"]);
    ("Healthcare", ["health"; "medical"; "clinic"]);
    ("SaaS / Technology", ["software"; "platform"; "api"; "dashboard"]);
    ("News / Media", ["news"; "media"; "headline"]);
    ("Portfolio", ["portfolio"; "projects"; "case study"]) ].

(** [keywords.filter((k) => text.includes(k)).length]. *)
Definition hits (text : string) (keywords : list string) : nat :=
  List.length (filter (fun k => includes k text) keywords).

Definition bestCategory_part001 (text : string) : string :=
  fst (best_loop hits rules_part001 text).

Definition extractCategory_inpage_part001 (d : document) : result string :=
  match page_text 3000 d with
  | Throw e => Throw e
  | Ok text => Ok (bestCategory_part001 text)
  end.

(** *** [src/index.js] *)

Record rule : Type := mkRule {
  label : string;
  tags : list string;
  keywords : list string
}.

Definition CATEGORY_RULES : list rule :=
  [ mkRule "Technology"
      ["tech"; "software"; "platform"; "api"; "developer"]
      ["software"; "api"; "cloud"; "developer"; "code"];
    mkRule "AI / Machine Learning"
      ["ai"; "ml"; "chatbot"; "automation"]
      ["ai"; "machine learning"; "llm"; "chatbot"; "automation"];
    mkRule "Education"
      ["education"; "learning"; "courses"; "training"]
      ["course"; "learn"; "academy"; "training"; "education"];
    mkRule "E-commerce"
      ["shopping"; "store"; "products"]
      ["shop"; "cart"; "checkout"; "buy"; "product"];
    mkRule "Social Media"
      ["social-media"; "community"; "network"]
      ["social"; "community"; "followers"; "share"];
    mkRule "Entertainment"
      ["fun"; "movies"; "music"; "videos"]
      ["movie"; "music"; "video"; "entertainment"; "stream"];
    mkRule "Finance"
      ["finance"; "banking"; "investment"]
      ["bank"; "finance"; "investment"; "crypto"];
    mkRule "Healthcare"
      ["health"; "medical"; "fitness"]
      ["health"; "clinic"; "medical"; "doctor"] ].

(** [Array.prototype.sort(cmp)] is stable: elements that compare equal keep
    their order.  [insert_by] puts [x], which stood before every element of
    [l], in front of the first element it does not compare greater than. *)
Fixpoint insert_by {A : Type} (cmp : A -> A -> Z) (x : A) (l : list A) : list A :=
  match l with
  | [] => [x]
  | y :: l' => if (cmp x y <=? 0)%Z then x :: l else y :: insert_by cmp x l'
  end.

Definition sort_by {A : Type} (cmp : A -> A -> Z) (l : list A) : list A :=
  fold_right (insert_by cmp) [] l.

(** The loop of lines 92-102: the scored rules, in table order, and the
    tags of the rules that scored. *)
Definition score_rules (RULES : list rule) (text : string)
    : list (string * nat) * list string :=
  fold_left
    (fun '(categoryScores, websiteTags) r =>
       let score := score_loop text (keywords r) in
       if (0 <? score)%nat
       then ((categoryScores ++ [(label r, score)])%list,
             fold_left (fun set t => set_add t set) (tags r) websiteTags)
       else (categoryScores, websiteTags))
    RULES ([], []).

(** [(a, b) => b.score - a.score]. *)
Definition by_score_desc (a b : string * nat) : Z :=
  (Z.of_nat (snd b) - Z.of_nat (snd a))%Z.

Record intelligence : Type := mkIntelligence {
  websiteType : string;
  categories : list string;
  websiteTags : list string;
  relatedPhrases : list string
}.

(** [categories[0] || "General Website"]. *)
Definition first_or_default (categories : list string) : string :=
  match categories with
  | c :: _ => if truthy_string c then c else General_Website
  | [] => General_Website
  end.

Definition intelligence_of (RULES : list rule) (text : string) : intelligence :=
  let '(categoryScores, websiteTags) := score_rules RULES text in
  let categories := map fst (slice 6 (sort_by by_score_desc categoryScores)) in
  mkIntelligence
    (first_or_default categories)
    categories
    websiteTags
    (map (fun c => "websites similar to " ++ toLowerCase c ++ " platforms") categories).

Definition extractWebsiteIntelligence_inpage (d : document) : result intelligence :=
  match page_text 6000 d with
  | Throw e => Throw e
  | Ok text => Ok (intelligence_of CATEGORY_RULES text)
  end.

End Category.

(** ** The platform's URL constructor

    [isValidUrl] is [new URL(value)] under [try]/[catch].  The constructor
    belongs to the JavaScript runtime, which implements the basic URL parser
    of the WHATWG URL Standard; [URL_parse] follows that parser for a call
    without base URL, state by state, as far as acceptance goes (the path,
    query and fragment states never fail, so they are not unfolded).

    Strings are sequences of 8-bit code units.  A host of a special scheme
    goes through Unicode ToASCII, which on ASCII labels that do not start
    with [xn--] is lowercasing; that is the case covered here, and a host
    with other code units or labels is answered with a failure. *)

Module Url.
Import JS.

Definition code (c : ascii) : nat := nat_of_ascii c.

Definition is_alpha (c : ascii) : bool :=
  (((65 <=? code c) && (code c <=? 90)) || ((97 <=? code c) && (code c <=? 122)))%nat.

Definition is_alnum (c : ascii) : bool := is_alpha c || is_digit c.

Definition is_hex (c : ascii) : bool :=
  (is_digit c || ((65 <=? code c) && (code c <=? 70))
   || ((97 <=? code c) && (code c <=? 102)))%nat.

Definition hex_value (c : ascii) : N :=
  if is_digit c then digit_value c
  else if (97 <=? code c)%nat then N.of_nat (code c - 87)
  else N.of_nat (code c - 55).

Definition is_c0_or_space (c : ascii) : bool := (code c <=? 32)%nat.

Definition is_tab_or_newline (c : ascii) : bool :=
  ((code c =? 9) || (code c =? 10) || (code c =? 13))%nat.

Fixpoint strip_leading (s : string) : string :=
  match s with
  | String c s' => if is_c0_or_space c then strip_leading s' else s
  | EmptyString => EmptyString
  end.

Fixpoint strip_trailing (s : string) : string :=
  match s with
  | EmptyString => EmptyString
  | String c s' =>
      match strip_trailing s' with
      | EmptyString => if is_c0_or_space c then EmptyString else String c EmptyString
      | t => String c t
      end
  end.

Fixpoint remove_tab_newline (s : string) : string :=
  match s with
  | EmptyString => EmptyString
  | String c s' =>
      if is_tab_or_newline c then remove_tab_newline s' else String c (remove_tab_newline s')
  end.

(** The input as the state machine reads it. *)
Definition preprocess (input : string) : string :=
  remove_tab_newline (strip_trailing (strip_leading input)).

(** Scheme state: the scheme read so far is [buffer]. *)
Fixpoint scheme_state (s buffer : string) : option (string * string) :=
  match s with
  | EmptyString => None
  | String c s' =>
      if is_alnum c || Ascii.eqb c "+" || Ascii.eqb c "-" || Ascii.eqb c "."
      then scheme_state s' (buffer ++ String (lower_ascii c) EmptyString)
      else if Ascii.eqb c ":" then Some (buffer, s')
      else None
  end.

(** Scheme start state, then scheme state.  With no base URL the no-scheme
    state is a failure. *)
Definition parse_scheme (s : string) : option (string * string) :=
  match s with
  | String c s' =>
      if is_alpha c then scheme_state s' (String (lower_ascii c) EmptyString) else None
  | EmptyString => None
  end.

Definition is_special (scheme : string) : bool :=
  existsb (String.eqb scheme) ["ftp"; "file"; "http"; "https"; "ws"; "wss"].

Inductive host : Type :=
| Domain (name : string)
| Ipv4 (address : N)
| Ipv6 (literal : string)
| Opaque (name : string)
| Empty.

Record URLRecord : Type := mkURL {
  scheme : string;
  url_host : option host          (* None is the null host: no authority *)
}.

Definition is_slash (c : ascii) : bool := Ascii.eqb c "/" || Ascii.eqb c "\".

(** The code points that end the authority. *)
Definition ends_authority (special : bool) (c : ascii) : bool :=
  Ascii.eqb c "/" || Ascii.eqb c "?" || Ascii.eqb c "#" || (special && Ascii.eqb c "\").

Fixpoint take_until (stop : ascii -> bool) (s : string) : string :=
  match s with
  | EmptyString => EmptyString
  | String c s' => if stop c then EmptyString else String c (take_until stop s')
  end.

Fixpoint skip_while (p : ascii -> bool) (s : string) : string :=
  match s with
  | String c s' => if p c then skip_while p s' else s
  | EmptyString => EmptyString
  end.

(** The authority state's buffer when the authority ends: what follows the
    last [@], and whether an [@] was seen. *)
Fixpoint after_last_at (s buffer : string) (atSignSeen : bool) : bool * string :=
  match s with
  | EmptyString => (atSignSeen, buffer)
  | String c s' =>
      if Ascii.eqb c "@" then after_last_at s' EmptyString true
      else after_last_at s' (buffer ++ String c EmptyString) atSignSeen
  end.

(** Host state: the buffer up to the first [:] outside brackets, and the
    port buffer after it, if there is one. *)
Fixpoint split_port (s buffer : string) (insideBrackets : bool) : string * option string :=
  match s with
  | EmptyString => (buffer, None)
  | String c s' =>
      if Ascii.eqb c ":" && negb insideBrackets then (buffer, Some s')
      else
        let insideBrackets :=
          if Ascii.eqb c "[" then true
          else if Ascii.eqb c "]" then false else insideBrackets in
        split_port s' (buffer ++ String c EmptyString) insideBrackets
  end.

Definition parse_radix (radix : N) (s : string) : N :=
  fold_left (fun acc c => (radix * acc + hex_value c)%N) (list_ascii_of_string s) 0%N.

(** Port state. *)
Definition port_ok (buffer : string) : bool :=
  all_chars is_digit buffer && (parse_radix 10 buffer <=? 65535)%N.

Definition forbidden_host_code_point (c : ascii) : bool :=
  existsb (Nat.eqb (code c)) [0; 9; 10; 13; 32; 35; 47; 58; 60; 62; 63; 64; 91; 92; 93; 94; 124].

Definition forbidden_domain_code_point (c : ascii) : bool :=
  (forbidden_host_code_point c || (code c <=? 31) || (code c =? 37) || (code c =? 127))%nat.

Fixpoint percent_decode (s : string) : string :=
  match s with
  | EmptyString => EmptyString
  | String c s' =>
      match s' with
      | String h (String l r) =>
          if Ascii.eqb c "%" && is_hex h && is_hex l
          then String (ascii_of_N (16 * hex_value h + hex_value l)) (percent_decode r)
          else String c (percent_decode s')
      | _ => String c (percent_decode s')
      end
  end.

(** Strictly split on [.]. *)
Fixpoint split_dot (s cur : string) : list string :=
  match s with
  | EmptyString => [cur]
  | String c s' =>
      if Ascii.eqb c "." then cur :: split_dot s' EmptyString
      else split_dot s' (cur ++ String c EmptyString)
  end.

Definition is_octal (c : ascii) : bool := ((48 <=? code c) && (code c <=? 55))%nat.

Definition drop (n : nat) (s : string) : string :=
  String.substring n (String.length s - n) s.

(** The IPv4 number parser. *)
Definition ipv4_number (input : string) : option N :=
  match input with
  | EmptyString => None
  | _ =>
      let '(radix, digits, input) :=
        if (2 <=? String.length input)%nat
           && (startsWith "0x" input || startsWith "0X" input)
        then (16%N, is_hex, drop 2 input)
        else if (2 <=? String.length input)%nat && startsWith "0" input
        then (8%N, is_octal, drop 1 input)
        else (10%N, is_digit, input) in
      match input with
      | EmptyString => Some 0%N
      | _ => if all_chars digits input then Some (parse_radix radix input) else None
      end
  end.

(** The parts the two IPv4 algorithms look at: a last empty part is removed
    when it is not the only one. *)
Definition ipv4_parts (domain : string) : list string :=
  let parts := split_dot domain EmptyString in
  match last parts "x" with
  | EmptyString => if (1 <? List.length parts)%nat then removelast parts else parts
  | _ => parts
  end.

(** The ends-in-a-number checker. *)
Definition ends_in_number (domain : string) : bool :=
  let last := last (ipv4_parts domain) EmptyString in
  match last with
  | EmptyString => false
  | _ =>
      all_chars is_digit last
      || match ipv4_number last with Some _ => true | None => false end
  end.

Fixpoint all_some (l : list (option N)) : option (list N) :=
  match l with
  | [] => Some []
  | None :: _ => None
  | Some n :: l' =>
      match all_some l' with
      | Some ns => Some (n :: ns)
      | None => None
      end
  end.

(** The IPv4 parser. *)
Definition ipv4_parse (domain : string) : option N :=
  let parts := ipv4_parts domain in
  if (4 <? List.length parts)%nat then None
  else
    match all_some (map ipv4_number parts) with
    | None => None
    | Some numbers =>
        let final := last numbers 0%N in
        let front := removelast numbers in
        if existsb (fun n => (255 <? n)%N) front then None
        else if (256 ^ (5 - N.of_nat (List.length numbers)) <=? final)%N then None
        else Some (fold_left (fun acc n => (256 * acc + n)%N) front 0%N
                   * 256 ^ (4 - N.of_nat (List.length front)) + final)%N
    end.

(** IPv6 parser, the pieces in dotted decimal: one piece, read digit by
    digit; a second digit after a leading zero and a value above 255 fail. *)
Fixpoint ipv4_piece (s : string) (ipv4Piece : option N) : option (N * string) :=
  match s with
  | String c s' =>
      if is_digit c then
        match ipv4Piece with
        | None => ipv4_piece s' (Some (digit_value c))
        | Some 0%N => None
        | Some p =>
            let p' := (p * 10 + digit_value c)%N in
            if (255 <? p')%N then None else ipv4_piece s' (Some p')
        end
      else match ipv4Piece with Some p => Some (p, s) | None => None end
  | EmptyString => match ipv4Piece with Some p => Some (p, s) | None => None end
  end.

Fixpoint ipv4_in_ipv6 (fuel numbersSeen : nat) (s : string) : bool :=
  match s with
  | EmptyString => (numbersSeen =? 4)%nat
  | String c s' =>
      match fuel with
      | O => false
      | S fuel' =>
          let start :=
            if (0 <? numbersSeen)%nat
            then if Ascii.eqb c "." && (numbersSeen <? 4)%nat then Some s' else None
            else Some s in
          match start with
          | None => false
          | Some s1 =>
              match ipv4_piece s1 None with
              | None => false
              | Some (_, rest) => ipv4_in_ipv6 fuel' (S numbersSeen) rest
              end
          end
      end
  end.

(** Up to [n] hexadecimal digits: how many were read, and what follows. *)
Fixpoint read_hex (n : nat) (s : string) (length : nat) : nat * string :=
  match n, s with
  | S n', String c s' => if is_hex c then read_hex n' s' (S length) else (length, s)
  | _, _ => (length, s)
  end.

(** The main loop of the IPv6 parser: the piece index reached, and whether
    a compression was seen. *)
Fixpoint ipv6_loop (fuel : nat) (s : string) (pieceIndex : nat) (compress : bool)
    : option (nat * bool) :=
  match s with
  | EmptyString => Some (pieceIndex, compress)
  | String c s' =>
      match fuel with
      | O => None
      | S fuel' =>
          if (pieceIndex =? 8)%nat then None
          else if Ascii.eqb c ":" then
            if compress then None else ipv6_loop fuel' s' (S pieceIndex) true
          else
            let '(length, rest) := read_hex 4 s 0 in
            match rest with
            | EmptyString => Some (S pieceIndex, compress)
            | String c' rest' =>
                if Ascii.eqb c' "." then
                  if (length =? 0)%nat then None
                  else if (6 <? pieceIndex)%nat then None
                  else if ipv4_in_ipv6 5 0 s then Some (pieceIndex + 2, compress)
                  else None
                else if Ascii.eqb c' ":" then
                  match rest' with
                  | EmptyString => None
                  | _ => ipv6_loop fuel' rest' (S pieceIndex) compress
                  end
                else None
            end
      end
  end.

Definition ipv6_parse (input : string) : bool :=
  let start :=
    if startsWith ":" input
    then if startsWith "::" input then Some (drop 2 input, 1, true) else None
    else Some (input, 0, false) in
  match start with
  | None => false
  | Some (s, pieceIndex, compress) =>
      match ipv6_loop (S (String.length s)) s pieceIndex compress with
      | None => false
      | Some (pieceIndex, compress) => compress || (pieceIndex =? 8)%nat
      end
  end.

Definition ends_with_bracket (s : string) : bool :=
  match String.get (String.length s - 1) s with
  | Some c => Ascii.eqb c "]"
  | None => false
  end.

Definition is_ascii (c : ascii) : bool := (code c <? 128)%nat.

(** Domain to ASCII, on the domains the model covers. *)
Definition domain_to_ASCII (domain : string) : option string :=
  if all_chars is_ascii domain
     && negb (existsb (fun l => startsWith "xn--" (toLowerCase l)) (split_dot domain EmptyString))
  then
    let result := toLowerCase domain in
    match result with
    | EmptyString => None
    | _ => if all_chars (fun c => negb (forbidden_domain_code_point c)) result
           then Some result else None
    end
  else None.

(** The host parser. *)
Definition host_parse (input : string) (isOpaque : bool) : option host :=
  if startsWith "[" input then
    if ends_with_bracket input
    then if ipv6_parse (String.substring 1 (String.length input - 2) input)
         then Some (Ipv6 input) else None
    else None
  else if isOpaque then
    if all_chars (fun c => negb (forbidden_host_code_point c)) input
    then Some (match input with EmptyString => Empty | _ => Opaque input end)
    else None
  else
    match domain_to_ASCII (percent_decode input) with
    | None => None
    | Some asciiDomain =>
        if ends_in_number asciiDomain
        then match ipv4_parse asciiDomain with
             | Some address => Some (Ipv4 address)
             | None => None
             end
        else Some (Domain asciiDomain)
    end.

(** Authority state, host state and port state. *)
Definition authority_state (special : bool) (s : string) : option host :=
  let '(atSignSeen, buffer) :=
    after_last_at (take_until (ends_authority special) s) EmptyString false in
  match atSignSeen, buffer with
  | true, EmptyString => None
  | _, _ =>
      match split_port buffer EmptyString false with
      | (EmptyString, Some _) => None
      | (hostname, Some port) =>
          match host_parse hostname (negb special) with
          | Some h => if port_ok port then Some h else None
          | None => None
          end
      | (EmptyString, None) => if special then None else host_parse EmptyString true
      | (hostname, None) => host_parse hostname (negb special)
      end
  end.

Definition is_windows_drive_letter (s : string) : bool :=
  match s with
  | String a (String b EmptyString) => is_alpha a && (Ascii.eqb b ":" || Ascii.eqb b "|")
  | _ => false
  end.

(** File state, file slash state and file host state, with no base URL. *)
Definition file_state (s : string) : option host :=
  match s with
  | String c (String c' s') =>
      if is_slash c && is_slash c' then
        let buffer := take_until (fun c => is_slash c || Ascii.eqb c "?" || Ascii.eqb c "#") s' in
        if is_windows_drive_letter buffer then Some Empty
        else
          match buffer with
          | EmptyString => Some Empty
          | _ =>
              match host_parse buffer false with
              | Some (Domain "localhost") => Some Empty
              | r => r
              end
          end
      else Some Empty
  | _ => Some Empty
  end.

(** The basic URL parser on [input], with no base URL: [None] is failure. *)
Definition URL_parse (input : string) : option URLRecord :=
  match parse_scheme (preprocess input) with
  | None => None
  | Some (scheme, rest) =>
      if String.eqb scheme "file" then
        option_map (fun h => mkURL scheme (Some h)) (file_state rest)
      else if is_special scheme then
        option_map (fun h => mkURL scheme (Some h))
          (authority_state true (skip_while is_slash rest))
      else if startsWith "//" rest then
        option_map (fun h => mkURL scheme (Some h)) (authority_state false (drop 2 rest))
      else Some (mkURL scheme None)
  end.

(** [new URL(value)]: a [TypeError] when the parser fails. *)
Definition URL_new (value : string) : result URLRecord :=
  match URL_parse value with
  | Some u => Ok u
  | None => Throw TypeError
  end.

(** [isValidUrl] of the three sources, on the string [new URL] makes of its
    argument. *)
Definition isValidUrl (value : string) : bool :=
  match URL_new value with
  | Ok _ => true
  | Throw _ => false
  end.

End Url.

(** ** JSON values: request and response bodies *)

Module Json.
Import JS.

Inductive json : Type :=
| JNull
| JBool (b : bool)
| JNum (n : Z)
| JStr (s : string)
| JArr (items : list json)
| JObj (fields : list (string * json)).

(** Property access [v[k]]: [None] is [undefined].  An object parsed from
    JSON text keeps the last value written under a name. *)
Fixpoint lookup (k : string) (fields : list (string * json)) : option json :=
  match fields with
  | [] => None
  | (k', v) :: rest =>
      match lookup k rest with
      | Some v' => Some v'
      | None => if String.eqb k k' then Some v else None
      end
  end.

Definition get (k : string) (v : json) : option json :=
  match v with
  | JObj fields => lookup k fields
  | _ => None
  end.

(** ToBoolean. *)
Definition truthy (v : option json) : bool :=
  match v with
  | None | Some JNull | Some (JBool false) | Some (JStr EmptyString) => false
  | Some (JNum n) => negb (n =? 0)%Z
  | Some _ => true
  end.

Definition string_of_Z (n : Z) : string := DecimalString.NilZero.string_of_int (Z.to_int n).

(** ToString, as the URL constructor applies it to its argument. *)
Fixpoint toString_json (v : json) : string :=
  match v with
  | JNull => "null"
  | JBool true => "true"
  | JBool false => "false"
  | JNum n => string_of_Z n
  | JStr s => s
  | JArr items =>
      (fix join_items (l : list json) : string :=
         let item x := match x with JNull => EmptyString | _ => toString_json x end in
         match l with
         | [] => EmptyString
         | [x] => item x
         | x :: l' => item x ++ "," ++ join_items l'
         end) items
  | JObj _ => "[object Object]"
  end.

Definition toString (v : option json) : string :=
  match v with
  | None => "undefined"
  | Some j => toString_json j
  end.

(** A property whose value is [undefined] is left out when the object is
    serialised. *)
Definition prop (k : string) (v : option json) : list (string * json) :=
  match v with
  | Some j => [(k, j)]
  | None => []
  end.

Definition strings (l : list string) : json := JArr (map JStr l).

Definition keys (v : json) : list string :=
  match v with
  | JObj fields => map fst fields
  | _ => []
  end.

End Json.

(** ** The request handlers

    A handler is a program over a world that holds what the handler can
    observe and change: the pages the browser would load, the identifiers
    [crypto.randomUUID] hands out, the outcome of every awaited browser call
    (in call order), the handler's [let browser] variable, and the trace of
    what the handler did. *)

Module Server.
Import JS Json Dom Colors Fonts Tags Category Url.

(** The awaited calls into the browser, each of which may reject. *)
Inductive op : Type :=
| launch
| newPage
| evaluateOnNewDocument
| setViewport (width height : N)
| goto (url : string) (timeout : N)
| waitForNetworkIdle
| evaluate
| page_title
| screenshot (path : string)
| page_close
| browser_close.

Inductive event : Type :=
| Did (o : op)                                  (* the call resolved *)
| Threw (o : op)                                (* the call rejected *)
| Slept (ms : N)
| EnsuredDir (dir : string)
| Appended (file : string) (record : json)      (* fs.appendFileSync *)
| Responded (status : nat) (body : json).

Record world : Type := mkWorld {
  web : string -> document;
  uuid : nat -> string;
  oracle : list bool;       (* true: the next awaited call rejects;
                               past the end of the list every call resolves *)
  ids : nat;                (* identifiers handed out so far *)
  browser : bool;           (* [browser] has been assigned *)
  trace : list event
}.

Definition M (A : Type) : Type := world -> result A * world.

Definition ret {A : Type} (a : A) : M A := fun w => (Ok a, w).

Definition throw {A : Type} (e : string) : M A := fun w => (Throw e, w).

Definition bind {A B : Type} (m : M A) (k : A -> M B) : M B :=
  fun w =>
    match m w with
    | (Ok a, w') => k a w'
    | (Throw e, w') => (Throw e, w')
    end.

Declare Scope js_scope.
Delimit Scope js_scope with js.
Notation "x <- m ;; k" := (bind m (fun x => k))
  (at level 100, m at next level, right associativity) : js_scope.
Notation "m ;; k" := (bind m (fun _ => k))
  (at level 100, right associativity) : js_scope.
Open Scope js_scope.

(** [try { body } catch (e) { handler }]. *)
Definition try_catch {A : Type} (body : M A) (handler : string -> M A) : M A :=
  fun w =>
    match body w with
    | (Ok a, w') => (Ok a, w')
    | (Throw e, w') => handler e w'
    end.

(** [try { body } catch (e) { handler } finally { finalizer }]. *)
Definition try_catch_finally {A : Type}
    (body : M A) (handler : string -> M A) (finalizer : M unit) : M A :=
  fun w =>
    match try_catch body handler w with
    | (r, w') =>
        match finalizer w' with
        | (Ok _, w'') => (r, w'')
        | (Throw e, w'') => (Throw e, w'')
        end
    end.

Definition log (e : event) : M unit :=
  fun w => (Ok tt, mkWorld (web w) (uuid w) (oracle w) (ids w) (browser w) (trace w ++ [e])).

(** An awaited browser call: the world says whether it rejects. *)
Definition await (o : op) : M unit :=
  fun w =>
    match oracle w with
    | true :: rest =>
        (Throw "Error",
         mkWorld (web w) (uuid w) rest (ids w) (browser w) (trace w ++ [Threw o]))
    | false :: rest =>
        (Ok tt, mkWorld (web w) (uuid w) rest (ids w) (browser w) (trace w ++ [Did o]))
    | [] => (Ok tt, mkWorld (web w) (uuid w) [] (ids w) (browser w) (trace w ++ [Did o]))
    end.

(** [browser = await puppeteer.launch(...)]. *)
Definition launch_browser : M unit :=
  await launch ;;
  fun w => (Ok tt, mkWorld (web w) (uuid w) (oracle w) (ids w) true (trace w)).

(** [if (browser) await browser.close()]. *)
Definition close_if_launched : M unit :=
  fun w => if browser w then await browser_close w else (Ok tt, w).

Definition randomUUID : M string :=
  fun w => (Ok (uuid w (ids w)),
            mkWorld (web w) (uuid w) (oracle w) (S (ids w)) (browser w) (trace w)).

Definition sleep (ms : N) : M unit := log (Slept ms).

Definition ensureDir (dir : string) : M unit := log (EnsuredDir dir).

(** [res.status(status).json(body)]. *)
Definition respond (status : nat) (body : json) : M unit := log (Responded status body).

Definition lift {A : Type} (r : result A) : M A := fun w => (r, w).

(** [await page.evaluate(f)] on the page loaded from [url]: the call may
    reject by itself, and rejects when [f] throws in the page. *)
Definition page_evaluate {A : Type} (url : string) (f : document -> result A) : M A :=
  await evaluate ;;
  fun w => (f (web w url), w).

Definition title_of (url : string) : M string :=
  await page_title ;;
  fun w => (Ok (title (web w url)), w).

Definition message (text : string) : json := JObj [("message", JStr text)].

(** *** [src/index.js] *)

Definition extractWebsiteIntelligence (url : string) : M intelligence :=
  page_evaluate url extractWebsiteIntelligence_inpage.

Definition extractFonts_index (url : string) : M (list string) :=
  page_evaluate url (fun d => Ok (extractFonts_inpage_index (elements d))).

Definition extractColors (url : string) : M (list string) :=
  page_evaluate url (fun d => extractColors_index (elements d)).

Definition analyzeSingleWebsite (url : option json) : M json :=
  id <- randomUUID ;;
  let desktopFile := "desktop-" ++ id ++ ".webp" in
  let mobileFile := "mobile-" ++ id ++ ".webp" in
  let address := toString url in
  await newPage ;;
  await (setViewport 1440 900) ;;
  await (goto address 60000) ;;
  sleep 3000 ;;
  websiteName <- title_of address ;;
  intelligence <- extractWebsiteIntelligence address ;;
  colors <- extractColors address ;;
  fonts <- extractFonts_index address ;;
  await (screenshot ("screenshots/" ++ desktopFile)) ;;
  await (setViewport 450 844) ;;
  await (screenshot ("screenshots/" ++ mobileFile)) ;;
  await page_close ;;
  ret (JObj (prop "url" url ++
             [ ("websiteName", JStr websiteName);
               ("websiteType", JStr (websiteType intelligence));
               ("categories", strings (categories intelligence));
               ("tags", strings (websiteTags intelligence));
               ("relatedPhrases", strings (relatedPhrases intelligence));
               ("colors", strings colors);
               ("fonts", strings fonts);
               ("desktopScreenshot", JStr desktopFile);
               ("mobileScreenshot", JStr mobileFile) ])%list).

(** [POST /analyze]. *)
Definition analyze_index (body : json) : M unit :=
  let url := get "url" body in
  if negb (isValidUrl (toString url)) then respond 400 (message "Invalid URL")
  else
    ensureDir "screenshots" ;;
    try_catch_finally
      (launch_browser ;;
       data <- analyzeSingleWebsite url ;;
       respond 200 data)
      (fun _ => respond 500 (message "Website analysis failed"))
      close_if_launched.

Definition invalid_entry (url : json) : json :=
  JObj [("url", url); ("success", JBool false); ("error", JStr "Invalid URL")].

Definition failed_entry (url : json) : json :=
  JObj [("url", url); ("success", JBool false); ("error", JStr "Analysis failed")].

Definition success_entry (data : json) : json :=
  JObj [("success", JBool true); ("data", data)].

(** The body of the [for (const url of urls)] loop; [results] is the array
    the loop pushes to. *)
Definition bulk_step (url : json) (results : list json) : M (list json) :=
  if negb (isValidUrl (toString (Some url)))
  then ret (results ++ [invalid_entry url])%list
  else
    try_catch
      (data <- analyzeSingleWebsite (Some url) ;;
       ret (results ++ [success_entry data])%list)
      (fun _ => ret (results ++ [failed_entry url])%list).

Fixpoint bulk_loop (urls : list json) (results : list json) : M (list json) :=
  match urls with
  | [] => ret results
  | url :: rest =>
      results <- bulk_step url results ;;
      bulk_loop rest results
  end.

Definition succeeded (r : json) : bool := truthy (get "success" r).

Definition count (p : json -> bool) (results : list json) : json :=
  JNum (Z.of_nat (List.length (filter p results))).

Definition summary (urls results : list json) : json :=
  JObj [ ("total", JNum (Z.of_nat (List.length urls)));
         ("success", count succeeded results);
         ("failed", count (fun r => negb (succeeded r)) results);
         ("results", JArr results) ].

(** [POST /analyze/bulk]. *)
Definition analyze_bulk (body : json) : M unit :=
  match get "urls" body with
  | Some (JArr ((_ :: _) as urls)) =>
      ensureDir "screenshots" ;;
      try_catch_finally
        (launch_browser ;;
         results <- bulk_loop urls [] ;;
         respond 200 (summary urls results))
        (fun _ => respond 500 (message "Bulk analysis failed"))
        close_if_launched
  | _ => respond 400 (message "URLs array required")
  end.

(** [POST /submit], the same in [src/index.js] and [src/unnamed/part_001].
    The appended text is [JSON.stringify(data, null, 2)] and a comma; the
    trace keeps the record itself. *)
Definition submit (data : json) : M unit :=
  if negb (truthy (get "url" data)) || negb (truthy (get "websiteName" data))
  then respond 400 (message "Invalid submission")
  else
    log (Appended "submissions.json" data) ;;
    respond 200 (message "Website submitted successfully").

(** *** [src/unnamed/part_000] *)

Definition hardenPage : M unit := await evaluateOnNewDocument.

Definition stabilizePage : M unit :=
  try_catch (await waitForNetworkIdle) (fun _ => ret tt) ;;
  sleep 4000.

Definition aggressiveScroll (url : string) : M unit :=
  try_catch (page_evaluate url (fun _ => Ok tt)) (fun _ => ret tt).

Definition forceLoadImages (url : string) : M unit :=
  try_catch (page_evaluate url (fun _ => Ok tt)) (fun _ => ret tt).

Definition extractCSSColors (url : string) : M (list string) :=
  try_catch
    (page_evaluate url (fun d => Ok (extractCSSColors_inpage (elements d))))
    (fun _ => ret []).

Definition extractFonts_part000 (url : string) : M (list string) :=
  try_catch
    (page_evaluate url (fun d => Ok (extractFonts_inpage_part000 (elements d))))
    (fun _ => ret []).

Definition extractTags (url : string) : M (list string) :=
  try_catch
    (page_evaluate url (fun d => Ok (extractTags_inpage_part000 d)))
    (fun _ => ret []).

Definition extractCategory_part000 (url : string) : M string :=
  try_catch
    (page_evaluate url extractCategory_inpage_part000)
    (fun _ => ret "Unknown").

Definition invalid_part000 : json :=
  JObj [("status", JStr "error"); ("message", JStr "Please enter a valid website URL.")].

Definition blocked_part000 : json :=
  JObj [ ("status", JStr "error");
         ("message", JStr "The website restricted automation or took too long to respond.") ].

Definition report_part000
    (warnings : list string) (category : string) (colors fonts fontTypes tags : list string)
    (desktopFile mobileFile : string) : json :=
  JObj [ ("status", JStr (match warnings with [] => "success" | _ => "partial_success" end));
         ("message",
          JStr (match warnings with
                | [] => "Website analyzed successfully."
                | _ => "Some data could not be fully extracted, but screenshots were captured."
                end));
         ("category", JStr category);
         ("colors", strings colors);
         ("fonts", strings fonts);
         ("fontTypes", strings fontTypes);
         ("tags", strings tags);
         ("desktop", JStr desktopFile);
         ("mobile", JStr mobileFile);
         ("warnings", strings warnings) ].

(** [POST /analyze].  [warnings] is pushed to only in the two [catch]
    blocks, so each [try] yields the array as it leaves it. *)
Definition analyze_part000 (body : json) : M unit :=
  let url := get "url" body in
  if negb (truthy url) || negb (isValidUrl (toString url))
  then respond 400 invalid_part000
  else
    ensureDir "screenshots" ;;
    id <- randomUUID ;;
    let desktopFile := "desktop-" ++ id ++ ".webp" in
    let mobileFile := "mobile-" ++ id ++ ".webp" in
    let address := toString url in
    try_catch_finally
      (launch_browser ;;
       await newPage ;;
       hardenPage ;;
       await (setViewport 1440 900) ;;
       await (goto address 45000) ;;
       stabilizePage ;;
       forceLoadImages address ;;
       aggressiveScroll address ;;
       warnings <-
         try_catch
           (await (screenshot ("screenshots/" ++ desktopFile)) ;; ret [])
           (fun _ => ret ["Desktop screenshot was partially captured."]) ;;
       category <- extractCategory_part000 address ;;
       rawColors <- extractCSSColors address ;;
       colors <- lift (colors_part000 rawColors) ;;
       fonts <- extractFonts_part000 address ;;
       let fontTypes := classifyFontTypes fonts in
       tags <- extractTags address ;;
       await page_close ;;
       await newPage ;;
       hardenPage ;;
       await (setViewport 450 844) ;;
       await (goto address 45000) ;;
       stabilizePage ;;
       warnings <-
         try_catch
           (await (screenshot ("screenshots/" ++ mobileFile)) ;; ret warnings)
           (fun _ =>
              ret (warnings ++ ["Mobile screenshot could not be fully generated."])%list) ;;
       await page_close ;;
       respond 200
         (report_part000 warnings category colors fonts fontTypes tags desktopFile mobileFile))
      (fun _ => respond 500 blocked_part000)
      close_if_launched.

(** *** [src/unnamed/part_001] *)

Definition extractCategory_part001 (url : string) : M string :=
  page_evaluate url extractCategory_inpage_part001.

(** [POST /analyze]. *)
Definition analyze_part001 (body : json) : M unit :=
  let url := get "url" body in
  if negb (isValidUrl (toString url)) then respond 400 (message "Invalid URL")
  else
    ensureDir "screenshots" ;;
    id <- randomUUID ;;
    let desktopFile := "desktop-" ++ id ++ ".webp" in
    let mobileFile := "mobile-" ++ id ++ ".webp" in
    let address := toString url in
    try_catch_finally
      (launch_browser ;;
       await newPage ;;
       await (setViewport 1440 900) ;;
       await (goto address 60000) ;;
       sleep 3000 ;;
       websiteName <- title_of address ;;
       category <- extractCategory_part001 address ;;
       colors <- page_evaluate address (fun d => extractColors_part001 (elements d)) ;;
       fonts <- page_evaluate address (fun d => Ok (extractFonts_inpage_part001 (elements d))) ;;
       tags <- page_evaluate address (fun d => Ok (extractTags_inpage_part001 d)) ;;
       await (screenshot ("screenshots/" ++ desktopFile)) ;;
       await (setViewport 450 844) ;;
       await (screenshot ("screenshots/" ++ mobileFile)) ;;
       await page_close ;;
       respond 200
         (JObj [ ("websiteName", JStr websiteName);
                 ("category", JStr category);
                 ("colors", strings colors);
                 ("fonts", strings fonts);
                 ("tags", strings tags);
                 ("desktop", JStr desktopFile);
                 ("mobile", JStr mobileFile) ]))
      (fun _ => respond 500 (message "Website analysis failed"))
      close_if_launched.

(** A request starts in a world with nothing done yet. *)
Definition start (web : string -> document) (uuid : nat -> string) (oracle : list bool)
    : world :=
  mkWorld web uuid oracle 0 false [].

Definition run {A : Type} (m : M A) (w : world) : list event := trace (snd (m w)).

End Server.

(** * Vocabulary of the properties *)

Import JS Json Dom Colors Fonts Tags Category Url Server.

(** ** Colours *)

(** A digit of lowercase hexadecimal. *)
Definition is_lower_hex (c : ascii) : bool :=
  is_digit c || ((97 <=? nat_of_ascii c) && (nat_of_ascii c <=? 102))%nat.

(** A colour in the form [#rrggbb]. *)
Definition is_hex6 (s : string) : bool :=
  match s with
  | String c digits =>
      Ascii.eqb c "#" && (String.length digits =? 6)%nat && all_chars is_lower_hex digits
  | EmptyString => false
  end.

(** The channel [n] is written in exactly two hex digits, which read back
    as [n]. *)
Definition channel_ok (n : N) : bool :=
  (String.length (hex2 n) =? 2)%nat && all_chars is_lower_hex (hex2 n)
  && (parse_radix 16 (hex2 n) =? n)%N.

(** The text [rgb(r, g, b)] that [getComputedStyle] gives for an opaque
    colour, and its conversion. *)
Definition decimal (n : N) : string := NilZero.string_of_uint (N.to_uint n).

Definition rgb_text (r g b : N) : string :=
  "rgb(" ++ decimal r ++ ", " ++ decimal g ++ ", " ++ decimal b ++ ")".

(** [decimal n] is a non-empty run of digits that [Number] reads back. *)
Definition decimal_ok (n : N) : bool :=
  all_chars is_digit (decimal n) && truthy_string (decimal n)
  && (Number (decimal n) =? n)%N.

(** The page of the failing input: one element with an opaque text colour
    on the default, transparent background. *)
Definition transparent_page : list style :=
  [mkStyle "rgb(255, 87, 51)" "rgba(0, 0, 0, 0)" "Arial"].

(** ** Categories *)


(** [lbl] labels the first entry of [scored] that reaches the maximum [m]. *)
Definition is_first_max (scored : list (string * nat)) (lbl : string) (m : nat) : Prop :=
  exists i,
    nth_error scored i = Some (lbl, m)
    /\ (forall j p, nth_error scored j = Some p -> snd p <= m)
    /\ (forall j p, j < i -> nth_error scored j = Some p -> snd p < m).







(** The entries [src/index.js] pushes to [categoryScores]. *)
Definition positive (p : string * nat) : bool := (0 <? snd p)%nat.

(** [RULES], each with its label and the score of its keywords. *)
Definition scored_rules (RULES : list rule) (text : string) : list (string * nat) :=
  map (fun r => (label r, score_loop text (keywords r))) RULES.




(** ** Fonts and URLs *)

Definition font_types : list string := ["monospace"; "serif"; "sans-serif"].


(** ** Handler programs *)

(** Every run of [m] relates the world before to the world after by [R]. *)
Definition keeps (R : world -> world -> Prop) {A : Type} (m : M A) : Prop :=
  forall w, R w (snd (m w)).

(** The events selected by [view] are the same before and after. *)
Definition unseen (view : event -> bool) (w w' : world) : Prop :=
  filter view (trace w') = filter view (trace w).

(** The [browser] variable is the same before and after. *)
Definition same_browser (w w' : world) : Prop := browser w' = browser w.

(** What a program returns, whatever the world. *)
Definition returns {A : Type} (Q : A -> Prop) (m : M A) : Prop :=
  forall w a w', m w = (Ok a, w') -> Q a.

(** Nothing in a trace touches the browser or the file system. *)
Definition no_browser_work (tr : list event) : Prop :=
  forall e, In e tr -> exists status body, e = Responded status body.

(** The two outcomes of [/submit]. *)
Definition rejected (tr : list event) : Prop :=
  tr = [Responded 400 (message "Invalid submission")].

Definition accepted (data : json) (tr : list event) : Prop :=
  tr = [ Appended "submissions.json" data;
         Responded 200 (message "Website submitted successfully") ].

(** The next awaited call into the browser rejects. *)
Definition failing (w : world) : Prop := exists rest, oracle w = true :: rest.

(** The event of a launch that resolved. *)
Definition is_did_launch (e : event) : bool :=
  match e with
  | Did launch => true
  | _ => false
  end.

(** The trace ends with the call of [browser.close()], which resolved or,
    when the browser refused that very call, rejected. *)
Definition closes_browser_last (tr : list event) : Prop :=
  exists before,
    tr = (before ++ [Did browser_close])%list \/ tr = (before ++ [Threw browser_close])%list.

(** [browser] is assigned exactly when a launch has resolved. *)
Definition launched_iff_assigned (w : world) : Prop :=
  browser w = true <-> In (Did launch) (trace w).

(** The step from [w] to [w'] keeps that invariant. *)
Definition keeps_launched (w w' : world) : Prop :=
  launched_iff_assigned w -> launched_iff_assigned w'.

(** A program that neither launches nor assigns [browser]. *)
Definition quiet {A : Type} (m : M A) : Prop :=
  keeps (unseen is_did_launch) m /\ keeps same_browser m.

(** The handlers that launch a browser. *)
Definition handlers : list (json -> M unit) :=
  [analyze_index; analyze_bulk; analyze_part000; analyze_part001].

(** A response sent to the client. *)
Definition is_response (e : event) : bool :=
  match e with
  | Responded _ _ => true
  | _ => false
  end.

(** The responses a handler sent. *)
Definition responses (tr : list event) : list event := filter is_response tr.

(** The entry the loop pushes for [url]. *)
Definition entry_for (url e : json) : Prop :=
  e = invalid_entry url
  \/ e = failed_entry url
  \/ exists data, e = success_entry data /\ get "url" data = Some url.

(** The browser launch resolves. *)
Definition launch_resolves (oracle : list bool) : Prop :=
  match oracle with
  | true :: _ => False
  | _ => True
  end.

(** The shape of the entry of a URL that was invalid or failed. *)
Definition error_entry_shape (url e : json) : Prop :=
  keys e = ["url"; "success"; "error"]
  /\ get "url" e = Some url
  /\ get "success" e = Some (JBool false)
  /\ exists text, get "error" e = Some (JStr text).

(** The shape of the entry of an analysed URL. *)
Definition success_entry_shape (url e : json) : Prop :=
  keys e = ["success"; "data"]
  /\ get "success" e = Some (JBool true)
  /\ get "url" e = None
  /\ exists data, get "data" e = Some data /\ get "url" data = Some url.

(** What happened to one URL of a batch. *)
Inductive item_outcome : Type :=
| Invalid                    (* [isValidUrl] refused it *)
| Failed                     (* its analysis threw *)
| Analysed (data : json).    (* its analysis returned [data] *)

Definition is_analysed (o : item_outcome) : bool :=
  match o with
  | Analysed _ => true
  | _ => false
  end.

(** The world in which the loop of a batch starts: the directory is there
    and the browser has been launched. *)
Definition launched (w : world) : world :=
  snd ((ensureDir "screenshots" ;; launch_browser) w).

(** The outcomes of the URLs of a batch, in order, as the specification
    words them: every URL is validated by itself; an invalid one is not
    analysed; a valid one is analysed in the world the URLs before it have
    left, whatever their outcome, and its analysis returns or throws. *)
Inductive outcomes_from : world -> list json -> list item_outcome -> world -> Prop :=
| outcomes_done (w : world) : outcomes_from w [] [] w
| outcomes_invalid (w : world) (url : json) (urls : list json) (os : list item_outcome)
    (w' : world) :
    isValidUrl (toString (Some url)) = false ->
    outcomes_from w urls os w' ->
    outcomes_from w (url :: urls) (Invalid :: os) w'
| outcomes_failed (w : world) (url : json) (urls : list json) (os : list item_outcome)
    (e : string) (w1 w' : world) :
    isValidUrl (toString (Some url)) = true ->
    analyzeSingleWebsite (Some url) w = (Throw e, w1) ->
    outcomes_from w1 urls os w' ->
    outcomes_from w (url :: urls) (Failed :: os) w'
| outcomes_analysed (w : world) (url : json) (urls : list json) (os : list item_outcome)
    (data : json) (w1 w' : world) :
    isValidUrl (toString (Some url)) = true ->
    analyzeSingleWebsite (Some url) w = (Ok data, w1) ->
    outcomes_from w1 urls os w' ->
    outcomes_from w (url :: urls) (Analysed data :: os) w'.

(** Three lists of the same length, related item by item. *)
Inductive Forall3 {A B C : Type} (R : A -> B -> C -> Prop)
    : list A -> list B -> list C -> Prop :=
| Forall3_nil : Forall3 R [] [] []
| Forall3_cons (a : A) (b : B) (c : C) (la : list A) (lb : list B) (lc : list C) :
    R a b c -> Forall3 R la lb lc -> Forall3 R (a :: la) (b :: lb) (c :: lc).

(** A per-item error entry: the URL, [success: false] and the error text. *)
Definition error_entry (url : json) (text : string) (e : json) : Prop :=
  get "url" e = Some url
  /\ get "success" e = Some (JBool false)
  /\ get "error" e = Some (JStr text).

(** The entry recorded for a URL with the outcome [o]: an error entry when
    the URL was invalid or its analysis failed, the data otherwise. *)
Definition entry_recorded (url : json) (o : item_outcome) (e : json) : Prop :=
  match o with
  | Invalid => error_entry url "Invalid URL" e
  | Failed => error_entry url "Analysis failed" e
  | Analysed data => get "success" e = Some (JBool true) /\ get "data" e = Some data
  end.

(** The shape of the entry of a URL with the outcome [o]. *)
Definition entry_shape (url : json) (o : item_outcome) (e : json) : Prop :=
  match o with
  | Invalid | Failed => error_entry_shape url e
  | Analysed data => success_entry_shape url e /\ get "data" e = Some data
  end.

(** ** A concrete site and concrete requests *)

Definition example_page : document :=
  mkDocument "Example Shop" (Some "Buy a course and learn to code")
    [mkStyle "rgb(255, 87, 51)" "rgba(0, 0, 0, 0)" "Arial, sans-serif"]
    ["shop, store"] ["Welcome"].

Definition example_web (url : string) : document := example_page.

Definition example_uuid (n : nat) : string := "id-" ++ decimal (N.of_nat n).

Definition example_request : json := JObj [("url", JStr "https://example.com")].

Definition example_bulk : json :=
  JObj [("urls", JArr [JStr "not a url"; JStr "https://example.com"])].

(** A batch of an invalid URL and two valid ones. *)
Definition example_batch : list json :=
  [JStr "not a url"; JStr "https://example.com"; JStr "https://example.org"].

Definition example_mixed_bulk : json := JObj [("urls", JArr example_batch)].

(** The launch and the first [newPage] resolve, the [setViewport] after it
    rejects, every later call resolves. *)
Definition example_mixed_oracle : list bool := [false; false; true].

(** A submission with both fields present, the [url] an empty string. *)
Definition empty_url_submission : json :=
  JObj [("url", JStr ""); ("websiteName", JStr "Example")].

(** ** Sets, provenance and ranking *)

(** A step of a loop that fills a [Set]: from a list without duplicates
    it gives a list without duplicates. *)
Definition set_step {A : Type} (step : list string -> A -> list string) : Prop :=
  forall set a, NoDup set -> NoDup (step set a).


(** [t] is a trimmed item of a keywords list of the page. *)
Definition keyword_of (d : document) (t : string) : Prop :=
  exists content piece,
    In content (metaKeywords d)
    /\ In piece (split_comma content EmptyString)
    /\ t = trim piece.

(** [t] is the lowercased text of a heading shorter than [limit]. *)
Definition heading_of (limit : nat) (d : document) (t : string) : Prop :=
  exists h, In h (headings d) /\ String.length h < limit /\ t = toLowerCase h.

(** Every character of [s] is an ASCII character.  On such a string the
    code units [String.length] counts are the UTF-16 units that [length]
    counts in the source, and [toLowerCase] and [trim] are the builtins. *)
Definition is_ascii (s : string) : bool :=
  all_chars (fun c => (nat_of_ascii c <? 128)%nat) s.

(** The texts the tags are read from are ASCII. *)
Definition ascii_tag_sources (d : document) : Prop :=
  Forall (fun h => is_ascii h = true) (headings d)
  /\ Forall (fun content => is_ascii content = true) (metaKeywords d).

(** The order of the ranked categories: scores do not increase. *)
Definition by_score (a b : string * nat) : Prop := snd b <= snd a.

(** The rule [r] scores on [text]. *)
Definition scores (text : string) (r : rule) : Prop := 0 < score_loop text (keywords r).

(** [c] is the text colour or the background colour of an element of [els]. *)
Definition color_of (els : list style) (c : string) : Prop :=
  exists s, In s els /\ (c = color s \/ c = backgroundColor s).

Definition transparent : string := "rgba(0, 0, 0, 0)".

(** No decimal digit occurs in [s]. *)
Definition no_digit (s : string) : bool := all_chars (fun c => negb (is_digit c)) s.

(** The number of digit runs [s.match(/\d+/g)] finds. *)
Definition runs (s : string) : nat := List.length (digit_runs s EmptyString).


(** Whatever a loop step finds in the set afterwards was there before or is
    [Q] of the element read. *)
Definition adds_only {A : Type} (step : list string -> A -> list string)
    (Q : A -> string -> Prop) : Prop :=
  forall set a x, In x (step set a) -> In x set \/ Q a x.


Definition color_step (keep : string -> bool) (set : list string) (s : style) : list string :=
  let set := if keep (color s) then set_add (color s) set else set in
  if keep (backgroundColor s) then set_add (backgroundColor s) set else set.

(** ** Responses, navigation and pages *)

(** A program that, when it returns, has sent one more event selected by
    [view], one that [Q] holds of, and when it throws has sent none. *)
Definition ends_with (view : event -> bool) (Q : event -> Prop) {A : Type} (m : M A) : Prop :=
  forall w,
    match m w with
    | (Ok _, w') =>
        exists e, Q e /\ filter view (trace w') = (filter view (trace w) ++ [e])%list
    | (Throw _, w') => filter view (trace w') = filter view (trace w)
    end.

(** The response of a successful analysis. *)
Definition is_ok_response (e : event) : Prop := exists b, e = Responded 200 b.

(** The one response of a request: a 400 or a 200, or the 500 with the fixed
    body [failure]. *)
Definition answered_once (failure : json) (tr : list event) : Prop :=
  exists status b,
    responses tr = [Responded status b]
    /\ (status = 400 \/ status = 200 \/ (status = 500 /\ b = failure)).

(** Every event of the trace satisfies [P], if every earlier one did. *)
Definition only (P : event -> Prop) (w w' : world) : Prop :=
  Forall P (trace w) -> Forall P (trace w').

(** A navigation goes to one of [targets], and to a string that
    [isValidUrl] accepts. *)
Definition navigates_within (targets : list string) (e : event) : Prop :=
  match e with
  | Did (goto address _) | Threw (goto address _) =>
      In address targets /\ isValidUrl address = true
  | _ => True
  end.

(** The strings a request asks to analyse. *)
Definition requested (urls : list json) : list string :=
  map (fun url => toString (Some url)) urls.

(** The [urls] of a bulk request, when it is an array. *)
Definition urls_of (body : json) : list json :=
  match get "urls" body with
  | Some (JArr urls) => urls
  | _ => []
  end.

(** A call of [browser.newPage()], resolved or rejected. *)
Definition is_newPage_call (e : event) : bool :=
  match e with
  | Did newPage | Threw newPage => true
  | _ => false
  end.

(** A [page.close()] that resolved. *)
Definition is_page_closed (e : event) : bool :=
  match e with
  | Did page_close => true
  | _ => false
  end.

(** The number of events of a trace that [view] selects. *)
Definition count_events (view : event -> bool) (tr : list event) : nat :=
  List.length (filter view tr).

Definition valid_item (url : json) : bool := isValidUrl (toString (Some url)).

(** ** Captures *)

(** What a program that returns has added to the events selected by [view]:
    [Q] holds of the value returned and of the events added. *)
Definition adds (view : event -> bool) {A : Type} (m : M A) (Q : A -> list event -> Prop)
    : Prop :=
  forall w a w',
    m w = (Ok a, w') ->
    exists es, filter view (trace w') = (filter view (trace w) ++ es)%list /\ Q a es.

(** A call of [page.screenshot], resolved or rejected. *)
Definition is_capture (e : event) : bool :=
  match e with
  | Did (screenshot _) | Threw (screenshot _) => true
  | _ => false
  end.

Definition capture_or_response (e : event) : bool := is_capture e || is_response e.

(** The captures of a trace. *)
Definition captures (tr : list event) : list event := filter is_capture tr.

(** The warning [part_000] pushes when the capture [e] was rejected. *)
Definition warning_for (e : event) (text : string) : list string :=
  match e with
  | Threw _ => [text]
  | _ => []
  end.

Definition capture_of (path : string) (e : event) : Prop :=
  e = Did (screenshot path) \/ e = Threw (screenshot path).

(** What a 200 of [src/index.js] and [src/unnamed/part_001] says of the
    screenshots. *)
Definition names_captured_files (desktopKey mobileKey : string) (data : json)
    (shots : list event) : Prop :=
  exists desktop mobile,
    desktop <> mobile
    /\ get desktopKey data = Some (JStr desktop)
    /\ get mobileKey data = Some (JStr mobile)
    /\ shots = [ Did (screenshot ("screenshots/" ++ desktop));
                 Did (screenshot ("screenshots/" ++ mobile)) ].

(** The three outcomes of a handler, seen through the captures and the
    responses: a 400 alone, a last 500, or the events [Q] describes. *)
Definition outcome (Q : list event -> Prop) (tr : list event) : Prop :=
  (exists body, filter capture_or_response tr = [Responded 400 body])
  \/ (exists before failure,
         filter capture_or_response tr = (before ++ [Responded 500 failure])%list)
  \/ (exists es, filter capture_or_response tr = es /\ Q es).

(** The events of a successful analysis of [src/index.js] and
    [src/unnamed/part_001]: two captures, then the 200 that names them. *)
Definition captured_then_ok (desktopKey mobileKey : string) (es : list event) : Prop :=
  exists data shots,
    es = (shots ++ [Responded 200 data])%list
    /\ names_captured_files desktopKey mobileKey data shots.

(** What a 200 of [src/unnamed/part_000] says of the screenshots: both were
    attempted, and the warnings list the rejected ones. *)
Definition reports_captures (data : json) (shots : list event) : Prop :=
  exists desktop mobile sd sm,
    desktop <> mobile
    /\ get "desktop" data = Some (JStr desktop)
    /\ get "mobile" data = Some (JStr mobile)
    /\ shots = [sd; sm]
    /\ capture_of ("screenshots/" ++ desktop) sd
    /\ capture_of ("screenshots/" ++ mobile) sm
    /\ get "warnings" data
       = Some (strings (warning_for sd "Desktop screenshot was partially captured."
                        ++ warning_for sm "Mobile screenshot could not be fully generated.")%list)
    /\ (get "status" data = Some (JStr "success")
        <-> sd = Did (screenshot ("screenshots/" ++ desktop))
            /\ sm = Did (screenshot ("screenshots/" ++ mobile)))
    /\ (get "status" data = Some (JStr "partial_success")
        <-> ~ (sd = Did (screenshot ("screenshots/" ++ desktop))
               /\ sm = Did (screenshot ("screenshots/" ++ mobile))))
    /\ exists fonts,
         get "fonts" data = Some (strings fonts)
         /\ get "fontTypes" data = Some (strings (classifyFontTypes fonts)).

Definition reported_then_ok (es : list event) : Prop :=
  exists data shots,
    es = (shots ++ [Responded 200 data])%list /\ reports_captures data shots.

(** ** Failures and their causes *)

(** The rejection of a call that [fatal] selects. *)
Definition fatal_throw (fatal : op -> bool) (e : event) : bool :=
  match e with
  | Threw o => fatal o
  | _ => false
  end.

(** The pages of the web are the same before and after. *)
Definition same_web (w w' : world) : Prop := web w' = web w.

(** A program run on the web [site] that, when it returns, has seen no
    fatal rejection, and when it throws, throws for [cause] or after a fatal
    rejection. *)
Definition blames (site : string -> document) (fatal : op -> bool) (cause : Prop)
    {A : Type} (m : M A) : Prop :=
  forall w, web w = site ->
    match m w with
    | (Ok _, w') =>
        web w' = site
        /\ filter (fatal_throw fatal) (trace w') = filter (fatal_throw fatal) (trace w)
    | (Throw _, w') =>
        web w' = site
        /\ (cause \/ exists o, fatal o = true /\ In (Threw o) (trace w'))
    end.

(** What a program returns on the web [site]. *)
Definition returns_on (site : string -> document) {A : Type} (Q : A -> Prop) (m : M A)
    : Prop :=
  forall w a w', web w = site -> m w = (Ok a, w') -> Q a.

(** The 500 of a handler is explained: every fatal rejection leads to it,
    and it comes from a fatal rejection or from [cause]. *)
Definition failure_explained (fatal : op -> bool) (cause : Prop) (failure : json)
    (tr : list event) : Prop :=
  (forall o, fatal o = true -> In (Threw o) tr -> responses tr = [Responded 500 failure])
  /\ (responses tr = [Responded 500 failure] ->
      cause \/ exists o, fatal o = true /\ In (Threw o) tr).

(** The calls whose rejection [/analyze] of [src/unnamed/part_000] does not
    catch. *)
Definition fatal_part000 (o : op) : bool :=
  match o with
  | launch | newPage | evaluateOnNewDocument | setViewport _ _ | goto _ _ | page_close => true
  | waitForNetworkIdle | evaluate | page_title | screenshot _ | browser_close => false
  end.

(** Every call but the [browser.close()] of the [finally] block. *)
Definition fatal_always (o : op) : bool :=
  match o with
  | browser_close => false
  | _ => true
  end.

(** The launch of the browser, and no other call. *)
Definition fatal_launch (o : op) : bool :=
  match o with
  | launch => true
  | _ => false
  end.

(** A captured colour of the page with one or two digit runs. *)
Definition colour_short_of_channels (d : document) : Prop :=
  exists c, In c (extractCSSColors_inpage (elements d)) /\ (runs c = 1 \/ runs c = 2).

(** An extraction of [src/index.js] throws in the page. *)
Definition extraction_throws_index (d : document) : Prop :=
  (exists e, extractWebsiteIntelligence_inpage d = Throw e)
  \/ (exists e, extractColors_index (elements d) = Throw e).

(** An extraction of [src/unnamed/part_001] throws in the page. *)
Definition extraction_throws_part001 (d : document) : Prop :=
  (exists e, extractCategory_inpage_part001 d = Throw e)
  \/ (exists e, extractColors_part001 (elements d) = Throw e).

(** * Properties *)

(** ** Colour extraction *)

Section ColorFacts.

Lemma channels_checked :
  forallb channel_ok (map N.of_nat (seq 0 256)) = true.
Proof. vm_compute. reflexivity. Qed.

Lemma hex2_channel (n : N) : (n < 256)%N -> channel_ok n = true.
Proof.
  intros Hn.
  pose proof channels_checked as H.
  rewrite forallb_forall in H.
  apply H.
  apply in_map_iff.
  exists (N.to_nat n).
  split; [apply N2Nat.id|].
  apply in_seq. lia.
Qed.

Lemma hex2_length (n : N) : (n < 256)%N -> String.length (hex2 n) = 2.
Proof.
  intros Hn. apply hex2_channel in Hn.
  unfold channel_ok in Hn. rewrite !andb_true_iff in Hn.
  now apply Nat.eqb_eq.
Qed.

Lemma hex2_digits (n : N) : (n < 256)%N -> all_chars is_lower_hex (hex2 n) = true.
Proof.
  intros Hn. apply hex2_channel in Hn.
  unfold channel_ok in Hn. rewrite !andb_true_iff in Hn. tauto.
Qed.

(** The two digits are the channel in base 16. *)
Lemma hex2_value (n : N) : (n < 256)%N -> parse_radix 16 (hex2 n) = n.
Proof.
  intros Hn. apply hex2_channel in Hn.
  unfold channel_ok in Hn. rewrite !andb_true_iff in Hn.
  now apply N.eqb_eq.
Qed.

Lemma length_append (a b : string) :
  String.length (a ++ b) = String.length a + String.length b.
Proof. induction a as [|c a IH]; simpl; [reflexivity | now rewrite IH]. Qed.

Lemma all_chars_append (p : ascii -> bool) (a b : string) :
  all_chars p (a ++ b) = all_chars p a && all_chars p b.
Proof.
  induction a as [|c a IH]; simpl; [reflexivity|].
  rewrite IH. now rewrite andb_assoc.
Qed.

(** Three channels below 256 give a colour of the form [#rrggbb]. *)
Lemma three_channels_hex6 (r g b : string) :
  (Number r < 256)%N -> (Number g < 256)%N -> (Number b < 256)%N ->
  is_hex6 ("#" ++ join (map (fun x => hex2 (Number x)) [r; g; b])) = true.
Proof.
  intros Hr Hg Hb.
  cbn [map join fold_right String.append is_hex6].
  rewrite !length_append, !all_chars_append.
  rewrite !hex2_length, !hex2_digits by assumption.
  reflexivity.
Qed.

(** [map_result] keeps the length of the list it maps. *)
Lemma map_result_length {A B : Type} (f : A -> result B) (l : list A) (out : list B) :
  map_result f l = Ok out -> List.length out = List.length l.
Proof.
  revert out. induction l as [|x l IH]; intros out; simpl.
  - intros [= <-]. reflexivity.
  - destruct (f x) as [y|e]; [|discriminate].
    destruct (map_result f l) as [ys|e]; [|discriminate].
    intros [= <-]. simpl. now rewrite (IH ys).
Qed.

Lemma map_result_forall {A B : Type} (f : A -> result B) (l : list A) (out : list B) :
  map_result f l = Ok out ->
  Forall (fun y => exists x, In x l /\ f x = Ok y) out.
Proof.
  revert out. induction l as [|x l IH]; intros out; simpl.
  - intros [= <-]. constructor.
  - destruct (f x) as [y|e] eqn:Hx; [|discriminate].
    destruct (map_result f l) as [ys|e]; [|discriminate].
    intros [= <-]. constructor.
    + exists x. auto.
    + eapply Forall_impl; [|apply IH; reflexivity].
      intros z [x' [Hin Hz]]. exists x'. auto.
Qed.

(** The output is never longer than the variant's cap. *)
Lemma extractColors_index_cap (els : list style) (out : list string) :
  extractColors_index els = Ok out -> List.length out <= 25.
Proof.
  intros H. apply map_result_length in H. rewrite H.
  unfold slice. apply firstn_le_length.
Qed.

Lemma extractColors_part001_cap (els : list style) (out : list string) :
  extractColors_part001 els = Ok out -> List.length out <= 20.
Proof.
  intros H. apply map_result_length in H. rewrite H.
  unfold slice. apply firstn_le_length.
Qed.

Lemma colors_part000_cap (rawColors out : list string) :
  colors_part000 rawColors = Ok out -> List.length out <= 30.
Proof.
  unfold colors_part000.
  destruct (map_result rgbToHex rawColors) as [hexes|e]; [|discriminate].
  intros H.
  assert (out = slice 30 (filter_Boolean hexes)) as -> by congruence.
  apply firstn_le_length.
Qed.

(** A captured string with exactly three channels, as [rgb(r, g, b)] has,
    is converted to [#rrggbb] by each variant. *)
Lemma rgbToHexAll_triple (rgb r g b : string) :
  match_digits rgb = Some [r; g; b] ->
  (Number r < 256)%N -> (Number g < 256)%N -> (Number b < 256)%N ->
  exists hex, rgbToHexAll rgb = Ok hex /\ is_hex6 hex = true.
Proof.
  intros Hm Hr Hg Hb. unfold rgbToHexAll. rewrite Hm.
  eexists; split; [reflexivity|]. now apply three_channels_hex6.
Qed.

(** [rgbToHex] of [src/unnamed/part_000] reads the first three channels
    only, so a fourth one (the alpha of [rgba(...)]) does not show. *)
Lemma rgbToHex_first_three (rgb r g b : string) (more : list string) :
  match_digits rgb = Some (r :: g :: b :: more) ->
  (Number r < 256)%N -> (Number g < 256)%N -> (Number b < 256)%N ->
  exists hex, rgbToHex rgb = Ok (Some hex) /\ is_hex6 hex = true.
Proof.
  intros Hm Hr Hg Hb. unfold rgbToHex. rewrite Hm.
  eexists; split; [reflexivity|]. now apply three_channels_hex6.
Qed.

Lemma decimals_checked : forallb decimal_ok (map N.of_nat (seq 0 256)) = true.
Proof. vm_compute. reflexivity. Qed.

Lemma decimal_channel (n : N) :
  (n < 256)%N ->
  all_chars is_digit (decimal n) = true
  /\ flush (decimal n) = [decimal n]
  /\ Number (decimal n) = n.
Proof.
  intros Hn.
  pose proof decimals_checked as H.
  rewrite forallb_forall in H.
  specialize (H n).
  assert (decimal_ok n = true) as Hok.
  { apply H. apply in_map_iff. exists (N.to_nat n).
    split; [apply N2Nat.id | apply in_seq; lia]. }
  unfold decimal_ok in Hok.
  apply andb_prop in Hok. destruct Hok as [Hok Hnum].
  apply andb_prop in Hok. destruct Hok as [Hdig Hne].
  repeat split.
  - exact Hdig.
  - destruct (decimal n); [discriminate | reflexivity].
  - now apply N.eqb_eq.
Qed.

Lemma append_empty_r (a : string) : a ++ "" = a.
Proof. induction a as [|x a IH]; simpl; [reflexivity | now rewrite IH]. Qed.

Lemma append_assoc (a b c : string) : (a ++ b) ++ c = a ++ (b ++ c).
Proof. induction a as [|x a IH]; simpl; [reflexivity | now rewrite IH]. Qed.

Lemma digit_runs_digits (d rest cur : string) :
  all_chars is_digit d = true ->
  digit_runs (d ++ rest) cur = digit_runs rest (cur ++ d).
Proof.
  revert cur. induction d as [|c d IH]; intros cur Hd; simpl in *.
  - now rewrite append_empty_r.
  - apply andb_prop in Hd. destruct Hd as [Hc Hd].
    rewrite Hc, IH by assumption.
    now rewrite append_assoc.
Qed.

Lemma match_digits_rgb_text (r g b : N) :
  (r < 256)%N -> (g < 256)%N -> (b < 256)%N ->
  match_digits (rgb_text r g b) = Some [decimal r; decimal g; decimal b].
Proof.
  intros Hr Hg Hb.
  destruct (decimal_channel r Hr) as (Dr & Fr & _).
  destruct (decimal_channel g Hg) as (Dg & Fg & _).
  destruct (decimal_channel b Hb) as (Db & Fb & _).
  unfold match_digits, rgb_text.
  change (digit_runs ("rgb(" ++ decimal r ++ ", " ++ decimal g ++ ", " ++ decimal b ++ ")") "")
    with (digit_runs (decimal r ++ ", " ++ decimal g ++ ", " ++ decimal b ++ ")") "").
  rewrite digit_runs_digits by assumption.
  change (digit_runs (", " ++ decimal g ++ ", " ++ decimal b ++ ")") ("" ++ decimal r))
    with (flush (decimal r) ++ digit_runs (decimal g ++ ", " ++ decimal b ++ ")") "")%list.
  rewrite digit_runs_digits by assumption.
  change (digit_runs (", " ++ decimal b ++ ")") ("" ++ decimal g))
    with (flush (decimal g) ++ digit_runs (decimal b ++ ")") "")%list.
  rewrite digit_runs_digits by assumption.
  change (digit_runs ")" ("" ++ decimal b)) with (flush (decimal b) ++ [])%list.
  rewrite Fr, Fg, Fb. reflexivity.
Qed.

(** Every variant turns [rgb(r, g, b)] into [#] and the three channels in
    two hex digits each. *)
Lemma rgb_text_to_hex (r g b : N) :
  (r < 256)%N -> (g < 256)%N -> (b < 256)%N ->
  rgbToHexAll (rgb_text r g b) = Ok ("#" ++ hex2 r ++ hex2 g ++ hex2 b)
  /\ rgbToHex (rgb_text r g b) = Ok (Some ("#" ++ hex2 r ++ hex2 g ++ hex2 b))
  /\ is_hex6 ("#" ++ hex2 r ++ hex2 g ++ hex2 b) = true.
Proof.
  intros Hr Hg Hb.
  destruct (decimal_channel r Hr) as (_ & _ & Nr).
  destruct (decimal_channel g Hg) as (_ & _ & Ng).
  destruct (decimal_channel b Hb) as (_ & _ & Nb).
  unfold rgbToHexAll, rgbToHex.
  rewrite match_digits_rgb_text by assumption.
  cbn [map join fold_right].
  rewrite Nr, Ng, Nb, append_empty_r.
  repeat split.
  cbn [String.append is_hex6].
  rewrite !length_append, !all_chars_append.
  rewrite !hex2_length, !hex2_digits by assumption.
  reflexivity.
Qed.

(** What holds of the colour output in all three variants: a captured
    [rgb(r, g, b)] with channels up to 255 becomes [#] and six hex digits,
    two per channel, and the output is never longer than the cap of the
    variant (25, 30, 20). *)
Theorem colors_rgb_triples_and_caps (r g b : N) (els : list style) (out : list string) :
  ((r < 256)%N -> (g < 256)%N -> (b < 256)%N ->
   rgbToHexAll (rgb_text r g b) = Ok ("#" ++ hex2 r ++ hex2 g ++ hex2 b)
   /\ rgbToHex (rgb_text r g b) = Ok (Some ("#" ++ hex2 r ++ hex2 g ++ hex2 b))
   /\ is_hex6 ("#" ++ hex2 r ++ hex2 g ++ hex2 b) = true
   /\ parse_radix 16 (hex2 r) = r
   /\ parse_radix 16 (hex2 g) = g
   /\ parse_radix 16 (hex2 b) = b)
  /\ (extractColors_index els = Ok out -> List.length out <= 25)
  /\ (colors_part000 (extractCSSColors_inpage els) = Ok out -> List.length out <= 30)
  /\ (extractColors_part001 els = Ok out -> List.length out <= 20).
Proof.
  split.
  { intros Hr Hg Hb.
    destruct (rgb_text_to_hex r g b Hr Hg Hb) as (H1 & H2 & H3).
    repeat split; try assumption; now apply hex2_value. }
  split; [apply extractColors_index_cap|].
  split; [apply colors_part000_cap | apply extractColors_part001_cap].
Qed.

Example rgbToHex_black : rgbToHex "rgb(0, 0, 0)" = Ok (Some "#000000").
Proof. reflexivity. Qed.

Example rgbToHex_orange : rgbToHexAll "rgb(255, 87, 51)" = Ok "#ff5733".
Proof. reflexivity. Qed.

(** C1.  On a page whose element has the transparent default background
    [rgba(0, 0, 0, 0)], [extractColors] of [src/index.js] and the colour
    evaluation of [src/unnamed/part_001] return [#00000000], which has
    eight hex digits, not six; [src/unnamed/part_000] filters that colour
    out and returns six-digit colours only. *)
Theorem extractColors_rgba_eight_digits :
  extractColors_index transparent_page = Ok ["#ff5733"; "#00000000"]
  /\ extractColors_part001 transparent_page = Ok ["#ff5733"; "#00000000"]
  /\ is_hex6 "#00000000" = false
  /\ rgbToHexAll "rgba(255, 0, 0, 0.5)" = Ok "#ff00000005"
  /\ colors_part000 (extractCSSColors_inpage transparent_page) = Ok ["#ff5733"]
  /\ rgbToHex "rgba(255, 0, 0, 0.5)" = Ok (Some "#ff0000").
Proof. repeat split; reflexivity. Qed.

End ColorFacts.

(** ** Category classification *)

Section CategoryFacts.

(** [startsWith] and [includes] decide the prefix and substring relations. *)
Lemma startsWith_iff (p s : string) :
  startsWith p s = true <-> exists post, s = p ++ post.
Proof.
  revert s. induction p as [|a p IH]; intros s; simpl.
  - split; [intros _; now exists s | reflexivity].
  - destruct s as [|b s].
    + split; [discriminate | intros [post H]; discriminate].
    + rewrite andb_true_iff, Ascii.eqb_eq, IH. split.
      * intros [-> [post ->]]. now exists post.
      * intros [post [= -> ->]]. split; [reflexivity | now exists post].
Qed.

Lemma includes_iff (k s : string) :
  includes k s = true <-> exists pre post, s = pre ++ k ++ post.
Proof.
  induction s as [|c s IH]; simpl.
  - rewrite orb_false_r, startsWith_iff. split.
    + intros [post H]. now exists "", post.
    + intros [pre [post H]]. destruct pre; [now exists post | discriminate].
  - rewrite orb_true_iff, startsWith_iff, IH. split.
    + intros [[post H] | [pre [post H]]].
      * now exists "", post.
      * exists (String c pre), post. simpl. now rewrite H.
    + intros [pre [post H]]. destruct pre as [|c' pre].
      * left. now exists post.
      * right. injection H as _ H. now exists pre, post.
Qed.



Lemma is_first_max_unique scored lbl m lbl' m' :
  is_first_max scored lbl m -> is_first_max scored lbl' m' -> lbl = lbl' /\ m = m'.
Proof.
  intros (i & Hi & Hall & Hbefore) (i' & Hi' & Hall' & Hbefore').
  assert (m = m') as <-.
  { apply Nat.le_antisymm.
    - apply (Hall' i _ Hi).
    - apply (Hall i' _ Hi'). }
  destruct (Nat.lt_trichotomy i i') as [Hlt | [-> | Hgt]].
  - specialize (Hbefore' i _ Hlt Hi). simpl in Hbefore'. lia.
  - rewrite Hi in Hi'. now injection Hi' as ->.
  - specialize (Hbefore i' _ Hgt Hi'). simpl in Hbefore. lia.
Qed.


Section Loop.

Variable score : string -> list string -> nat.
Variable text : string.



End Loop.


(** *** The sort of [src/index.js] *)






Lemma score_rules_from RULES text categoryScores websiteTags :
  fst (fold_left
         (fun '(categoryScores, websiteTags) r =>
            let score := score_loop text (keywords r) in
            if (0 <? score)%nat
            then ((categoryScores ++ [(label r, score)])%list,
                  fold_left (fun set t => set_add t set) (Category.tags r) websiteTags)
            else (categoryScores, websiteTags))
         RULES (categoryScores, websiteTags))
  = (categoryScores ++ filter positive (scored_rules RULES text))%list.
Proof.
  revert categoryScores websiteTags.
  induction RULES as [|r RULES IH]; intros cs ts; cbn [fold_left scored_rules map filter].
  - now rewrite app_nil_r.
  - unfold positive at 1. cbn [snd].
    destruct (0 <? score_loop text (keywords r))%nat.
    + rewrite IH. now rewrite <- app_assoc.
    + now rewrite IH.
Qed.

Lemma score_rules_positive RULES text :
  fst (score_rules RULES text) = filter positive (scored_rules RULES text).
Proof. unfold score_rules. now rewrite score_rules_from. Qed.








(** The text scored is the lowercased title, a space and the first 3000
    (6000 in [src/index.js]) code units of the body text. *)
Lemma extractCategory_on_page_text (d : document) (innerText : string) :
  body d = Some innerText ->
  extractCategory_inpage_part000 d
  = Ok (bestCategory_part000 (toLowerCase (title d ++ " " ++ slice0 3000 innerText)))
  /\ extractCategory_inpage_part001 d
     = Ok (bestCategory_part001 (toLowerCase (title d ++ " " ++ slice0 3000 innerText)))
  /\ option_map websiteType
       (match extractWebsiteIntelligence_inpage d with Ok i => Some i | Throw _ => None end)
     = Some (websiteType
               (intelligence_of CATEGORY_RULES
                  (toLowerCase (title d ++ " " ++ slice0 6000 innerText)))).
Proof.
  intros Hbody.
  unfold extractCategory_inpage_part000, extractCategory_inpage_part001,
    extractWebsiteIntelligence_inpage, page_text.
  rewrite Hbody. repeat split.
Qed.

Example category_tie_first_rule :
  bestCategory_part000 "our shop: buy the course and learn" = "E-commerce".
Proof. reflexivity. Qed.

End CategoryFacts.

(** ** Font classification *)

Section FontFacts.

Lemma set_add_in (x y : string) (set : list string) :
  In y (set_add x set) <-> y = x \/ In y set.
Proof.
  unfold set_add.
  destruct (existsb (String.eqb x) set) eqn:E.
  - split; [auto|]. intros [-> | H]; [|assumption].
    apply existsb_exists in E. destruct E as (z & Hz & Heq).
    apply String.eqb_eq in Heq. now subst.
  - rewrite in_app_iff. simpl. intuition.
Qed.

Lemma classifyFontTypes_from (fonts types : list string) (t : string) :
  In t (fold_left (fun types f => set_add (classifyFont f) types) fonts types)
  <-> In t types \/ exists f, In f fonts /\ classifyFont f = t.
Proof.
  revert types. induction fonts as [|f fonts IH]; intros types; cbn [fold_left].
  - split; [auto|]. intros [H | (f & [] & _)]. assumption.
  - rewrite IH, set_add_in. split.
    + intros [[-> | H] | (g & Hg & Ht)].
      * right. exists f. simpl. auto.
      * now left.
      * right. exists g. simpl. auto.
    + intros [H | (g & [<- | Hg] & Ht)].
      * left. now right.
      * left. left. now symmetry.
      * right. now exists g.
Qed.

(** The types reported for a font list are the types of its fonts. *)
Lemma classifyFontTypes_in (fonts : list string) (t : string) :
  In t (classifyFontTypes fonts) <-> exists f, In f fonts /\ classifyFont f = t.
Proof.
  unfold classifyFontTypes. rewrite classifyFontTypes_from.
  simpl. intuition.
Qed.


Example classifyFontTypes_sample :
  classifyFontTypes ["DejaVu Sans MONO"; "Noto Serif"; "Arial"; "PT Sans Serif"]
  = ["monospace"; "serif"; "sans-serif"].
Proof. reflexivity. Qed.

End FontFacts.

(** ** URL validation *)

Section UrlFacts.

Lemma scheme_state_shape (s buffer scheme rest : string) :
  scheme_state s buffer = Some (scheme, rest) ->
  exists raw, s = raw ++ String ":" rest /\ scheme = buffer ++ toLowerCase raw.
Proof.
  revert buffer. induction s as [|c s IH]; intros buffer; cbn [scheme_state].
  - discriminate.
  - destruct (is_alnum c || Ascii.eqb c "+" || Ascii.eqb c "-" || Ascii.eqb c ".").
    + intros H. apply IH in H. destruct H as (raw & -> & ->).
      exists (String c raw). split; [reflexivity|].
      cbn [toLowerCase]. now rewrite append_assoc.
    + destruct (Ascii.eqb c ":") eqn:E; [|discriminate].
      apply Ascii.eqb_eq in E. subst c.
      intros [= <- <-]. exists "". split; [reflexivity|].
      now rewrite append_empty_r.
Qed.

(** A string that has a scheme starts with a letter and reads as a
    non-empty scheme name, a colon and the rest. *)
Lemma parse_scheme_shape (s scheme rest : string) :
  parse_scheme s = Some (scheme, rest) ->
  exists raw, s = raw ++ String ":" rest /\ scheme = toLowerCase raw /\ raw <> "".
Proof.
  unfold parse_scheme. destruct s as [|c s]; [discriminate|].
  destruct (is_alpha c); [|discriminate].
  intros H. apply scheme_state_shape in H. destruct H as (raw & -> & ->).
  exists (String c raw). repeat split. discriminate.
Qed.



End UrlFacts.

(** ** Reasoning about handler programs *)

(** A relation between the world before and after a program, kept by every
    step: the frame of a program. *)
Section Frame.

Variable R : world -> world -> Prop.
Hypothesis R_refl : forall w, R w w.
Hypothesis R_trans : forall a b c, R a b -> R b c -> R a c.

Lemma keeps_ret {A : Type} (a : A) : keeps R (ret a).
Proof. intros w. apply R_refl. Qed.

Lemma keeps_throw {A : Type} (e : string) : keeps R (@throw A e).
Proof. intros w. apply R_refl. Qed.

Lemma keeps_lift {A : Type} (r : result A) : keeps R (lift r).
Proof. intros w. apply R_refl. Qed.

Lemma keeps_bind {A B : Type} (m : M A) (k : A -> M B) :
  keeps R m -> (forall a, keeps R (k a)) -> keeps R (bind m k).
Proof.
  intros Hm Hk w. unfold bind. specialize (Hm w).
  destruct (m w) as [[a|e] w']; cbn [snd] in *.
  - eapply R_trans; [eassumption | apply Hk].
  - assumption.
Qed.

Lemma keeps_try_catch {A : Type} (body : M A) (handler : string -> M A) :
  keeps R body -> (forall e, keeps R (handler e)) -> keeps R (try_catch body handler).
Proof.
  intros Hb Hh w. unfold try_catch. specialize (Hb w).
  destruct (body w) as [[a|e] w']; cbn [snd] in *.
  - assumption.
  - eapply R_trans; [eassumption | apply Hh].
Qed.

Lemma keeps_page_evaluate {A : Type} (url : string) (f : document -> result A) :
  keeps R (await evaluate) -> keeps R (page_evaluate url f).
Proof.
  intros H w. unfold page_evaluate, bind. specialize (H w).
  destruct (await evaluate w) as [[[]|e] w']; assumption.
Qed.

Lemma keeps_title_of (url : string) :
  keeps R (await page_title) -> keeps R (title_of url).
Proof.
  intros H w. unfold title_of, bind. specialize (H w).
  destruct (await page_title w) as [[[]|e] w']; assumption.
Qed.

End Frame.

Lemma unseen_refl view w : unseen view w w.
Proof. reflexivity. Qed.

Lemma unseen_trans view a b c : unseen view a b -> unseen view b c -> unseen view a c.
Proof. unfold unseen. congruence. Qed.

Lemma same_browser_refl w : same_browser w w.
Proof. reflexivity. Qed.

Lemma same_browser_trans a b c : same_browser a b -> same_browser b c -> same_browser a c.
Proof. unfold same_browser. congruence. Qed.

Lemma filter_snoc_unseen (view : event -> bool) (tr : list event) (e : event) :
  view e = false -> filter view (tr ++ [e])%list = filter view tr.
Proof.
  intros H. rewrite filter_app. cbn [filter]. rewrite H. apply app_nil_r.
Qed.

Lemma unseen_await view o :
  view (Did o) = false -> view (Threw o) = false -> keeps (unseen view) (await o).
Proof.
  intros Hd Ht w. unfold await, unseen.
  destruct (oracle w) as [|[|] rest]; cbn [snd trace]; now apply filter_snoc_unseen.
Qed.

Lemma unseen_log view e : view e = false -> keeps (unseen view) (log e).
Proof. intros H w. unfold log, unseen. cbn [snd trace]. now apply filter_snoc_unseen. Qed.

Lemma unseen_randomUUID view : keeps (unseen view) randomUUID.
Proof. intros w. reflexivity. Qed.

Lemma unseen_launch_browser view :
  view (Did launch) = false -> view (Threw launch) = false ->
  keeps (unseen view) launch_browser.
Proof.
  intros Hd Ht w. pose proof (unseen_await view launch Hd Ht w) as H.
  unfold launch_browser, bind.
  destruct (await launch w) as [[[]|e] w']; exact H.
Qed.

Lemma unseen_close_if_launched view :
  view (Did browser_close) = false -> view (Threw browser_close) = false ->
  keeps (unseen view) close_if_launched.
Proof.
  intros Hd Ht w. unfold close_if_launched.
  destruct (browser w); [now apply unseen_await | reflexivity].
Qed.

Lemma same_browser_await o : keeps same_browser (await o).
Proof.
  intros w. unfold await, same_browser.
  destruct (oracle w) as [|[|] rest]; reflexivity.
Qed.

Lemma same_browser_log e : keeps same_browser (log e).
Proof. intros w. reflexivity. Qed.

Lemma same_browser_randomUUID : keeps same_browser randomUUID.
Proof. intros w. reflexivity. Qed.

(** The frame of a program built from the primitives: sequencing and
    [try]/[catch] first, then the primitive at hand. *)
Ltac frame_unseen :=
  repeat first
    [ apply keeps_ret; apply unseen_refl
    | apply keeps_lift; apply unseen_refl
    | apply keeps_bind; [apply unseen_trans | | intros]
    | apply keeps_try_catch; [apply unseen_trans | | intros]
    | apply keeps_page_evaluate
    | apply keeps_title_of
    | apply unseen_await; reflexivity
    | apply unseen_log; reflexivity
    | apply unseen_randomUUID ].

Ltac frame_browser :=
  repeat first
    [ apply keeps_ret; apply same_browser_refl
    | apply keeps_lift; apply same_browser_refl
    | apply keeps_bind; [apply same_browser_trans | | intros]
    | apply keeps_try_catch; [apply same_browser_trans | | intros]
    | apply keeps_page_evaluate
    | apply keeps_title_of
    | apply same_browser_await
    | apply same_browser_log
    | apply same_browser_randomUUID ].

Lemma returns_ret {A : Type} (Q : A -> Prop) (a : A) : Q a -> returns Q (ret a).
Proof. intros H w a' w' [= <- _]. exact H. Qed.

Lemma returns_bind {A B : Type} (Q : B -> Prop) (m : M A) (k : A -> M B) :
  (forall a, returns Q (k a)) -> returns Q (bind m k).
Proof.
  intros Hk w b w'. unfold bind.
  destruct (m w) as [[a|e] w1]; [apply Hk | discriminate].
Qed.

(** ** The request handlers *)

Section Requests.

Variable web : string -> document.
Variable uuid : nat -> string.

(** *** Validation failures *)

(** C7.  When the body of an [/analyze] request has no [url], or has a
    string that [isValidUrl] rejects, each of the three handlers does one
    thing only: it responds 400.  Nothing is launched and no screenshot is
    taken. *)
Theorem analyze_invalid_url_no_browser (oracle : list bool) (body : json) :
  get "url" body = None
  \/ (exists s, get "url" body = Some (JStr s) /\ isValidUrl s = false) ->
  run (analyze_index body) (start web uuid oracle) = [Responded 400 (message "Invalid URL")]
  /\ run (analyze_part000 body) (start web uuid oracle) = [Responded 400 invalid_part000]
  /\ run (analyze_part001 body) (start web uuid oracle) = [Responded 400 (message "Invalid URL")]
  /\ no_browser_work (run (analyze_index body) (start web uuid oracle))
  /\ no_browser_work (run (analyze_part000 body) (start web uuid oracle))
  /\ no_browser_work (run (analyze_part001 body) (start web uuid oracle)).
Proof.
  intros Hurl.
  assert (isValidUrl (toString (get "url" body)) = false) as Hinvalid.
  { destruct Hurl as [-> | (s & -> & Hs)]; [reflexivity | exact Hs]. }
  assert (run (analyze_index body) (start web uuid oracle)
          = [Responded 400 (message "Invalid URL")]) as H1.
  { unfold run, analyze_index. now rewrite Hinvalid. }
  assert (run (analyze_part000 body) (start web uuid oracle)
          = [Responded 400 invalid_part000]) as H2.
  { unfold run, analyze_part000. rewrite Hinvalid.
    now rewrite orb_true_r. }
  assert (run (analyze_part001 body) (start web uuid oracle)
          = [Responded 400 (message "Invalid URL")]) as H3.
  { unfold run, analyze_part001. now rewrite Hinvalid. }
  rewrite H1, H2, H3.
  repeat split; intros e [<- | []]; eauto.
Qed.

(** *** Submissions *)

(** C8, amended.  [/submit] responds 400 exactly when [url] or
    [websiteName] is absent or falsy (an empty string, [null], [false] or
    zero); otherwise it appends the record to the submission log and
    responds 200.  Nothing else of the record is looked at. *)
Theorem submit_requires_truthy_fields (oracle : list bool) (data : json) :
  (rejected (run (submit data) (start web uuid oracle))
   <-> truthy (get "url" data) = false \/ truthy (get "websiteName" data) = false)
  /\ (accepted data (run (submit data) (start web uuid oracle))
      <-> truthy (get "url" data) = true /\ truthy (get "websiteName" data) = true)
  /\ (get "url" data = None \/ get "websiteName" data = None ->
      rejected (run (submit data) (start web uuid oracle))).
Proof.
  unfold rejected, accepted, run, submit.
  destruct (truthy (get "url" data)) eqn:Hu;
    destruct (truthy (get "websiteName" data)) eqn:Hn; cbn.
  - repeat split; try discriminate; try tauto.
    + intros [H | H]; discriminate.
    + intros [H | H]; rewrite H in *; discriminate.
  - repeat split; try discriminate; try tauto.
    intros [_ H]; discriminate.
  - repeat split; try discriminate; try tauto.
    intros [H _]; discriminate.
  - repeat split; try discriminate; try tauto.
    intros [H _]; discriminate.
Qed.

(** *** Failures inside the extractors *)

Lemma await_failing (o : op) (w : world) :
  failing w -> fst (await o w) = Throw "Error".
Proof. intros [rest H]. unfold await. now rewrite H. Qed.

Lemma page_evaluate_failing {A : Type} (url : string) (f : document -> result A) (w : world) :
  failing w -> fst (page_evaluate url f w) = Throw "Error".
Proof.
  intros H. apply (await_failing evaluate) in H.
  unfold page_evaluate, bind.
  destruct (await evaluate w) as [[[]|e] w']; cbn [fst] in *;
    [discriminate | now injection H as ->].
Qed.

(** A [try] whose [catch] returns [default] always returns, and returns
    [default] when the evaluation fails. *)
Lemma caught_evaluate {A : Type} (url : string) (f : document -> result A) (default : A)
    (w : world) :
  exists a,
    fst (try_catch (page_evaluate url f) (fun _ => ret default) w) = Ok a
    /\ (failing w \/ (exists e, f (Server.web w url) = Throw e) -> a = default).
Proof.
  unfold try_catch.
  destruct (page_evaluate url f w) as [[a|e] w'] eqn:E.
  - exists a. split; [reflexivity|].
    intros [Hfail | [e He]].
    + apply (page_evaluate_failing url f) in Hfail. rewrite E in Hfail. discriminate.
    + unfold page_evaluate, bind, await in E.
      destruct (oracle w) as [|[|] rest]; cbn in E; try discriminate;
        rewrite He in E; discriminate.
  - exists default. split; [reflexivity | auto].
Qed.

(** C4, amended.  The four extractors of [src/unnamed/part_000] catch a
    failure of the evaluation and return their default: the empty list for
    colours, fonts and tags, ["Unknown"] for the category.  The extractors
    of [src/index.js] and [src/unnamed/part_001] have no [catch]: there the
    failure goes on to the caller. *)
Theorem extractors_catch_in_part000_only (url : string) (w : world) :
  (exists colors,
      fst (extractCSSColors url w) = Ok colors /\ (failing w -> colors = []))
  /\ (exists fonts,
         fst (extractFonts_part000 url w) = Ok fonts /\ (failing w -> fonts = []))
  /\ (exists tags, fst (extractTags url w) = Ok tags /\ (failing w -> tags = []))
  /\ (exists category,
         fst (extractCategory_part000 url w) = Ok category
         /\ (failing w \/ body (Server.web w url) = None -> category = "Unknown"))
  /\ (failing w ->
      fst (extractColors url w) = Throw "Error"
      /\ fst (extractFonts_index url w) = Throw "Error"
      /\ fst (extractWebsiteIntelligence url w) = Throw "Error"
      /\ fst (extractCategory_part001 url w) = Throw "Error").
Proof.
  split; [|split; [|split; [|split]]].
  - destruct (caught_evaluate url (fun d => Ok (extractCSSColors_inpage (elements d))) [] w)
      as (a & Ha & Hd).
    exists a. split; [exact Ha | auto].
  - destruct (caught_evaluate url (fun d => Ok (extractFonts_inpage_part000 (elements d))) [] w)
      as (a & Ha & Hd).
    exists a. split; [exact Ha | auto].
  - destruct (caught_evaluate url (fun d => Ok (extractTags_inpage_part000 d)) [] w)
      as (a & Ha & Hd).
    exists a. split; [exact Ha | auto].
  - destruct (caught_evaluate url extractCategory_inpage_part000 "Unknown" w)
      as (a & Ha & Hd).
    exists a. split; [exact Ha|].
    intros [Hf | Hb]; apply Hd; [now left | right].
    exists TypeError. unfold extractCategory_inpage_part000, page_text. now rewrite Hb.
  - intros Hf. repeat split; now apply page_evaluate_failing.
Qed.

(** *** The browser is closed *)

Lemma in_did_launch (tr : list event) :
  In (Did launch) tr <-> In (Did launch) (filter is_did_launch tr).
Proof. rewrite filter_In. intuition. Qed.

Lemma keeps_launched_refl w : keeps_launched w w.
Proof. unfold keeps_launched. auto. Qed.

Lemma keeps_launched_trans a b c :
  keeps_launched a b -> keeps_launched b c -> keeps_launched a c.
Proof. unfold keeps_launched. auto. Qed.

Lemma quiet_keeps_launched {A : Type} (m : M A) : quiet m -> keeps keeps_launched m.
Proof.
  intros [Hu Hb] w Hinv. specialize (Hu w). specialize (Hb w).
  unfold launched_iff_assigned, unseen, same_browser in *.
  rewrite Hb, in_did_launch, Hu, <- in_did_launch. exact Hinv.
Qed.

Lemma launch_browser_keeps_launched : keeps keeps_launched launch_browser.
Proof.
  intros w Hinv. unfold launch_browser, bind, await, launched_iff_assigned in *.
  destruct (oracle w) as [|[|] rest]; cbn [snd fst browser trace].
  - split; [intros _ | reflexivity]. apply in_or_app. right. now left.
  - rewrite in_app_iff. rewrite Hinv. split; [auto|].
    intros [H | [H | []]]; [assumption | discriminate].
  - split; [intros _ | reflexivity]. apply in_or_app. right. now left.
Qed.

(** The [try]/[catch]/[finally] of the handlers: after a quiet rest and a
    quiet handler, a browser that was launched is closed last. *)
Lemma guarded_browser_closed (rest : M unit) (handler : string -> M unit) (w : world) :
  quiet rest -> (forall e, quiet (handler e)) ->
  launched_iff_assigned w ->
  In (Did launch)
    (trace (snd (try_catch_finally (launch_browser ;; rest) handler close_if_launched w))) ->
  closes_browser_last
    (trace (snd (try_catch_finally (launch_browser ;; rest) handler close_if_launched w))).
Proof.
  intros Hrest Hhandler Hinv.
  assert (keeps keeps_launched (try_catch (launch_browser ;; rest) handler)) as Hkeep.
  { apply keeps_try_catch; [apply keeps_launched_trans | |].
    - apply keeps_bind; [apply keeps_launched_trans | apply launch_browser_keeps_launched |].
      intros _. now apply quiet_keeps_launched.
    - intros e. now apply quiet_keeps_launched. }
  specialize (Hkeep w Hinv).
  unfold try_catch_finally.
  destruct (try_catch (launch_browser ;; rest) handler w) as [r w1].
  cbn [snd] in Hkeep. unfold launched_iff_assigned in Hkeep.
  unfold close_if_launched, await.
  destruct (browser w1) eqn:Hb.
  - intros _. unfold closes_browser_last.
    destruct (oracle w1) as [|[|] rest']; destruct r; cbn [snd trace];
      exists (trace w1); auto.
  - cbn [snd]. intros Hin. apply Hkeep in Hin. discriminate.
Qed.

Lemma analyzeSingleWebsite_quiet (url : option json) : quiet (analyzeSingleWebsite url).
Proof.
  unfold analyzeSingleWebsite, extractWebsiteIntelligence, extractColors,
    extractFonts_index, sleep.
  split; [frame_unseen | frame_browser].
Qed.

Lemma respond_quiet (status : nat) (body : json) : quiet (respond status body).
Proof. unfold respond. split; [frame_unseen | frame_browser]. Qed.

Lemma bulk_step_quiet (url : json) (results : list json) : quiet (bulk_step url results).
Proof.
  unfold bulk_step.
  destruct (negb (isValidUrl (toString (Some url)))).
  - split; [frame_unseen | frame_browser].
  - pose proof (analyzeSingleWebsite_quiet (Some url)) as [Hu Hb].
    split.
    + apply keeps_try_catch; [apply unseen_trans | | intros; frame_unseen].
      apply keeps_bind; [apply unseen_trans | exact Hu | intros; frame_unseen].
    + apply keeps_try_catch; [apply same_browser_trans | | intros; frame_browser].
      apply keeps_bind; [apply same_browser_trans | exact Hb | intros; frame_browser].
Qed.

Lemma bulk_loop_quiet (urls results : list json) : quiet (bulk_loop urls results).
Proof.
  revert results. induction urls as [|url urls IH]; intros results; cbn [bulk_loop].
  - split; [frame_unseen | frame_browser].
  - pose proof (bulk_step_quiet url results) as [Hu Hb].
    split.
    + apply keeps_bind; [apply unseen_trans | exact Hu | intros a; apply IH].
    + apply keeps_bind; [apply same_browser_trans | exact Hb | intros a; apply IH].
Qed.

Lemma quiet_bind {A B : Type} (m : M A) (k : A -> M B) :
  quiet m -> (forall a, quiet (k a)) -> quiet (bind m k).
Proof.
  intros [Hu Hb] Hk. split.
  - apply keeps_bind; [apply unseen_trans | exact Hu | intros a; apply Hk].
  - apply keeps_bind; [apply same_browser_trans | exact Hb | intros a; apply Hk].
Qed.

Lemma part000_rest_quiet (address desktopFile mobileFile : string) :
  quiet
    (await newPage ;;
     hardenPage ;;
     await (setViewport 1440 900) ;;
     await (goto address 45000) ;;
     stabilizePage ;;
     forceLoadImages address ;;
     aggressiveScroll address ;;
     warnings <-
       try_catch
         (await (screenshot ("screenshots/" ++ desktopFile)) ;; ret [])
         (fun _ => ret ["Desktop screenshot was partially captured."]) ;;
     category <- extractCategory_part000 address ;;
     rawColors <- extractCSSColors address ;;
     colors <- lift (colors_part000 rawColors) ;;
     fonts <- extractFonts_part000 address ;;
     let fontTypes := classifyFontTypes fonts in
     tags <- extractTags address ;;
     await page_close ;;
     await newPage ;;
     hardenPage ;;
     await (setViewport 450 844) ;;
     await (goto address 45000) ;;
     stabilizePage ;;
     warnings <-
       try_catch
         (await (screenshot ("screenshots/" ++ mobileFile)) ;; ret warnings)
         (fun _ =>
            ret (warnings ++ ["Mobile screenshot could not be fully generated."])%list) ;;
     await page_close ;;
     respond 200
       (report_part000 warnings category colors fonts fontTypes tags desktopFile mobileFile)).
Proof.
  unfold hardenPage, stabilizePage, forceLoadImages, aggressiveScroll,
    extractCategory_part000, extractCSSColors, extractFonts_part000, extractTags,
    respond, sleep.
  split; [frame_unseen | frame_browser].
Qed.

Lemma part001_rest_quiet (address desktopFile mobileFile : string) :
  quiet
    (await newPage ;;
     await (setViewport 1440 900) ;;
     await (goto address 60000) ;;
     sleep 3000 ;;
     websiteName <- title_of address ;;
     category <- extractCategory_part001 address ;;
     colors <- page_evaluate address (fun d => extractColors_part001 (elements d)) ;;
     fonts <- page_evaluate address (fun d => Ok (extractFonts_inpage_part001 (elements d))) ;;
     tags <- page_evaluate address (fun d => Ok (extractTags_inpage_part001 d)) ;;
     await (screenshot ("screenshots/" ++ desktopFile)) ;;
     await (setViewport 450 844) ;;
     await (screenshot ("screenshots/" ++ mobileFile)) ;;
     await page_close ;;
     respond 200
       (JObj [ ("websiteName", JStr websiteName);
               ("category", JStr category);
               ("colors", strings colors);
               ("fonts", strings fonts);
               ("tags", strings tags);
               ("desktop", JStr desktopFile);
               ("mobile", JStr mobileFile) ])).
Proof.
  unfold extractCategory_part001, respond, sleep.
  split; [frame_unseen | frame_browser].
Qed.

(** C9.  Whatever the request and whichever awaited calls reject, when
    a handler of [/analyze] or [/analyze/bulk] has launched a browser, the
    last thing it does is call [browser.close()]. *)
Theorem browser_closed_on_every_path
    (handler : json -> M unit) (body : json) (oracle : list bool) :
  In handler handlers ->
  In (Did launch) (run (handler body) (start web uuid oracle)) ->
  closes_browser_last (run (handler body) (start web uuid oracle)).
Proof.
  assert (forall w, browser w = false -> trace w = [EnsuredDir "screenshots"] ->
                    launched_iff_assigned w) as Hstart.
  { intros w Hb Ht. unfold launched_iff_assigned. rewrite Hb, Ht.
    split; [discriminate | intros [H | []]; discriminate]. }
  intros Hh. unfold handlers in Hh.
  destruct Hh as [<- | [<- | [<- | [<- | []]]]]; unfold run.
  - unfold analyze_index.
    destruct (negb (isValidUrl (toString (get "url" body)))).
    + cbn. intros [H | []]; discriminate.
    + unfold ensureDir. unfold bind at 1. cbn [log].
      apply guarded_browser_closed.
      * apply quiet_bind; [apply analyzeSingleWebsite_quiet | intros; apply respond_quiet].
      * intros e. apply respond_quiet.
      * now apply Hstart.
  - unfold analyze_bulk.
    destruct (get "urls" body) as [[| | | |[|url urls]|]|];
      try (cbn; intros [H | []]; discriminate).
    unfold ensureDir. unfold bind at 1. cbn [log].
    apply guarded_browser_closed.
    + apply quiet_bind; [apply bulk_loop_quiet | intros; apply respond_quiet].
    + intros e. apply respond_quiet.
    + now apply Hstart.
  - unfold analyze_part000.
    destruct (negb (truthy (get "url" body))
              || negb (isValidUrl (toString (get "url" body)))).
    + cbn. intros [H | []]; discriminate.
    + unfold ensureDir. unfold bind at 1. cbn [log].
      unfold bind at 1. cbn [randomUUID].
      apply guarded_browser_closed.
      * apply part000_rest_quiet.
      * intros e. apply respond_quiet.
      * now apply Hstart.
  - unfold analyze_part001.
    destruct (negb (isValidUrl (toString (get "url" body)))).
    + cbn. intros [H | []]; discriminate.
    + unfold ensureDir. unfold bind at 1. cbn [log].
      unfold bind at 1. cbn [randomUUID].
      apply guarded_browser_closed.
      * apply part001_rest_quiet.
      * intros e. apply respond_quiet.
      * now apply Hstart.
Qed.

(** *** Bulk analysis *)

Lemma analyzeSingleWebsite_returns_url (url : json) :
  returns (fun data => get "url" data = Some url) (analyzeSingleWebsite (Some url)).
Proof.
  unfold analyzeSingleWebsite.
  repeat (apply returns_bind; intros).
  apply returns_ret. reflexivity.
Qed.

Lemma analyzeSingleWebsite_silent (url : option json) :
  keeps (unseen is_response) (analyzeSingleWebsite url).
Proof.
  unfold analyzeSingleWebsite, extractWebsiteIntelligence, extractColors,
    extractFonts_index, sleep.
  frame_unseen.
Qed.

(** One turn of the loop never throws: it pushes one entry for its URL. *)
Lemma bulk_step_entry (url : json) (results : list json) (w : world) :
  exists e w',
    bulk_step url results w = (Ok (results ++ [e])%list, w')
    /\ entry_for url e
    /\ (isValidUrl (toString (Some url)) = false -> e = invalid_entry url)
    /\ unseen is_response w w'.
Proof.
  unfold bulk_step.
  destruct (isValidUrl (toString (Some url))) eqn:Hvalid; cbn [negb].
  - unfold try_catch, bind.
    pose proof (analyzeSingleWebsite_silent (Some url) w) as Hsilent.
    destruct (analyzeSingleWebsite (Some url) w) as [[data|e] w1] eqn:E; cbn [snd] in Hsilent.
    + exists (success_entry data), w1. repeat split; try assumption; try discriminate.
      right. right. exists data. split; [reflexivity|].
      now apply (analyzeSingleWebsite_returns_url url w data w1).
    + exists (failed_entry url), w1. repeat split; try assumption; try discriminate.
      right. now left.
  - exists (invalid_entry url), w. repeat split.
    now left.
Qed.

(** The loop pushes one entry for every URL, in order, and goes on after an
    invalid URL or a failed analysis. *)
Lemma bulk_loop_entries (urls results : list json) (w : world) :
  exists entries w',
    bulk_loop urls results w = (Ok (results ++ entries)%list, w')
    /\ Forall2 entry_for urls entries
    /\ unseen is_response w w'.
Proof.
  revert results w. induction urls as [|url urls IH]; intros results w; cbn [bulk_loop].
  - exists [], w. rewrite app_nil_r. repeat split. constructor.
  - destruct (bulk_step_entry url results w) as (e & w1 & Hstep & He & _ & Hu1).
    destruct (IH (results ++ [e])%list w1) as (entries & w2 & Hloop & Hentries & Hu2).
    exists (e :: entries), w2. unfold bind. rewrite Hstep, Hloop.
    rewrite <- app_assoc. repeat split.
    + now constructor.
    + eapply unseen_trans; eassumption.
Qed.

(** One turn of the loop by the outcome of its URL. *)
Lemma bulk_step_outcome (url : json) (results : list json) (w : world) :
  exists o e w',
    bulk_step url results w = (Ok (results ++ [e])%list, w')
    /\ outcomes_from w [url] [o] w'
    /\ entry_recorded url o e
    /\ entry_shape url o e.
Proof.
  unfold bulk_step.
  destruct (isValidUrl (toString (Some url))) eqn:Hvalid; cbn [negb].
  - unfold try_catch, bind.
    destruct (analyzeSingleWebsite (Some url) w) as [[data|e] w1] eqn:E.
    + exists (Analysed data), (success_entry data), w1.
      split; [reflexivity|]. split; [|split].
      * eapply outcomes_analysed; [assumption | eassumption | constructor].
      * split; reflexivity.
      * split; [|reflexivity]. repeat split. exists data. split; [reflexivity|].
        now apply (analyzeSingleWebsite_returns_url url w data w1).
    + exists Failed, (failed_entry url), w1.
      split; [reflexivity|]. split; [|split].
      * eapply outcomes_failed; [assumption | eassumption | constructor].
      * repeat split.
      * repeat split. now exists "Analysis failed".
  - exists Invalid, (invalid_entry url), w.
    split; [reflexivity|]. split; [|split].
    + apply outcomes_invalid; [assumption | constructor].
    + repeat split.
    + repeat split. now exists "Invalid URL".
Qed.

Lemma outcomes_from_cons (w w1 w' : world) (url : json) (o : item_outcome)
    (urls : list json) (os : list item_outcome) :
  outcomes_from w [url] [o] w1 -> outcomes_from w1 urls os w' ->
  outcomes_from w (url :: urls) (o :: os) w'.
Proof.
  intros H Hrest. inversion H; subst.
  - match goal with H' : outcomes_from _ [] [] _ |- _ => inversion H'; subst end.
    now apply outcomes_invalid.
  - match goal with H' : outcomes_from _ [] [] _ |- _ => inversion H'; subst end.
    eapply outcomes_failed; eassumption.
  - match goal with H' : outcomes_from _ [] [] _ |- _ => inversion H'; subst end.
    eapply outcomes_analysed; eassumption.
Qed.

(** The loop never throws: it records the outcome of every URL, in order,
    and goes on after an invalid URL or a failed analysis. *)
Lemma bulk_loop_outcomes (urls results : list json) (w : world) :
  exists os entries w',
    bulk_loop urls results w = (Ok (results ++ entries)%list, w')
    /\ outcomes_from w urls os w'
    /\ Forall3 (fun url o e => entry_recorded url o e /\ entry_shape url o e)
         urls os entries.
Proof.
  revert results w. induction urls as [|url urls IH]; intros results w; cbn [bulk_loop].
  - exists [], [], w. rewrite app_nil_r. repeat split; constructor.
  - destruct (bulk_step_outcome url results w) as (o & e & w1 & Hstep & Ho & Hrec & Hshape).
    destruct (IH (results ++ [e])%list w1) as (os & entries & w2 & Hloop & Hos & Hall).
    exists (o :: os), (e :: entries), w2. unfold bind. rewrite Hstep, Hloop.
    rewrite <- app_assoc. split; [reflexivity|]. split.
    + eapply outcomes_from_cons; eassumption.
    + constructor; [now split | assumption].
Qed.

Lemma Forall3_impl {A B C : Type} (R S : A -> B -> C -> Prop)
    (la : list A) (lb : list B) (lc : list C) :
  (forall a b c, R a b c -> S a b c) -> Forall3 R la lb lc -> Forall3 S la lb lc.
Proof. intros H HR. induction HR; constructor; auto. Qed.

Lemma Forall3_length {A B C : Type} (R : A -> B -> C -> Prop)
    (la : list A) (lb : list B) (lc : list C) :
  Forall3 R la lb lc -> List.length lb = List.length la /\ List.length lc = List.length la.
Proof. intros H. induction H; cbn [List.length]; [auto | lia]. Qed.

(** The entries marked [success] are those of the analysed URLs. *)
Lemma recorded_succeeded (urls : list json) (os : list item_outcome) (entries : list json) :
  Forall3 entry_recorded urls os entries ->
  List.length (filter succeeded entries) = List.length (filter is_analysed os).
Proof.
  intros H. induction H as [|url o e urls os entries He _ IH]; [reflexivity|].
  cbn [filter]. unfold succeeded at 1.
  destruct o as [| |data]; cbn [is_analysed entry_recorded] in *.
  - destruct He as (_ & -> & _). exact IH.
  - destruct He as (_ & -> & _). exact IH.
  - destruct He as (-> & _). cbn [truthy List.length]. now rewrite IH.
Qed.

(** With a non-empty [urls] array and a browser that launches, the handler
    sends one response: the summary of the results of the loop, which it
    runs on the launched world. *)
Lemma bulk_response (body : json) (urls : list json) (oracle : list bool) :
  get "urls" body = Some (JArr urls) ->
  urls <> [] ->
  launch_resolves oracle ->
  exists results w',
    bulk_loop urls [] (launched (start web uuid oracle)) = (Ok results, w')
    /\ responses (run (analyze_bulk body) (start web uuid oracle))
       = [Responded 200 (summary urls results)].
Proof.
  intros Hget Hne Hlaunch.
  unfold analyze_bulk. rewrite Hget.
  destruct urls as [|url urls]; [contradiction|].
  set (us := url :: urls) in *.
  assert (exists w1,
             (ensureDir "screenshots" ;; launch_browser) (start web uuid oracle) = (Ok tt, w1)
             /\ browser w1 = true /\ responses (trace w1) = []) as (w1 & Hw1 & Hb1 & Hr1).
  { unfold bind, ensureDir, log, launch_browser, bind, await, start. cbn.
    destruct oracle as [|[|] rest]; [| contradiction |]; cbn; eauto. }
  assert (launched (start web uuid oracle) = w1) as Hlaunched
    by (unfold launched; now rewrite Hw1).
  destruct (bulk_loop_entries us [] w1) as (results & w2 & Hloop & _ & Hu).
  exists results, w2. rewrite Hlaunched. split; [exact Hloop|].
  assert (keeps same_browser (bulk_loop us [])) as Hsame
    by (apply bulk_loop_quiet).
  specialize (Hsame w1). rewrite Hloop in Hsame. cbn [snd] in Hsame.
  unfold same_browser in Hsame. rewrite Hb1 in Hsame.
  unfold unseen in Hu. fold (responses (trace w2)) in Hu.
  fold (responses (trace w1)) in Hu. rewrite Hr1 in Hu.
  unfold run, try_catch_finally, try_catch.
  unfold bind in Hw1 |- *. cbn [ensureDir log] in Hw1 |- *.
  destruct (launch_browser _) as [[[]|e] w1'] eqn:El; [|discriminate].
  injection Hw1 as ->. rewrite Hloop.
  unfold respond, log, close_if_launched. cbn [browser]. rewrite Hsame.
  unfold await. cbn [Server.oracle trace].
  destruct (Server.oracle w2) as [|[|] rest]; cbn [snd trace];
    unfold responses; rewrite !filter_app; fold (responses (trace w2));
    rewrite Hu; reflexivity.
Qed.

(** The response of a batch with the outcome of every URL. *)
Lemma bulk_response_outcomes (body : json) (urls : list json) (oracle : list bool) :
  get "urls" body = Some (JArr urls) ->
  urls <> [] ->
  launch_resolves oracle ->
  exists outcomes results w',
    responses (run (analyze_bulk body) (start web uuid oracle))
    = [Responded 200 (summary urls results)]
    /\ outcomes_from (launched (start web uuid oracle)) urls outcomes w'
    /\ Forall3 (fun url o e => entry_recorded url o e /\ entry_shape url o e)
         urls outcomes results.
Proof.
  intros Hget Hne Hlaunch.
  destruct (bulk_response body urls oracle Hget Hne Hlaunch) as (results & w' & Hloop & Hresp).
  destruct (bulk_loop_outcomes urls [] (launched (start web uuid oracle)))
    as (os & entries & w2 & Hloop2 & Hos & Hall).
  rewrite Hloop in Hloop2. cbn [app] in Hloop2. injection Hloop2 as -> ->.
  now exists os, entries, w2.
Qed.

(** When the launch rejects there is no summary: the handler answers 500. *)
Lemma bulk_launch_rejected (body : json) (urls : list json) (rest : list bool) :
  get "urls" body = Some (JArr urls) ->
  urls <> [] ->
  run (analyze_bulk body) (start web uuid (true :: rest))
  = [ EnsuredDir "screenshots"; Threw launch;
      Responded 500 (message "Bulk analysis failed") ].
Proof.
  intros Hget Hne. unfold analyze_bulk. rewrite Hget.
  destruct urls as [|url urls]; [contradiction|].
  reflexivity.
Qed.

Lemma filter_complement {A : Type} (p : A -> bool) (l : list A) :
  List.length l
  = List.length (filter p l) + List.length (filter (fun x => negb (p x)) l).
Proof.
  induction l as [|x l IH]; [reflexivity|].
  cbn [filter]. destruct (p x); cbn [negb List.length]; lia.
Qed.

(** C5.  For a non-empty [urls] array, once the browser has launched, the
    handler responds with a summary in which [total] is the number of URLs
    and [total = success + failed = length(results)].  Every URL has one
    entry in [results], in order: a URL that [isValidUrl] refuses and a URL
    whose analysis throws have an error entry ([url], [success: false] and
    the error text), and the URLs after them are still analysed; [success]
    counts the URLs that were analysed, [failed] the others. *)
Theorem bulk_counts_add_up (body : json) (urls : list json) (oracle : list bool) :
  get "urls" body = Some (JArr urls) ->
  urls <> [] ->
  launch_resolves oracle ->
  exists (outcomes : list item_outcome) (results : list json) (w' : world)
         (total success failed : nat),
    responses (run (analyze_bulk body) (start web uuid oracle))
    = [Responded 200 (summary urls results)]
    /\ get "total" (summary urls results) = Some (JNum (Z.of_nat total))
    /\ get "success" (summary urls results) = Some (JNum (Z.of_nat success))
    /\ get "failed" (summary urls results) = Some (JNum (Z.of_nat failed))
    /\ get "results" (summary urls results) = Some (JArr results)
    /\ total = List.length urls
    /\ total = success + failed
    /\ total = List.length results
    /\ outcomes_from (launched (start web uuid oracle)) urls outcomes w'
    /\ Forall3 entry_recorded urls outcomes results
    /\ success = List.length (filter is_analysed outcomes)
    /\ failed = List.length (filter (fun o => negb (is_analysed o)) outcomes).
Proof.
  intros Hget Hne Hlaunch.
  destruct (bulk_response_outcomes body urls oracle Hget Hne Hlaunch)
    as (outcomes & results & w' & Hresp & Hos & Hall).
  assert (Forall3 entry_recorded urls outcomes results) as Hrec.
  { eapply Forall3_impl; [|exact Hall]. now intros url o e [H _]. }
  destruct (Forall3_length _ _ _ _ Hrec) as [Hlen_os Hlen].
  pose proof (recorded_succeeded _ _ _ Hrec) as Hsucc.
  pose proof (filter_complement succeeded results) as Hres.
  pose proof (filter_complement is_analysed outcomes) as Hout.
  exists outcomes, results, w', (List.length urls),
    (List.length (filter succeeded results)),
    (List.length (filter (fun r => negb (succeeded r)) results)).
  repeat split; try assumption; try lia.
Qed.

(** C10.  The entries of [results] have two shapes, by what happened to
    the URL.  The entry of a URL that was invalid or whose analysis failed
    has the fields [url], [success] (false) and [error] (a string), and no
    others.  The entry of an analysed URL has the fields [success] (true)
    and [data] only: it has no [url] of its own, the URL is the [url] of
    [data]. *)
Theorem bulk_entries_asymmetric (body : json) (urls : list json) (oracle : list bool) :
  get "urls" body = Some (JArr urls) ->
  urls <> [] ->
  launch_resolves oracle ->
  exists (outcomes : list item_outcome) (results : list json) (w' : world),
    responses (run (analyze_bulk body) (start web uuid oracle))
    = [Responded 200 (summary urls results)]
    /\ get "results" (summary urls results) = Some (JArr results)
    /\ outcomes_from (launched (start web uuid oracle)) urls outcomes w'
    /\ Forall3 entry_shape urls outcomes results.
Proof.
  intros Hget Hne Hlaunch.
  destruct (bulk_response_outcomes body urls oracle Hget Hne Hlaunch)
    as (outcomes & results & w' & Hresp & Hos & Hall).
  exists outcomes, results, w'. repeat split; try assumption.
  eapply Forall3_impl; [|exact Hall]. now intros url o e [_ H].
Qed.

End Requests.

(** ** The handlers on a concrete site *)

(** A request with a malformed URL: the hypothesis of C7 holds and the
    handler only responds. *)
Lemma analyze_invalid_url_no_browser_witness :
  run (analyze_index (JObj [("url", JStr "not a url")])) (start example_web example_uuid [])
  = [Responded 400 (message "Invalid URL")].
Proof.
  apply (analyze_invalid_url_no_browser example_web example_uuid []
           (JObj [("url", JStr "not a url")])).
  right. exists "not a url". split; reflexivity.
Defined.

(** [src/index.js], [extractColors], when the evaluation rejects: the
    rejection is the result, no empty list is returned. *)
Lemma extractColors_index_propagates :
  fst (extractColors "https://example.com" (start example_web example_uuid [true]))
  = Throw "Error"
  /\ ~ (exists colors,
           fst (extractColors "https://example.com" (start example_web example_uuid [true]))
           = Ok colors).
Proof.
  split; [reflexivity|]. intros [colors H]. discriminate.
Qed.

(** The same failure inside the handler of [src/index.js]: the request is
    answered 500, and the browser is closed. *)
Example analyze_index_extractor_failure :
  run (analyze_index example_request)
    (start example_web example_uuid [false; false; false; false; false; false; true])
  = [ EnsuredDir "screenshots"; Did launch; Did newPage; Did (setViewport 1440 900);
      Did (goto "https://example.com" 60000); Slept 3000; Did page_title; Did evaluate;
      Threw evaluate; Responded 500 (message "Website analysis failed");
      Did browser_close ].
Proof. vm_compute. reflexivity. Qed.

(** [/submit] on a record that has both fields, the [url] empty: it is
    rejected all the same, so the 400 is not only for absent fields. *)
Lemma submit_rejects_present_empty_url :
  get "url" empty_url_submission <> None
  /\ get "websiteName" empty_url_submission <> None
  /\ rejected (run (submit empty_url_submission) (start example_web example_uuid []))
  /\ ~ (rejected (run (submit empty_url_submission) (start example_web example_uuid []))
        <-> get "url" empty_url_submission = None
            \/ get "websiteName" empty_url_submission = None).
Proof.
  split; [discriminate|]. split; [discriminate|]. split; [reflexivity|].
  intros [H _]. destruct (H eq_refl) as [H' | H']; discriminate.
Qed.

(** A navigation that times out after the launch: the hypotheses of C9
    hold, and the browser is closed last. *)
Lemma browser_closed_on_every_path_witness :
  In (Did launch)
    (run (analyze_index example_request)
       (start example_web example_uuid [false; false; false; true]))
  /\ closes_browser_last
       (run (analyze_index example_request)
          (start example_web example_uuid [false; false; false; true])).
Proof.
  assert (In (Did launch)
            (run (analyze_index example_request)
               (start example_web example_uuid [false; false; false; true]))) as H.
  { vm_compute. right. left. reflexivity. }
  split; [exact H|].
  apply (browser_closed_on_every_path example_web example_uuid analyze_index).
  - left. reflexivity.
  - exact H.
Defined.

(** A batch of an invalid URL, a URL whose analysis fails and a URL that
    is analysed: the hypotheses of C5 hold. *)
Lemma bulk_counts_add_up_witness :
  exists (outcomes : list item_outcome) (results : list json) (w' : world)
         (total success failed : nat),
    responses (run (analyze_bulk example_mixed_bulk)
                 (start example_web example_uuid example_mixed_oracle))
    = [Responded 200 (summary example_batch results)]
    /\ get "total" (summary example_batch results) = Some (JNum (Z.of_nat total))
    /\ get "success" (summary example_batch results) = Some (JNum (Z.of_nat success))
    /\ get "failed" (summary example_batch results) = Some (JNum (Z.of_nat failed))
    /\ get "results" (summary example_batch results) = Some (JArr results)
    /\ total = 3
    /\ total = success + failed
    /\ total = List.length results
    /\ outcomes_from (launched (start example_web example_uuid example_mixed_oracle))
         example_batch outcomes w'
    /\ Forall3 entry_recorded example_batch outcomes results
    /\ success = List.length (filter is_analysed outcomes)
    /\ failed = List.length (filter (fun o => negb (is_analysed o)) outcomes).
Proof.
  apply (bulk_counts_add_up example_web example_uuid example_mixed_bulk
           example_batch example_mixed_oracle).
  - reflexivity.
  - discriminate.
  - exact I.
Defined.

(** The same batch, for the hypotheses of C10. *)
Lemma bulk_entries_asymmetric_witness :
  exists (outcomes : list item_outcome) (results : list json) (w' : world),
    responses (run (analyze_bulk example_mixed_bulk)
                 (start example_web example_uuid example_mixed_oracle))
    = [Responded 200 (summary example_batch results)]
    /\ get "results" (summary example_batch results) = Some (JArr results)
    /\ outcomes_from (launched (start example_web example_uuid example_mixed_oracle))
         example_batch outcomes w'
    /\ Forall3 entry_shape example_batch outcomes results.
Proof.
  apply (bulk_entries_asymmetric example_web example_uuid example_mixed_bulk
           example_batch example_mixed_oracle).
  - reflexivity.
  - discriminate.
  - exact I.
Defined.

(** That batch as the handler answers it: the invalid URL and the failed
    analysis have their error entries, and the third URL is analysed. *)
Example bulk_three_outcomes :
  exists data,
    responses (run (analyze_bulk example_mixed_bulk)
                 (start example_web example_uuid example_mixed_oracle))
    = [ Responded 200
          (JObj [ ("total", JNum 3); ("success", JNum 1); ("failed", JNum 2);
                  ("results",
                   JArr [ JObj [ ("url", JStr "not a url"); ("success", JBool false);
                                 ("error", JStr "Invalid URL") ];
                          JObj [ ("url", JStr "https://example.com");
                                 ("success", JBool false);
                                 ("error", JStr "Analysis failed") ];
                          JObj [ ("success", JBool true); ("data", data) ] ]) ]) ]
    /\ get "url" data = Some (JStr "https://example.org").
Proof. eexists. split; vm_compute; reflexivity. Qed.

(** The batch as the handler answers it. *)
Example bulk_mixed_batch :
  responses (run (analyze_bulk example_bulk) (start example_web example_uuid []))
  = [ Responded 200
        (JObj [ ("total", JNum 2); ("success", JNum 1); ("failed", JNum 1);
                ("results",
                 JArr [ invalid_entry (JStr "not a url");
                        success_entry
                          (JObj [ ("url", JStr "https://example.com");
                                  ("websiteName", JStr "Example Shop");
                                  ("websiteType", JStr "Education");
                                  ("categories",
                                   strings ["Education"; "E-commerce"; "Technology"]);
                                  ("tags",
                                   strings ["tech"; "software"; "platform"; "api";
                                            "developer"; "education"; "learning";
                                            "courses"; "training"; "shopping"; "store";
                                            "products"]);
                                  ("relatedPhrases",
                                   strings ["websites similar to education platforms";
                                            "websites similar to e-commerce platforms";
                                            "websites similar to technology platforms"]);
                                  ("colors", strings ["#ff5733"; "#00000000"]);
                                  ("fonts", strings ["arial"]);
                                  ("desktopScreenshot", JStr "desktop-id-0.webp");
                                  ("mobileScreenshot", JStr "mobile-id-0.webp") ]) ]) ]) ].
Proof. vm_compute. reflexivity. Qed.

(** ** The extracted lists *)

Lemma set_add_NoDup (x : string) (set : list string) :
  NoDup set -> NoDup (set_add x set).
Proof.
  intros H. unfold set_add.
  destruct (existsb (String.eqb x) set) eqn:E; [assumption|].
  apply NoDup_app; [assumption | repeat constructor; auto | ].
  intros y Hy [Heq | []]. subst y.
  assert (existsb (String.eqb x) set = true) as E'.
  { apply existsb_exists. exists x. split; [assumption | apply String.eqb_refl]. }
  congruence.
Qed.

Lemma fold_set_step {A : Type} (step : list string -> A -> list string) (l : list A)
    (set : list string) :
  set_step step -> NoDup set -> NoDup (fold_left step l set).
Proof.
  intros Hstep. revert set. induction l as [|a l IH]; intros set H; cbn [fold_left].
  - assumption.
  - apply IH. now apply Hstep.
Qed.

Lemma In_slice {A : Type} (n : nat) (l : list A) (x : A) : In x (slice n l) -> In x l.
Proof.
  unfold slice. revert n. induction l as [|y l IH]; intros n H.
  - rewrite firstn_nil in H. contradiction.
  - destruct n as [|n]; cbn [firstn] in H; [contradiction|].
    destruct H as [-> | H]; [now left | right; eapply IH; eassumption].
Qed.

Lemma slice_NoDup {A : Type} (n : nat) (l : list A) : NoDup l -> NoDup (slice n l).
Proof.
  unfold slice. revert n. induction l as [|x l IH]; intros n H.
  - now rewrite firstn_nil.
  - destruct n as [|n]; cbn [firstn]; [constructor|].
    inversion H as [|? ? Hx Hl]; subst. constructor.
    + intros Hin. apply Hx. eapply In_slice; eassumption.
    + now apply IH.
Qed.

Lemma slice_length {A : Type} (n : nat) (l : list A) : List.length (slice n l) <= n.
Proof. unfold slice. apply firstn_le_length. Qed.

(** What a loop step adds to the set comes from the element it reads. *)
Lemma fold_adds_only {A : Type} (step : list string -> A -> list string)
    (Q : A -> string -> Prop) (l : list A) (set : list string) (x : string) :
  adds_only step Q ->
  In x (fold_left step l set) -> In x set \/ exists a, In a l /\ Q a x.
Proof.
  intros Hstep. revert set. induction l as [|a l IH]; intros set H; cbn [fold_left] in H.
  - now left.
  - apply IH in H. destruct H as [H | (b & Hb & Hq)].
    + apply Hstep in H. destruct H as [H | H]; [now left|].
      right. exists a. split; [now left | assumption].
    + right. exists b. split; [now right | assumption].
Qed.

Lemma lower_ascii_idempotent (c : ascii) : lower_ascii (lower_ascii c) = lower_ascii c.
Proof. destruct c as [[] [] [] [] [] [] [] []]; reflexivity. Qed.



Lemma toLowerCase_idempotent (s : string) : toLowerCase (toLowerCase s) = toLowerCase s.
Proof.
  induction s as [|c s IH]; cbn [toLowerCase]; [reflexivity|].
  now rewrite lower_ascii_idempotent, IH.
Qed.

Lemma toLowerCase_length (s : string) : String.length (toLowerCase s) = String.length s.
Proof. induction s as [|c s IH]; cbn; [reflexivity | now rewrite IH]. Qed.









Lemma trim_start_all (p : ascii -> bool) (s : string) :
  all_chars p s = true -> all_chars p (trim_start s) = true.
Proof.
  induction s as [|c s IH]; cbn [trim_start]; [auto|].
  intros H. destruct (is_space c); [|assumption].
  cbn [all_chars] in H. apply andb_prop in H. now apply IH.
Qed.

Lemma trim_end_all (p : ascii -> bool) (s : string) :
  all_chars p s = true -> all_chars p (trim_end s) = true.
Proof.
  induction s as [|c s IH]; cbn [trim_end]; [auto|].
  intros H. cbn [all_chars] in H. apply andb_prop in H. destruct H as [Hc Hs].
  specialize (IH Hs).
  destruct (trim_end s); [destruct (is_space c)|]; cbn [all_chars] in *;
    rewrite ?Hc, ?IH; reflexivity.
Qed.






Lemma fold_invariant {A B : Type} (I : A -> Prop) (step : A -> B -> A) (l : list B) (a : A) :
  (forall a b, I a -> I (step a b)) -> I a -> I (fold_left step l a).
Proof.
  intros Hstep. revert a. induction l as [|b l IH]; intros a H; cbn [fold_left]; auto.
Qed.

Lemma set_add_step_set {A : Type} (g : A -> string) :
  set_step (fun set a => set_add (g a) set).
Proof. intros set a H. now apply set_add_NoDup. Qed.

Lemma set_add_step_adds {A : Type} (g : A -> string) :
  adds_only (fun set a => set_add (g a) set) (fun a x => x = g a).
Proof. intros set a x H. apply set_add_in in H. tauto. Qed.


Lemma keywords_step_adds (d : document) :
  adds_only (fun tags content =>
               fold_left (fun tags t => set_add (trim t) tags)
                 (split_comma content EmptyString) tags)
    (fun content t => exists piece,
         In piece (split_comma content EmptyString) /\ t = trim piece).
Proof.
  intros set a x H.
  apply (fold_adds_only _ _ _ _ _ (set_add_step_adds _)) in H.
  destruct H as [H | (piece & Hp & ->)]; [now left|].
  right. now exists piece.
Qed.

Lemma headings_step_adds (limit : nat) :
  adds_only (fun tags h =>
               if (String.length h <? limit)%nat then set_add (toLowerCase h) tags else tags)
    (fun h t => String.length h < limit /\ t = toLowerCase h).
Proof.
  intros set h x H.
  destruct (Nat.ltb_spec (String.length h) limit) as [Hlt | Hge]; [|now left].
  apply set_add_in in H. destruct H as [-> | H]; [right; auto | now left].
Qed.

(** X3.  The lists the extractors build through a [Set] never hold a
    value twice and respect their cap: ten fonts and twelve tags in
    [src/unnamed/part_000], eight fonts and ten tags in
    [src/unnamed/part_001], at most three font types, and the website tags
    of [src/index.js] (which have no cap). *)
Theorem extracted_lists_distinct_and_capped
    (els : list style) (d : document) (fonts : list string) (RULES : list rule) (text : string) :
  (NoDup (extractFonts_inpage_part000 els) /\ List.length (extractFonts_inpage_part000 els) <= 10)
  /\ (NoDup (extractFonts_inpage_part001 els)
      /\ List.length (extractFonts_inpage_part001 els) <= 8)
  /\ (NoDup (extractTags_inpage_part000 d) /\ List.length (extractTags_inpage_part000 d) <= 12)
  /\ (NoDup (extractTags_inpage_part001 d) /\ List.length (extractTags_inpage_part001 d) <= 10)
  /\ (NoDup (classifyFontTypes fonts) /\ List.length (classifyFontTypes fonts) <= 3)
  /\ NoDup (websiteTags (intelligence_of RULES text)).
Proof.
  assert (forall limit, set_step (fun tags h =>
            if (String.length h <? limit)%nat then set_add (toLowerCase h) tags else tags))
    as Hheadings.
  { intros limit set h H. destruct (_ <? _)%nat; [now apply set_add_NoDup | assumption]. }
  split; [|split; [|split; [|split; [|split]]]].
  - split; [|apply slice_length].
    apply slice_NoDup, fold_set_step; [|constructor].
    intros set a H. destruct (truthy_string _); [|assumption].
    apply fold_set_step; [apply set_add_step_set | assumption].
  - split; [|apply slice_length].
    apply slice_NoDup, fold_set_step; [|constructor].
    intros set a H. apply fold_set_step; [apply set_add_step_set | assumption].
  - split; [|apply slice_length].
    apply slice_NoDup, fold_set_step; [apply Hheadings|].
    apply fold_set_step; [|constructor].
    intros set a H. apply fold_set_step; [apply set_add_step_set | assumption].
  - split; [|apply slice_length].
    apply slice_NoDup, fold_set_step; [apply Hheadings | constructor].
  - assert (NoDup (classifyFontTypes fonts)) as Hnd.
    { unfold classifyFontTypes. apply fold_set_step; [apply set_add_step_set | constructor]. }
    split; [assumption|].
    change 3 with (List.length font_types).
    apply NoDup_incl_length; [assumption|].
    intros t Ht. apply classifyFontTypes_in in Ht. destruct Ht as (f & _ & <-).
    unfold classifyFont, font_types.
    destruct (includes "mono" (toLowerCase f)); [simpl; auto|].
    destruct (includes "serif" (toLowerCase f) && negb (includes "sans" (toLowerCase f)));
      simpl; auto.
  - unfold intelligence_of.
    assert (NoDup (snd (score_rules RULES text))) as H.
    { unfold score_rules.
      apply (fold_invariant (fun acc => NoDup (snd acc))); [|constructor].
      intros [cs ts] r H. cbn [snd] in H.
      destruct (0 <? score_loop text (keywords r))%nat; cbn [snd]; [|assumption].
      apply fold_set_step; [|assumption].
      intros set t H'. now apply set_add_NoDup. }
    destruct (score_rules RULES text) as [cs ts]. exact H.
Qed.

Lemma lower_ascii_is_ascii (c : ascii) :
  (nat_of_ascii c <? 128)%nat = true -> (nat_of_ascii (lower_ascii c) <? 128)%nat = true.
Proof.
  unfold lower_ascii. intros H.
  destruct ((65 <=? nat_of_ascii c) && (nat_of_ascii c <=? 90))%nat eqn:E; [|assumption].
  apply andb_prop in E. destruct E as [_ E]. apply Nat.leb_le in E.
  rewrite nat_ascii_embedding by lia. apply Nat.ltb_lt. lia.
Qed.

Lemma toLowerCase_is_ascii (s : string) : is_ascii s = true -> is_ascii (toLowerCase s) = true.
Proof.
  unfold is_ascii. induction s as [|c s IH]; cbn [toLowerCase all_chars]; [auto|].
  intros H. apply andb_prop in H. destruct H as [Hc Hs].
  now rewrite (lower_ascii_is_ascii c Hc), IH.
Qed.

Lemma split_comma_all (p : ascii -> bool) (s cur piece : string) :
  all_chars p s = true -> all_chars p cur = true ->
  In piece (split_comma s cur) -> all_chars p piece = true.
Proof.
  revert cur. induction s as [|c s IH]; intros cur Hs Hcur Hin; cbn [split_comma] in Hin.
  - destruct Hin as [<- | []]. assumption.
  - cbn [all_chars] in Hs. apply andb_prop in Hs. destruct Hs as [Hc Hs].
    destruct (Ascii.eqb c ","%char).
    + destruct Hin as [<- | Hin]; [assumption|]. now apply (IH EmptyString).
    + apply (IH (cur ++ String c EmptyString)); try assumption.
      rewrite all_chars_append, Hcur. cbn [all_chars]. now rewrite Hc.
Qed.

(** X4.  Where a tag comes from, on a page whose headings and keyword
    lists are ASCII text.  In [src/unnamed/part_000] it is a trimmed item of
    a [meta keywords] list of the page or the lowercased text of a heading
    shorter than 60; in [src/unnamed/part_001] it is the lowercased text of
    a heading shorter than 50, so it is lowercase and shorter than 50
    itself.  The tag is ASCII text too. *)
Theorem extractTags_provenance (d : document) (t : string) :
  ascii_tag_sources d ->
  (In t (extractTags_inpage_part000 d) ->
   (keyword_of d t \/ heading_of 60 d t) /\ is_ascii t = true)
  /\ (In t (extractTags_inpage_part001 d) ->
      heading_of 50 d t /\ String.length t < 50 /\ toLowerCase t = t
      /\ is_ascii t = true).
Proof.
  intros [Hheadings Hkeywords].
  rewrite Forall_forall in Hheadings, Hkeywords.
  split.
  - intros H. unfold extractTags_inpage_part000 in H. apply In_slice in H.
    apply (fold_adds_only _ _ _ _ _ (headings_step_adds 60)) in H.
    destruct H as [H | (h & Hh & Hlen & ->)].
    + apply (fold_adds_only _ _ _ _ _ (keywords_step_adds d)) in H.
      destruct H as [[] | (content & Hc & piece & Hp & ->)].
      split; [left; now exists content, piece|].
      unfold is_ascii, trim. apply trim_end_all, trim_start_all.
      apply (split_comma_all _ content EmptyString); [|reflexivity|assumption].
      now apply Hkeywords.
    + split; [right; now exists h|]. now apply toLowerCase_is_ascii, Hheadings.
  - intros H. unfold extractTags_inpage_part001 in H. apply In_slice in H.
    apply (fold_adds_only _ _ _ _ _ (headings_step_adds 50)) in H.
    destruct H as [[] | (h & Hh & Hlen & ->)].
    split; [now exists h|]. split; [|split].
    + now rewrite toLowerCase_length.
    + apply toLowerCase_idempotent.
    + now apply toLowerCase_is_ascii, Hheadings.
Qed.


Lemma color_step_set keep : set_step (color_step keep).
Proof.
  intros set s H. unfold color_step.
  destruct (keep (color s)), (keep (backgroundColor s)); auto using set_add_NoDup.
Qed.

Lemma color_step_adds keep :
  adds_only (color_step keep)
    (fun s c => keep c = true /\ (c = color s \/ c = backgroundColor s)).
Proof.
  intros set s c H. unfold color_step in H.
  destruct (keep (color s)) eqn:E1, (keep (backgroundColor s)) eqn:E2;
    repeat (apply set_add_in in H; destruct H as [-> | H]); auto.
Qed.

Lemma collected_from (keep : string -> bool) (els : list style) (c : string) :
  In c (fold_left (color_step keep) els []) -> keep c = true /\ color_of els c.
Proof.
  intros H. apply (fold_adds_only _ _ _ _ _ (color_step_adds keep)) in H.
  destruct H as [[] | (s & Hs & Hk & Hc)]. split; [assumption | now exists s].
Qed.

Lemma extractCSSColors_inpage_fold (els : list style) :
  extractCSSColors_inpage els
  = fold_left
      (color_step (fun c => truthy_string c && negb (String.eqb c transparent)
                            && startsWith "rgb" c))
      (slice 1200 els) [].
Proof. reflexivity. Qed.

Lemma filter_Boolean_in (l : list (option string)) (h : string) :
  In h (filter_Boolean l) <-> In (Some h) l.
Proof.
  unfold filter_Boolean. rewrite in_flat_map. split.
  - intros ([x|] & Hin & Hx); [|contradiction]. destruct Hx as [-> | []]. assumption.
  - intros H. exists (Some h). split; [assumption | now left].
Qed.

(** X6.  Every colour returned is the conversion of a colour captured on
    an element of the page, one that starts with [rgb]: of any element in
    [src/index.js] and [src/unnamed/part_001]; in [src/unnamed/part_000] of
    one of the first 1200 elements and never of the transparent
    [rgba(0, 0, 0, 0)], and there the captured colours are pairwise
    distinct. *)
Theorem colors_provenance (els : list style) (out : list string) (h : string) :
  (extractColors_index els = Ok out -> In h out ->
   exists c, color_of els c /\ startsWith "rgb" c = true /\ rgbToHexAll c = Ok h)
  /\ (extractColors_part001 els = Ok out -> In h out ->
      exists c, color_of els c /\ startsWith "rgb" c = true /\ rgbToHexAll c = Ok h)
  /\ (colors_part000 (extractCSSColors_inpage els) = Ok out -> In h out ->
      exists c, color_of (slice 1200 els) c /\ startsWith "rgb" c = true
                /\ c <> transparent /\ rgbToHex c = Ok (Some h))
  /\ NoDup (extractCSSColors_inpage els).
Proof.
  split; [|split; [|split]].
  - intros Hout Hh. apply map_result_forall in Hout. rewrite Forall_forall in Hout.
    destruct (Hout h Hh) as (c & Hc & Hconv). apply In_slice in Hc.
    apply (collected_from (startsWith "rgb")) in Hc. destruct Hc as [Hk Hc].
    now exists c.
  - intros Hout Hh. apply map_result_forall in Hout. rewrite Forall_forall in Hout.
    destruct (Hout h Hh) as (c & Hc & Hconv). apply In_slice in Hc.
    apply filter_In in Hc. destruct Hc as [Hc Hrgb].
    apply (collected_from truthy_string) in Hc. destruct Hc as [_ Hc].
    now exists c.
  - unfold colors_part000.
    destruct (map_result rgbToHex (extractCSSColors_inpage els)) as [hexes|e] eqn:E;
      [|discriminate].
    intros Hout Hh.
    assert (out = slice 30 (filter_Boolean hexes)) as -> by congruence.
    apply In_slice, filter_Boolean_in in Hh.
    apply map_result_forall in E. rewrite Forall_forall in E.
    destruct (E _ Hh) as (c & Hc & Hconv).
    rewrite extractCSSColors_inpage_fold in Hc.
    apply collected_from in Hc. destruct Hc as [Hk Hc].
    rewrite !andb_true_iff, negb_true_iff in Hk. destruct Hk as [[_ Hne] Hrgb].
    exists c. repeat split; try assumption.
    now apply String.eqb_neq.
  - rewrite extractCSSColors_inpage_fold.
    apply fold_set_step; [apply color_step_set | constructor].
Qed.

Lemma flush_nil (cur : string) : flush cur = [] <-> cur = "".
Proof. destruct cur; cbn; split; intros H; congruence. Qed.

Lemma digit_runs_nil (s cur : string) :
  digit_runs s cur = [] <-> cur = "" /\ no_digit s = true.
Proof.
  unfold no_digit. revert cur. induction s as [|c s IH]; intros cur; cbn [digit_runs all_chars].
  - rewrite flush_nil. tauto.
  - destruct (is_digit c); cbn [negb andb].
    + rewrite IH. split; [|intros [_ H]; discriminate].
      intros [H _]. destruct cur; discriminate.
    + split.
      * intros H. apply app_eq_nil in H. destruct H as [H1 H2].
        apply flush_nil in H1. apply IH in H2. tauto.
      * intros [-> H]. cbn [flush app]. apply IH. auto.
Qed.

Lemma map_result_throws {A B : Type} (f : A -> result B) (l : list A) :
  (exists e, map_result f l = Throw e) <-> exists x e, In x l /\ f x = Throw e.
Proof.
  induction l as [|x l IH]; cbn [map_result].
  - split; [intros [e H]; discriminate | intros (x & e & [] & _)].
  - destruct (f x) as [y|e] eqn:Ex.
    + destruct (map_result f l) as [ys|e'] eqn:El.
      * split; [intros [e H]; discriminate|].
        intros (z & e & [<- | Hz] & Hf); [congruence|].
        assert (exists e, @Throw (list B) e = Throw e) as H; [|destruct IH as [_ IH]].
        { now exists e. }
        destruct IH as [e0 He0]; [now exists z, e | discriminate].
      * split; [|intros _; now exists e'].
        intros _. destruct IH as [IH _]. destruct IH as (z & e & Hz & Hf); [now exists e'|].
        exists z, e. split; [now right | assumption].
    + split; [|intros _; now exists e].
      intros _. exists x, e. split; [now left | assumption].
Qed.

Lemma rgbToHexAll_throws (s : string) :
  (exists e, rgbToHexAll s = Throw e) <-> no_digit s = true.
Proof.
  unfold rgbToHexAll, match_digits.
  pose proof (digit_runs_nil s "") as Hnil.
  destruct (digit_runs s "") as [|r rs].
  - split; [intros _; now apply Hnil | intros _; now exists TypeError].
  - split; [intros [e H]; discriminate|].
    intros H. destruct Hnil as [_ Hnil]. discriminate Hnil. auto.
Qed.

Lemma rgbToHex_throws (s : string) :
  (exists e, rgbToHex s = Throw e) <-> runs s = 1 \/ runs s = 2.
Proof.
  unfold rgbToHex, match_digits, runs.
  destruct (digit_runs s "") as [|r [|g [|b more]]]; cbn [List.length].
  - split; [intros [e H]; discriminate | intros [H | H]; discriminate].
  - split; [auto | intros _; now exists TypeError].
  - split; [auto | intros _; now exists TypeError].
  - split; [intros [e H]; discriminate | intros [H | H]; discriminate].
Qed.

Lemma extractColors_index_throws (els : list style) :
  (exists e, extractColors_index els = Throw e)
  <-> exists c, In c (slice 25 (collect_index els)) /\ no_digit c = true.
Proof.
  unfold extractColors_index. rewrite map_result_throws. split.
  - intros (c & e & Hc & He). exists c. split; [assumption|].
    apply rgbToHexAll_throws. now exists e.
  - intros (c & Hc & Hd). apply rgbToHexAll_throws in Hd. destruct Hd as [e He].
    now exists c, e.
Qed.

Lemma colors_part000_throws (rawColors : list string) :
  (exists e, colors_part000 rawColors = Throw e)
  <-> exists c, In c rawColors /\ (runs c = 1 \/ runs c = 2).
Proof.
  unfold colors_part000.
  pose proof (map_result_throws rgbToHex rawColors) as Hm.
  destruct (map_result rgbToHex rawColors) as [hexes|e].
  - split; [intros [e H]; discriminate|].
    intros (c & Hc & Hr). apply rgbToHex_throws in Hr. destruct Hr as [e He].
    destruct Hm as [_ Hm]. destruct Hm as [e' He']; [now exists c, e | discriminate].
  - split; [|intros _; now exists e].
    intros _. destruct Hm as [Hm _]. destruct Hm as (c & e' & Hc & He'); [now exists e|].
    exists c. split; [assumption|]. apply rgbToHex_throws. now exists e'.
Qed.

(** X7.  When the conversion of the colours throws.  [rgbToHex] of
    [src/index.js] throws exactly on a string without a digit ([match]
    returns [null], and [null.map] throws); [rgbToHex] of
    [src/unnamed/part_000] returns [null] on such a string and throws
    exactly when it finds one or two digit runs (the destructuring leaves
    a channel [undefined], and [undefined.toString] throws).  So
    [extractColors] of [src/index.js] throws exactly when one of the first
    25 captured colours has no digit, the colours of [part_000] exactly
    when a captured colour has one or two digit runs; when [extractColors]
    returns, it returns one colour for each of the first 25 captured
    ones. *)
Theorem colors_conversion_failure (els : list style) (rgb : string) :
  ((exists e, rgbToHexAll rgb = Throw e) <-> no_digit rgb = true)
  /\ ((exists e, rgbToHex rgb = Throw e) <-> runs rgb = 1 \/ runs rgb = 2)
  /\ (rgbToHex rgb = Ok None <-> no_digit rgb = true)
  /\ ((exists e, extractColors_index els = Throw e)
      <-> exists c, In c (slice 25 (collect_index els)) /\ no_digit c = true)
  /\ ((exists e, colors_part000 (extractCSSColors_inpage els) = Throw e)
      <-> exists c, In c (extractCSSColors_inpage els) /\ (runs c = 1 \/ runs c = 2))
  /\ (forall out, extractColors_index els = Ok out ->
        List.length out = Nat.min 25 (List.length (collect_index els))).
Proof.
  split; [apply rgbToHexAll_throws|]. split; [apply rgbToHex_throws|].
  split; [|split; [|split]].
  - unfold rgbToHex, match_digits.
    pose proof (digit_runs_nil rgb "") as Hnil.
    destruct (digit_runs rgb "") as [|r [|g [|b more]]].
    + split; [intros _; now apply Hnil | reflexivity].
    + split; [discriminate | intros H; destruct Hnil as [_ Hnil]; discriminate Hnil; auto].
    + split; [discriminate | intros H; destruct Hnil as [_ Hnil]; discriminate Hnil; auto].
    + split; [discriminate | intros H; destruct Hnil as [_ Hnil]; discriminate Hnil; auto].
  - apply extractColors_index_throws.
  - apply colors_part000_throws.
  - intros out H. apply map_result_length in H. rewrite H.
    unfold slice. apply length_firstn.
Qed.

Lemma insert_by_perm (x : string * nat) (l : list (string * nat)) :
  Permutation (insert_by by_score_desc x l) (x :: l).
Proof.
  induction l as [|y l IH]; cbn [insert_by]; [reflexivity|].
  destruct (by_score_desc x y <=? 0)%Z; [reflexivity|].
  rewrite IH. apply perm_swap.
Qed.

Lemma sort_by_perm (l : list (string * nat)) : Permutation (sort_by by_score_desc l) l.
Proof.
  induction l as [|x l IH]; cbn [sort_by fold_right]; [reflexivity|].
  fold (sort_by by_score_desc l). rewrite insert_by_perm. now constructor.
Qed.

Lemma insert_by_sorted (x : string * nat) (l : list (string * nat)) :
  StronglySorted by_score l -> StronglySorted by_score (insert_by by_score_desc x l).
Proof.
  induction l as [|y l IH]; intros H; cbn [insert_by].
  - repeat constructor.
  - inversion H as [|? ? Hl Hy]; subst.
    unfold by_score_desc at 1.
    destruct (Z.leb_spec (Z.of_nat (snd y) - Z.of_nat (snd x)) 0) as [Hle | Hgt].
    + constructor; [assumption|]. constructor; [unfold by_score; lia|].
      eapply Forall_impl; [|exact Hy]. unfold by_score. intros z Hz. lia.
    + constructor; [now apply IH|].
      rewrite insert_by_perm. constructor; [unfold by_score; lia | assumption].
Qed.

Lemma sort_by_sorted (l : list (string * nat)) :
  StronglySorted by_score (sort_by by_score_desc l).
Proof.
  induction l as [|x l IH]; cbn [sort_by fold_right]; [constructor|].
  now apply insert_by_sorted.
Qed.

Lemma firstn_sorted {A : Type} (R : A -> A -> Prop) (n : nat) (l : list A) :
  StronglySorted R l -> StronglySorted R (firstn n l).
Proof.
  revert n. induction l as [|x l IH]; intros n H.
  - rewrite firstn_nil. constructor.
  - destruct n as [|n]; cbn [firstn]; [constructor|].
    inversion H as [|? ? Hl Hx]; subst. constructor; [now apply IH|].
    apply Forall_forall. intros y Hy. rewrite Forall_forall in Hx.
    apply Hx. eapply In_slice. exact Hy.
Qed.

Lemma websiteTags_from (RULES : list rule) (text : string)
    (categoryScores : list (string * nat)) (websiteTags : list string) (t : string) :
  In t (snd (fold_left
               (fun '(categoryScores, websiteTags) r =>
                  let score := score_loop text (keywords r) in
                  if (0 <? score)%nat
                  then ((categoryScores ++ [(label r, score)])%list,
                        fold_left (fun set t => set_add t set) (Category.tags r) websiteTags)
                  else (categoryScores, websiteTags))
               RULES (categoryScores, websiteTags)))
  <-> In t websiteTags \/ exists r, In r RULES /\ scores text r /\ In t (Category.tags r).
Proof.
  revert categoryScores websiteTags.
  induction RULES as [|r RULES IH]; intros cs ts; cbn [fold_left].
  - cbn [snd]. split; [auto | intros [H | (r & [] & _)]; assumption].
  - assert (forall set, In t (fold_left (fun set t => set_add t set) (Category.tags r) set)
                        <-> In t set \/ In t (Category.tags r)) as Hadd.
    { intros set. revert set. induction (Category.tags r) as [|u us IHu]; intros set;
        cbn [fold_left].
      - simpl. tauto.
      - rewrite IHu, set_add_in. simpl. intuition. }
    unfold scores.
    destruct (Nat.ltb_spec 0 (score_loop text (keywords r))) as [Hpos | Hzero];
      rewrite IH; [rewrite Hadd|]; split.
    + intros [[H | H] | (r' & Hr' & Hs & Ht)]; auto.
      * right. exists r. simpl. auto.
      * right. exists r'. simpl. auto.
    + intros [H | (r' & [<- | Hr'] & Hs & Ht)]; auto.
      right. now exists r'.
    + intros [H | (r' & Hr' & Hs & Ht)]; auto.
      right. exists r'. simpl. auto.
    + intros [H | (r' & [<- | Hr'] & Hs & Ht)]; auto; [lia|].
      right. now exists r'.
Qed.

(** X8.  The ranking of [extractWebsiteIntelligence]: the categories are
    the labels of at most six rules in an order of non-increasing score,
    each of a rule of the table with a positive score; they are all the
    scoring rules when there are at most six of them; there is one related
    phrase for each category, in the same order; and the website tags are
    exactly the tags of the rules that score. *)
Theorem intelligence_ranking (RULES : list rule) (text : string) :
  exists ranked : list (string * nat),
    categories (intelligence_of RULES text) = map fst ranked
    /\ List.length (categories (intelligence_of RULES text)) <= 6
    /\ StronglySorted by_score ranked
    /\ (forall lbl m, In (lbl, m) ranked ->
          0 < m /\ exists r, In r RULES /\ label r = lbl /\ score_loop text (keywords r) = m)
    /\ (List.length (filter positive (scored_rules RULES text)) <= 6 ->
        Permutation ranked (filter positive (scored_rules RULES text)))
    /\ relatedPhrases (intelligence_of RULES text)
       = map (fun c => "websites similar to " ++ toLowerCase c ++ " platforms")
           (categories (intelligence_of RULES text))
    /\ (forall t, In t (websiteTags (intelligence_of RULES text))
                  <-> exists r, In r RULES /\ scores text r /\ In t (Category.tags r)).
Proof.
  cbv zeta. unfold intelligence_of.
  pose proof (score_rules_positive RULES text) as Hcs.
  assert (forall t, In t (snd (score_rules RULES text))
                    <-> exists r, In r RULES /\ scores text r /\ In t (Category.tags r)) as Hts.
  { intros t. unfold score_rules. rewrite websiteTags_from. simpl. tauto. }
  destruct (score_rules RULES text) as [categoryScores tags]. cbn [fst snd] in *.
  subst categoryScores.
  cbn [categories relatedPhrases websiteTags].
  set (scoring := filter positive (scored_rules RULES text)) in *.
  exists (slice 6 (sort_by by_score_desc scoring)).
  split; [reflexivity|]. split; [rewrite length_map; apply slice_length|].
  split; [apply firstn_sorted, sort_by_sorted|].
  split; [|split; [|split; [reflexivity | exact Hts]]].
  - intros lbl m Hin. apply In_slice in Hin.
    apply (Permutation_in _ (sort_by_perm scoring)) in Hin.
    unfold scoring in Hin. apply filter_In in Hin. destruct Hin as [Hin Hpos].
    unfold positive in Hpos. cbn [snd] in Hpos. apply Nat.ltb_lt in Hpos.
    split; [assumption|].
    unfold scored_rules in Hin. apply in_map_iff in Hin.
    destruct Hin as (r & [= <- <-] & Hr). now exists r.
  - intros Hlen. unfold slice. rewrite firstn_all2; [apply sort_by_perm|].
    now rewrite (Permutation_length (sort_by_perm scoring)).
Qed.

(** ** One response, validated navigation, pages *)

Lemma ends_with_bind view Q {A B : Type} (m : M A) (k : A -> M B) :
  keeps (unseen view) m -> (forall a, ends_with view Q (k a)) -> ends_with view Q (bind m k).
Proof.
  intros Hm Hk w. unfold bind. specialize (Hm w). unfold unseen in Hm.
  destruct (m w) as [[a|e] w1]; cbn [snd] in Hm.
  - specialize (Hk a w1). destruct (k a w1) as [[b|e] w2].
    + destruct Hk as (e & He & Hk). exists e. split; [assumption|]. now rewrite Hk, Hm.
    + now rewrite Hk, Hm.
  - assumption.
Qed.

Lemma ends_with_respond (Q : event -> Prop) (status : nat) (body : json) :
  Q (Responded status body) -> ends_with is_response Q (respond status body).
Proof.
  intros H w. unfold respond, log. cbn [trace].
  exists (Responded status body). split; [assumption|].
  now rewrite filter_app.
Qed.

Lemma keeps_try_catch_finally (R : world -> world -> Prop)
    (R_trans : forall a b c, R a b -> R b c -> R a c) {A : Type}
    (body : M A) (handler : string -> M A) (finalizer : M unit) :
  keeps R body -> (forall e, keeps R (handler e)) -> keeps R finalizer ->
  keeps R (try_catch_finally body handler finalizer).
Proof.
  intros Hb Hh Hf w. unfold try_catch_finally.
  pose proof (keeps_try_catch R R_trans body handler Hb Hh w) as H1.
  destruct (try_catch body handler w) as [r w1]. cbn [snd] in H1.
  specialize (Hf w1). destruct (finalizer w1) as [[[]|e] w2]; cbn [snd] in *;
    eapply R_trans; eassumption.
Qed.

(** The [try]/[catch]/[finally] of the handlers sends exactly one response:
    that of the body when the body returns, the 500 when it throws. *)
Lemma guarded_response (Q : event -> Prop) (body : M unit) (failure : json) (w : world) :
  ends_with is_response Q body ->
  exists e,
    (Q e \/ e = Responded 500 failure)
    /\ responses (trace (snd (try_catch_finally body (fun _ => respond 500 failure)
                               close_if_launched w)))
       = (responses (trace w) ++ [e])%list.
Proof.
  intros Hbody. unfold try_catch_finally, try_catch. specialize (Hbody w).
  assert (forall w1, responses (trace (snd (let (r0, w'') := close_if_launched w1 in
                                            match r0 with
                                            | Ok _ => (@Ok unit tt, w'')
                                            | Throw e => (Throw e, w'')
                                            end)))
                     = responses (trace w1)) as Hclose.
  { intros w1. pose proof (unseen_close_if_launched is_response eq_refl eq_refl w1) as H.
    destruct (close_if_launched w1) as [[[]|e] w2]; exact H. }
  destruct (body w) as [[[]|e] w1].
  - destruct Hbody as (e & He & Hbody). exists e. split; [now left|].
    rewrite Hclose. exact Hbody.
  - exists (Responded 500 failure). split; [now right|].
    pose proof (Hclose (snd (respond 500 failure w1))) as H.
    unfold respond, log in *. cbn [snd trace fst] in *.
    destruct (close_if_launched _) as [[[]|e'] w2]; cbn [snd] in *; rewrite H;
      unfold responses; rewrite filter_app; fold (responses (trace w1));
      unfold responses; rewrite Hbody; reflexivity.
Qed.

Ltac ends_ok :=
  repeat (apply ends_with_bind; [solve [frame_unseen] | intros]);
  apply ends_with_respond; eexists; reflexivity.

Lemma bulk_loop_silent (urls results : list json) :
  keeps (unseen is_response) (bulk_loop urls results).
Proof.
  intros w. destruct (bulk_loop_entries urls results w) as (entries & w' & H & _ & Hu).
  now rewrite H.
Qed.

Lemma only_refl P w : only P w w.
Proof. unfold only. auto. Qed.

Lemma only_trans P a b c : only P a b -> only P b c -> only P a c.
Proof. unfold only. auto. Qed.

Lemma only_await P o : P (Did o) -> P (Threw o) -> keeps (only P) (await o).
Proof.
  intros Hd Ht w H. unfold await.
  destruct (oracle w) as [|[|] rest]; cbn [snd trace]; apply Forall_app; auto.
Qed.

Lemma only_log P e : P e -> keeps (only P) (log e).
Proof. intros He w H. unfold log. cbn [snd trace]. apply Forall_app; auto. Qed.

Lemma only_randomUUID P : keeps (only P) randomUUID.
Proof. intros w H. exact H. Qed.

Lemma only_launch_browser P : P (Did launch) -> P (Threw launch) -> keeps (only P) launch_browser.
Proof.
  intros Hd Ht w. pose proof (only_await P launch Hd Ht w) as H.
  unfold launch_browser, bind. destruct (await launch w) as [[[]|e] w']; exact H.
Qed.

Lemma only_close_if_launched P :
  P (Did browser_close) -> P (Threw browser_close) -> keeps (only P) close_if_launched.
Proof.
  intros Hd Ht w. unfold close_if_launched.
  destruct (browser w); [now apply only_await | apply only_refl].
Qed.

Ltac frame_only :=
  repeat first
    [ apply keeps_ret; apply only_refl
    | apply keeps_lift; apply only_refl
    | apply keeps_bind; [apply only_trans | | intros]
    | apply keeps_try_catch; [apply only_trans | | intros]
    | apply keeps_try_catch_finally; [apply only_trans | | intros | ]
    | apply keeps_page_evaluate
    | apply keeps_title_of
    | apply only_await; cbn; solve [auto]
    | apply only_log; cbn; solve [auto]
    | apply only_launch_browser; exact I
    | apply only_close_if_launched; exact I
    | apply only_randomUUID ].

Lemma analyzeSingleWebsite_navigates (targets : list string) (url : option json) :
  In (toString url) targets -> isValidUrl (toString url) = true ->
  keeps (only (navigates_within targets)) (analyzeSingleWebsite url).
Proof.
  intros Hin Hvalid.
  unfold analyzeSingleWebsite, extractWebsiteIntelligence, extractColors,
    extractFonts_index, sleep.
  frame_only.
Qed.

Lemma bulk_loop_navigates (targets : list string) (urls results : list json) :
  incl (requested urls) targets ->
  keeps (only (navigates_within targets)) (bulk_loop urls results).
Proof.
  revert results. induction urls as [|url urls IH]; intros results Hincl; cbn [bulk_loop].
  - frame_only.
  - apply keeps_bind; [apply only_trans | | intros; apply IH].
    + unfold bulk_step.
      destruct (isValidUrl (toString (Some url))) eqn:Hvalid; cbn [negb]; [|frame_only].
      apply keeps_try_catch; [apply only_trans | | intros; frame_only].
      apply keeps_bind; [apply only_trans | | intros; frame_only].
      apply analyzeSingleWebsite_navigates; [|assumption].
      apply Hincl. now left.
    + intros x Hx. apply Hincl. now right.
Qed.

Lemma count_events_app view (a b : list event) :
  count_events view (a ++ b)%list = count_events view a + count_events view b.
Proof. unfold count_events. now rewrite filter_app, length_app. Qed.

Lemma count_unseen view (w w' : world) :
  unseen view w w' -> count_events view (trace w') = count_events view (trace w).
Proof. unfold unseen, count_events. now intros ->. Qed.

(** An analysis calls [newPage] once, whatever happens next. *)
Lemma analyzeSingleWebsite_one_page (url : option json) (w : world) :
  count_events is_newPage_call (trace (snd (analyzeSingleWebsite url w)))
  = count_events is_newPage_call (trace w) + 1.
Proof.
  unfold analyzeSingleWebsite. unfold bind at 1. cbn [randomUUID].
  set (w0 := mkWorld _ _ _ _ _ _).
  change (trace w) with (trace w0). clearbody w0.
  unfold bind at 1.
  assert (count_events is_newPage_call (trace (snd (await newPage w0)))
          = count_events is_newPage_call (trace w0) + 1) as Hnew.
  { unfold await. destruct (oracle w0) as [|[|] rest]; cbn [snd trace];
      now rewrite count_events_app. }
  destruct (await newPage w0) as [[[]|e] w1]; cbn [snd] in Hnew; [|exact Hnew].
  rewrite <- Hnew. apply count_unseen.
  match goal with |- unseen _ _ (snd (?m w1)) => assert (keeps (unseen is_newPage_call) m) as H end.
  { unfold extractWebsiteIntelligence, extractColors, extractFonts_index, sleep.
    frame_unseen. }
  apply H.
Qed.

(** A page is closed exactly when its analysis returns. *)
Lemma analyzeSingleWebsite_closes (url : option json) :
  ends_with is_page_closed (eq (Did page_close)) (analyzeSingleWebsite url).
Proof.
  unfold analyzeSingleWebsite, extractWebsiteIntelligence, extractColors,
    extractFonts_index, sleep.
  repeat (apply ends_with_bind; [solve [frame_unseen] | intros]).
  intros w. unfold bind, await, ret.
  destruct (oracle w) as [|[|] rest]; cbn [trace].
  - exists (Did page_close). split; [reflexivity | now rewrite filter_app].
  - now rewrite filter_app, app_nil_r.
  - exists (Did page_close). split; [reflexivity | now rewrite filter_app].
Qed.

Lemma bulk_step_pages (url : json) (results : list json) (w : world) :
  exists e w',
    bulk_step url results w = (Ok (results ++ [e])%list, w')
    /\ count_events is_newPage_call (trace w')
       = count_events is_newPage_call (trace w) + (if valid_item url then 1 else 0)
    /\ count_events is_page_closed (trace w')
       = count_events is_page_closed (trace w) + (if succeeded e then 1 else 0)
    /\ unseen is_response w w'
    /\ same_browser w w'.
Proof.
  unfold bulk_step, valid_item.
  destruct (isValidUrl (toString (Some url))); cbn [negb].
  - unfold try_catch, bind.
    pose proof (analyzeSingleWebsite_one_page (Some url) w) as Hnew.
    pose proof (analyzeSingleWebsite_closes (Some url) w) as Hclose.
    pose proof (analyzeSingleWebsite_silent (Some url) w) as Hsilent.
    pose proof (analyzeSingleWebsite_quiet (Some url)) as [_ Hb]. specialize (Hb w).
    destruct (analyzeSingleWebsite (Some url) w) as [[data|e] w1]; cbn [snd] in *.
    + exists (success_entry data), w1. repeat split; try assumption.
      destruct Hclose as (e & <- & Hclose). unfold count_events.
      rewrite Hclose, length_app. reflexivity.
    + exists (failed_entry url), w1. repeat split; try assumption.
      unfold count_events. rewrite Hclose. cbn. lia.
  - exists (invalid_entry url), w. repeat split; cbn; lia.
Qed.

Lemma bulk_loop_pages (urls results : list json) (w : world) :
  exists entries w',
    bulk_loop urls results w = (Ok (results ++ entries)%list, w')
    /\ count_events is_newPage_call (trace w')
       = count_events is_newPage_call (trace w) + List.length (filter valid_item urls)
    /\ count_events is_page_closed (trace w')
       = count_events is_page_closed (trace w) + List.length (filter succeeded entries)
    /\ unseen is_response w w'
    /\ same_browser w w'.
Proof.
  revert results w. induction urls as [|url urls IH]; intros results w; cbn [bulk_loop].
  - exists [], w. rewrite app_nil_r. repeat split; cbn; lia.
  - destruct (bulk_step_pages url results w) as (e & w1 & Hstep & Hn1 & Hc1 & Hu1 & Hb1).
    destruct (IH (results ++ [e])%list w1) as (entries & w2 & Hloop & Hn2 & Hc2 & Hu2 & Hb2).
    exists (e :: entries), w2. unfold bind. rewrite Hstep, Hloop, <- app_assoc.
    split; [reflexivity|]. cbn [filter].
    repeat split.
    + rewrite Hn2, Hn1. destruct (valid_item url); cbn [List.length]; lia.
    + rewrite Hc2, Hc1. destruct (succeeded e); cbn [List.length]; lia.
    + eapply unseen_trans; eassumption.
    + eapply same_browser_trans; eassumption.
Qed.

Section MoreRequests.

Variable web : string -> document.
Variable uuid : nat -> string.

Lemma answered_once_400 (failure body : json) :
  answered_once failure [Responded 400 body].
Proof. exists 400, body. split; [reflexivity | auto]. Qed.

Lemma answered_from (failure : json) (tr : list event) (e : event) :
  (is_ok_response e \/ e = Responded 500 failure) ->
  responses tr = [e] -> answered_once failure tr.
Proof.
  intros [[b ->] | ->] H.
  - exists 200, b. auto.
  - exists 500, failure. auto.
Qed.

(** X9.  Whatever the body and whichever awaited calls reject, each of
    the four analysis handlers sends exactly one response: a 400, a 200, or
    the 500 with the handler's fixed failure body. *)
Theorem every_request_answered_once (body : json) (oracle : list bool) :
  answered_once (message "Website analysis failed")
    (run (analyze_index body) (start web uuid oracle))
  /\ answered_once (message "Bulk analysis failed")
       (run (analyze_bulk body) (start web uuid oracle))
  /\ answered_once blocked_part000 (run (analyze_part000 body) (start web uuid oracle))
  /\ answered_once (message "Website analysis failed")
       (run (analyze_part001 body) (start web uuid oracle)).
Proof.
  split; [|split; [|split]]; unfold run.
  - unfold analyze_index.
    destruct (negb (isValidUrl (toString (get "url" body)))); [apply answered_once_400|].
    unfold ensureDir. unfold bind at 1. cbn [log].
    match goal with |- answered_once ?f (trace (snd (try_catch_finally ?b _ _ ?w))) =>
      destruct (guarded_response is_ok_response b f w) as (e & He & Hr) end.
    + apply ends_with_bind; [apply unseen_launch_browser; reflexivity | intros].
      apply ends_with_bind; [apply analyzeSingleWebsite_silent | intros].
      apply ends_with_respond. eexists; reflexivity.
    + eapply answered_from; eassumption.
  - unfold analyze_bulk.
    destruct (get "urls" body) as [[| | | |[|url urls]|]|]; try apply answered_once_400.
    unfold ensureDir. unfold bind at 1. cbn [log].
    match goal with |- answered_once ?f (trace (snd (try_catch_finally ?b _ _ ?w))) =>
      destruct (guarded_response is_ok_response b f w) as (e & He & Hr) end.
    + apply ends_with_bind; [apply unseen_launch_browser; reflexivity | intros].
      apply ends_with_bind; [apply bulk_loop_silent | intros].
      apply ends_with_respond. eexists; reflexivity.
    + eapply answered_from; eassumption.
  - unfold analyze_part000.
    destruct (negb (truthy (get "url" body))
              || negb (isValidUrl (toString (get "url" body)))); [apply answered_once_400|].
    unfold ensureDir. unfold bind at 1. cbn [log].
    unfold bind at 1. cbn [randomUUID].
    match goal with |- answered_once ?f (trace (snd (try_catch_finally ?b _ _ ?w))) =>
      destruct (guarded_response is_ok_response b f w) as (e & He & Hr) end.
    + apply ends_with_bind; [apply unseen_launch_browser; reflexivity | intros].
      unfold hardenPage, stabilizePage, forceLoadImages, aggressiveScroll,
        extractCategory_part000, extractCSSColors, extractFonts_part000, extractTags, sleep.
      ends_ok.
    + eapply answered_from; eassumption.
  - unfold analyze_part001.
    destruct (negb (isValidUrl (toString (get "url" body)))); [apply answered_once_400|].
    unfold ensureDir. unfold bind at 1. cbn [log].
    unfold bind at 1. cbn [randomUUID].
    match goal with |- answered_once ?f (trace (snd (try_catch_finally ?b _ _ ?w))) =>
      destruct (guarded_response is_ok_response b f w) as (e & He & Hr) end.
    + apply ends_with_bind; [apply unseen_launch_browser; reflexivity | intros].
      unfold extractCategory_part001, sleep.
      ends_ok.
    + eapply answered_from; eassumption.
Qed.

(** X10.  The browser is only ever sent to a string of the request that
    [isValidUrl] accepted: the [url] of an [/analyze] request, one of the
    [urls] of a batch. *)
Theorem navigation_only_to_validated_urls (body : json) (oracle : list bool) :
  Forall (navigates_within [toString (get "url" body)])
    (run (analyze_index body) (start web uuid oracle))
  /\ Forall (navigates_within [toString (get "url" body)])
       (run (analyze_part000 body) (start web uuid oracle))
  /\ Forall (navigates_within [toString (get "url" body)])
       (run (analyze_part001 body) (start web uuid oracle))
  /\ Forall (navigates_within (requested (urls_of body)))
       (run (analyze_bulk body) (start web uuid oracle)).
Proof.
  split; [|split; [|split]]; unfold run.
  - assert (keeps (only (navigates_within [toString (get "url" body)])) (analyze_index body))
      as H; [|apply H; constructor].
    unfold analyze_index.
    destruct (isValidUrl (toString (get "url" body))) eqn:Hvalid; cbn [negb];
      unfold respond, ensureDir; [|frame_only].
    apply keeps_bind; [apply only_trans | frame_only | intros].
    apply keeps_try_catch_finally; [apply only_trans | | intros; frame_only | frame_only].
    apply keeps_bind; [apply only_trans | frame_only | intros].
    apply keeps_bind; [apply only_trans | | intros; frame_only].
    apply analyzeSingleWebsite_navigates; [now left | assumption].
  - assert (keeps (only (navigates_within [toString (get "url" body)])) (analyze_part000 body))
      as H; [|apply H; constructor].
    unfold analyze_part000.
    destruct (truthy (get "url" body)); cbn [negb orb]; unfold respond; [|frame_only].
    destruct (isValidUrl (toString (get "url" body))) eqn:Hvalid; cbn [negb];
      [|frame_only].
    unfold ensureDir, hardenPage, stabilizePage, forceLoadImages, aggressiveScroll,
      extractCategory_part000, extractCSSColors, extractFonts_part000, extractTags, sleep,
      respond.
    frame_only.
  - assert (keeps (only (navigates_within [toString (get "url" body)])) (analyze_part001 body))
      as H; [|apply H; constructor].
    unfold analyze_part001.
    destruct (isValidUrl (toString (get "url" body))) eqn:Hvalid; cbn [negb];
      unfold respond, ensureDir, extractCategory_part001, sleep; frame_only.
  - assert (keeps (only (navigates_within (requested (urls_of body)))) (analyze_bulk body))
      as H; [|apply H; constructor].
    unfold analyze_bulk, urls_of.
    destruct (get "urls" body) as [[| | | |[|url urls]|]|]; unfold respond, ensureDir;
      try solve [frame_only].
    apply keeps_bind; [apply only_trans | frame_only | intros].
    apply keeps_try_catch_finally; [apply only_trans | | intros; frame_only | frame_only].
    apply keeps_bind; [apply only_trans | frame_only | intros].
    apply keeps_bind; [apply only_trans | | intros; frame_only].
    apply bulk_loop_navigates. apply incl_refl.
Qed.

(** X11.  [/analyze/bulk] answers 400 exactly when [urls] is missing, is
    not an array or is the empty array, and then does nothing else; a
    non-empty array is never refused, whatever its items. *)
Theorem bulk_rejected_iff_no_urls (body : json) (oracle : list bool) :
  (urls_of body = [] ->
   run (analyze_bulk body) (start web uuid oracle)
   = [Responded 400 (message "URLs array required")])
  /\ ((exists b, In (Responded 400 b) (run (analyze_bulk body) (start web uuid oracle)))
      <-> urls_of body = []).
Proof.
  assert (urls_of body = [] ->
          run (analyze_bulk body) (start web uuid oracle)
          = [Responded 400 (message "URLs array required")]) as Hno.
  { unfold urls_of, run, analyze_bulk.
    destruct (get "urls" body) as [[| | | |[|url urls]|]|]; try reflexivity. discriminate. }
  split; [exact Hno|]. split.
  - intros [b Hb]. unfold urls_of, run, analyze_bulk in *.
    destruct (get "urls" body) as [[| | | |[|url urls]|]|]; try reflexivity. exfalso.
    unfold ensureDir in Hb. unfold bind at 1 in Hb. cbn [log] in Hb.
    match type of Hb with In _ (trace (snd (try_catch_finally ?m _ _ ?w))) =>
      destruct (guarded_response is_ok_response m (message "Bulk analysis failed") w)
        as (e & He & Hr) end.
    + apply ends_with_bind; [apply unseen_launch_browser; reflexivity | intros].
      apply ends_with_bind; [apply bulk_loop_silent | intros].
      apply ends_with_respond. eexists; reflexivity.
    + assert (In (Responded 400 b) [e]) as Hin.
      { change (_ ++ [e])%list with [e] in Hr. rewrite <- Hr.
        apply filter_In. now split. }
      destruct Hin as [Hin | []]. subst e. destruct He as [[b' He] | He]; discriminate.
  - intros H. rewrite (Hno H). eexists. now left.
Qed.

(** X12.  The pages of a batch, when the launch resolves: [newPage] is
    called once for every URL that is valid and never for the others, and
    the number of pages closed is the number of entries counted as
    succeeded; the page of an analysis that failed is not closed by the
    loop. *)
Theorem bulk_page_accounting (body : json) (urls : list json) (oracle : list bool) :
  get "urls" body = Some (JArr urls) ->
  urls <> [] ->
  launch_resolves oracle ->
  exists results,
    responses (run (analyze_bulk body) (start web uuid oracle))
    = [Responded 200 (summary urls results)]
    /\ count_events is_newPage_call (run (analyze_bulk body) (start web uuid oracle))
       = List.length (filter valid_item urls)
    /\ count_events is_page_closed (run (analyze_bulk body) (start web uuid oracle))
       = List.length (filter succeeded results).
Proof.
  intros Hget Hne Hlaunch.
  unfold analyze_bulk. rewrite Hget.
  destruct urls as [|url urls]; [contradiction|].
  set (us := url :: urls) in *.
  assert (exists w1,
             (ensureDir "screenshots" ;; launch_browser) (start web uuid oracle) = (Ok tt, w1)
             /\ browser w1 = true /\ responses (trace w1) = []
             /\ count_events is_newPage_call (trace w1) = 0
             /\ count_events is_page_closed (trace w1) = 0)
    as (w1 & Hw1 & Hb1 & Hr1 & Hn1 & Hc1).
  { unfold bind, ensureDir, log, launch_browser, bind, await, start. cbn.
    destruct oracle as [|[|] rest]; [| contradiction |]; cbn; eexists; repeat split. }
  destruct (bulk_loop_pages us [] w1) as (results & w2 & Hloop & Hn & Hc & Hu & Hsame).
  exists results.
  unfold same_browser in Hsame. rewrite Hb1 in Hsame.
  unfold unseen in Hu. fold (responses (trace w2)) in Hu.
  fold (responses (trace w1)) in Hu. rewrite Hr1 in Hu.
  rewrite Hn1 in Hn. rewrite Hc1 in Hc. cbn [plus] in Hn, Hc.
  unfold run, try_catch_finally, try_catch.
  unfold bind in Hw1 |- *. cbn [ensureDir log] in Hw1 |- *.
  destruct (launch_browser _) as [[[]|e] w1'] eqn:El; [|discriminate].
  injection Hw1 as ->. rewrite Hloop.
  unfold respond, log, close_if_launched. cbn [browser]. rewrite Hsame.
  unfold await. cbn [Server.oracle trace].
  destruct (Server.oracle w2) as [|[|] rest]; cbn [snd trace];
    unfold responses; rewrite !count_events_app, !filter_app; fold (responses (trace w2));
    rewrite Hu, Hn, Hc; cbn; repeat split; lia.
Qed.

End MoreRequests.

(** ** What a 200 says of the screenshots *)

Lemma adds_ret view {A : Type} (a : A) (Q : A -> list event -> Prop) :
  Q a [] -> adds view (ret a) Q.
Proof.
  intros H w a' w' [= <- <-]. exists []. now rewrite app_nil_r.
Qed.

Lemma adds_skip view {A B : Type} (m : M A) (k : A -> M B) (Q : B -> list event -> Prop) :
  keeps (unseen view) m -> (forall a, adds view (k a) Q) -> adds view (bind m k) Q.
Proof.
  intros Hm Hk w b w' H. unfold bind in H. specialize (Hm w). unfold unseen in Hm.
  destruct (m w) as [[a|e] w1]; [|discriminate]. cbn [snd] in Hm.
  destruct (Hk a w1 b w' H) as (es & Hes & HQ).
  exists es. now rewrite Hes, Hm.
Qed.

Lemma adds_bind view {A B : Type} (m : M A) (k : A -> M B)
    (Q1 : A -> list event -> Prop) (Q : B -> list event -> Prop) :
  adds view m Q1 ->
  (forall a, adds view (k a) (fun b es2 => forall es1, Q1 a es1 -> Q b (es1 ++ es2)%list)) ->
  adds view (bind m k) Q.
Proof.
  intros Hm Hk w b w' H. unfold bind in H.
  destruct (m w) as [[a|e] w1] eqn:E; [|discriminate].
  destruct (Hm w a w1 E) as (es1 & Hes1 & H1).
  destruct (Hk a w1 b w' H) as (es2 & Hes2 & H2).
  exists (es1 ++ es2)%list. split; [|now apply H2].
  now rewrite Hes2, Hes1, app_assoc.
Qed.

Lemma adds_await_seen view {B : Type} (o : op) (k : M B) (Q : B -> list event -> Prop) :
  view (Did o) = true ->
  adds view k (fun b es => Q b (Did o :: es)) ->
  adds view (bind (await o) (fun _ => k)) Q.
Proof.
  intros Hv Hk w b w' H. unfold bind, await in H.
  destruct (oracle w) as [|[|] rest]; try discriminate;
    (destruct (Hk _ b w' H) as (es & Hes & HQ);
     exists (Did o :: es); split; [|assumption];
     rewrite Hes; cbn [trace]; rewrite filter_app; cbn [filter]; rewrite Hv;
     now rewrite <- app_assoc).
Qed.

Lemma adds_caught_seen view {A B : Type} (o : op) (x y : A) (k : A -> M B)
    (Q : B -> list event -> Prop) :
  view (Did o) = true -> view (Threw o) = true ->
  adds view (k x) (fun b es => Q b (Did o :: es)) ->
  adds view (k y) (fun b es => Q b (Threw o :: es)) ->
  adds view (bind (try_catch (bind (await o) (fun _ => ret x)) (fun _ => ret y)) k) Q.
Proof.
  intros Hd Ht Hx Hy w b w' H. unfold bind, try_catch, await, ret in H.
  destruct (oracle w) as [|[|] rest].
  - destruct (Hx _ b w' H) as (es & Hes & HQ).
    exists (Did o :: es). split; [|assumption].
    rewrite Hes. cbn [trace]. rewrite filter_app. cbn [filter]. rewrite Hd.
    now rewrite <- app_assoc.
  - destruct (Hy _ b w' H) as (es & Hes & HQ).
    exists (Threw o :: es). split; [|assumption].
    rewrite Hes. cbn [trace]. rewrite filter_app. cbn [filter]. rewrite Ht.
    now rewrite <- app_assoc.
  - destruct (Hx _ b w' H) as (es & Hes & HQ).
    exists (Did o :: es). split; [|assumption].
    rewrite Hes. cbn [trace]. rewrite filter_app. cbn [filter]. rewrite Hd.
    now rewrite <- app_assoc.
Qed.

Lemma adds_respond view (status : nat) (body : json) (Q : unit -> list event -> Prop) :
  view (Responded status body) = true ->
  Q tt [Responded status body] -> adds view (respond status body) Q.
Proof.
  intros Hv HQ w a w' H. unfold respond, log in H. injection H as <- <-.
  exists [Responded status body]. split; [|assumption].
  cbn [trace]. rewrite filter_app. cbn [filter]. now rewrite Hv.
Qed.

Lemma filter_filter {A : Type} (p q : A -> bool) (l : list A) :
  (forall x, p x = true -> q x = true) -> filter p (filter q l) = filter p l.
Proof.
  intros H. induction l as [|x l IH]; cbn [filter]; [reflexivity|].
  destruct (q x) eqn:Eq; cbn [filter]; destruct (p x) eqn:Ep; rewrite ?IH; try reflexivity.
  apply H in Ep. congruence.
Qed.

(** The [try]/[catch]/[finally] of the handlers, seen through [view]: the
    events of the body when it returns, a last 500 when it throws. *)
Lemma guarded_outcome view (Q : unit -> list event -> Prop) (body : M unit)
    (failure : json) (w : world) :
  view (Did browser_close) = false -> view (Threw browser_close) = false ->
  view (Responded 500 failure) = true ->
  adds view body Q ->
  (exists es,
      Q tt es
      /\ filter view (trace (snd (try_catch_finally body (fun _ => respond 500 failure)
                                   close_if_launched w)))
         = (filter view (trace w) ++ es)%list)
  \/ (exists before,
         filter view (trace (snd (try_catch_finally body (fun _ => respond 500 failure)
                                    close_if_launched w)))
         = (before ++ [Responded 500 failure])%list).
Proof.
  intros Hd Ht Hv Hbody. unfold try_catch_finally, try_catch.
  assert (forall (r : result unit) w1,
             filter view (trace (snd (let (r0, w'') := close_if_launched w1 in
                                      match r0 with
                                      | Ok _ => (r, w'')
                                      | Throw e => (Throw e, w'')
                                      end)))
             = filter view (trace w1)) as Hclose.
  { intros r w1. pose proof (unseen_close_if_launched view Hd Ht w1) as H.
    destruct (close_if_launched w1) as [[[]|e] w2]; exact H. }
  destruct (body w) as [[[]|e] w1] eqn:E.
  - left. destruct (Hbody w tt w1 E) as (es & Hes & HQ).
    exists es. split; [assumption|]. now rewrite Hclose.
  - right. exists (filter view (trace w1)).
    unfold respond, log. rewrite Hclose. cbn [trace].
    rewrite filter_app. cbn [filter]. now rewrite Hv.
Qed.

Ltac adds_steps :=
  repeat first
    [ apply adds_await_seen; [reflexivity|]
    | apply adds_caught_seen; [reflexivity | reflexivity | | ]
    | apply adds_skip; [solve [frame_unseen] | intros] ].

Lemma analyzeSingleWebsite_captures (url : option json) :
  adds capture_or_response (analyzeSingleWebsite url)
    (fun data es => names_captured_files "desktopScreenshot" "mobileScreenshot" data es).
Proof.
  unfold analyzeSingleWebsite, extractWebsiteIntelligence, extractColors,
    extractFonts_index, sleep.
  apply adds_skip; [solve [frame_unseen] | intros id]. cbv zeta.
  adds_steps.
  apply adds_ret.
  exists ("desktop-" ++ id ++ ".webp"), ("mobile-" ++ id ++ ".webp").
  split; [discriminate|]. destruct url; repeat split.
Qed.

Section Captures.

Variable web : string -> document.
Variable uuid : nat -> string.

Lemma responses_of_view (tr : list event) :
  responses tr = filter is_response (filter capture_or_response tr).
Proof.
  unfold responses. symmetry. apply filter_filter.
  intros e H. unfold capture_or_response. rewrite H. apply orb_true_r.
Qed.

Lemma captures_of_view (tr : list event) :
  captures tr = filter is_capture (filter capture_or_response tr).
Proof.
  unfold captures. symmetry. apply filter_filter.
  intros e H. unfold capture_or_response. now rewrite H.
Qed.

Lemma not_ok_after_500 (before : list event) (failure data : json) :
  filter is_response (before ++ [Responded 500 failure])%list <> [Responded 200 data].
Proof.
  rewrite filter_app. cbn [filter is_response]. intros H.
  change [Responded 200 data] with ([] ++ [Responded 200 data])%list in H.
  apply app_inj_tail in H. destruct H as [_ H]. discriminate.
Qed.

Lemma outcome_guarded (Q : list event -> Prop) (body : M unit) (failure : json) (w : world) :
  filter capture_or_response (trace w) = [] ->
  adds capture_or_response body (fun _ es => Q es) ->
  outcome Q (trace (snd (try_catch_finally body (fun _ => respond 500 failure)
                           close_if_launched w))).
Proof.
  intros Hw Hbody.
  destruct (guarded_outcome capture_or_response (fun _ es => Q es) body failure w
              eq_refl eq_refl eq_refl Hbody) as [(es & HQ & H) | (before & H)].
  - right. right. exists es. rewrite H, Hw. auto.
  - right. left. now exists before, failure.
Qed.

Lemma analyze_index_outcome (body : json) (oracle : list bool) :
  outcome (captured_then_ok "desktopScreenshot" "mobileScreenshot")
    (run (analyze_index body) (start web uuid oracle)).
Proof.
  unfold run, analyze_index.
  destruct (negb (isValidUrl (toString (get "url" body)))).
  - left. now eexists.
  - unfold ensureDir. unfold bind at 1. cbn [log].
    apply outcome_guarded; [reflexivity|].
    apply adds_skip; [apply unseen_launch_browser; reflexivity | intros].
    eapply adds_bind; [apply analyzeSingleWebsite_captures | intros data'].
    apply adds_respond; [reflexivity|].
    intros shots Hshots. now exists data', shots.
Qed.

Lemma analyze_part001_outcome (body : json) (oracle : list bool) :
  outcome (captured_then_ok "desktop" "mobile")
    (run (analyze_part001 body) (start web uuid oracle)).
Proof.
  unfold run, analyze_part001.
  destruct (negb (isValidUrl (toString (get "url" body)))).
  - left. now eexists.
  - unfold ensureDir. unfold bind at 1. cbn [log]. unfold bind at 1. cbn [randomUUID].
    apply outcome_guarded; [reflexivity|].
    apply adds_skip; [apply unseen_launch_browser; reflexivity | intros].
    unfold extractCategory_part001, sleep.
    adds_steps.
    apply adds_respond; [reflexivity|].
    eexists _, [_; _]. split; [reflexivity|].
    eexists _, _. split; [|repeat split]. discriminate.
Qed.

Lemma ok_outcome (Q : list event -> Prop) (tr : list event) (data : json) :
  outcome Q tr -> responses tr = [Responded 200 data] ->
  exists es, filter capture_or_response tr = es /\ Q es.
Proof.
  rewrite responses_of_view.
  intros [(b & ->) | [(before & failure & ->) | H]] Hr.
  - discriminate.
  - now apply not_ok_after_500 in Hr.
  - assumption.
Qed.

Lemma captured_then_ok_names (desktopKey mobileKey : string) (tr : list event) (data : json) :
  outcome (captured_then_ok desktopKey mobileKey) tr ->
  responses tr = [Responded 200 data] ->
  names_captured_files desktopKey mobileKey data (captures tr).
Proof.
  intros Hout Hr. pose proof Hr as Hr'.
  apply (ok_outcome _ _ _ Hout) in Hr.
  destruct Hr as (es & Hes & data' & shots & -> & Hnames).
  rewrite responses_of_view, Hes in Hr'. rewrite captures_of_view, Hes.
  destruct Hnames as (desktop & mobile & Hne & Hd & Hm & ->).
  cbn in Hr'. injection Hr' as <-.
  exists desktop, mobile. repeat split; assumption.
Qed.

(** X13.  When [/analyze] of [src/index.js] or of
    [src/unnamed/part_001] answers 200, exactly two screenshots were
    taken, both resolved, and the two file names of the response, which
    differ, are the names of the files captured, desktop first. *)
Theorem ok_response_names_captured_files (body : json) (oracle : list bool) (data : json) :
  (responses (run (analyze_index body) (start web uuid oracle)) = [Responded 200 data] ->
   names_captured_files "desktopScreenshot" "mobileScreenshot" data
     (captures (run (analyze_index body) (start web uuid oracle))))
  /\ (responses (run (analyze_part001 body) (start web uuid oracle)) = [Responded 200 data] ->
      names_captured_files "desktop" "mobile" data
        (captures (run (analyze_part001 body) (start web uuid oracle)))).
Proof.
  split.
  - apply captured_then_ok_names, analyze_index_outcome.
  - apply captured_then_ok_names, analyze_part001_outcome.
Qed.

Lemma analyze_part000_outcome (body : json) (oracle : list bool) :
  outcome reported_then_ok (run (analyze_part000 body) (start web uuid oracle)).
Proof.
  unfold run, analyze_part000.
  destruct (negb (truthy (get "url" body)) || negb (isValidUrl (toString (get "url" body)))).
  - left. now eexists.
  - unfold ensureDir. unfold bind at 1. cbn [log]. unfold bind at 1. cbn [randomUUID].
    match goal with |- context [Server.uuid ?w ?n] => generalize (Server.uuid w n) end.
    intros id.
    apply outcome_guarded; [reflexivity|].
    unfold hardenPage, stabilizePage, forceLoadImages, aggressiveScroll,
      extractCategory_part000, extractCSSColors, extractFonts_part000, extractTags, sleep.
    adds_steps.
    all: apply adds_respond; [reflexivity|].
    all: eexists _, [_; _]; split; [reflexivity|].
    all: eexists _, _, _, _; split; [|split; [reflexivity|split; [reflexivity|]]].
    all: try discriminate.
    all: split; [reflexivity|].
    all: split; [solve [now left | now right]|].
    all: split; [solve [now left | now right]|].
    all: split; [reflexivity|].
    all: split; [split; [intros H; try discriminate H; now split
                        | intros [H1 H2]; try discriminate; reflexivity]|].
    all: split; [split; [intros H; try discriminate H; intros [H1 H2]; discriminate
                        | intros H; try reflexivity; exfalso; apply H; now split]|].
    all: eexists; split; reflexivity.
Qed.

(** X14.  When [/analyze] of [src/unnamed/part_000] answers 200, both
    screenshots were attempted, at the two file names of the response; a
    rejected capture does not fail the request: [warnings] lists the
    desktop and the mobile warning of exactly the captures that were
    rejected, [status] is [success] when both resolved and
    [partial_success] otherwise, and [fontTypes] is the classification of
    the [fonts] reported. *)
Theorem part000_ok_reports_captures (body : json) (oracle : list bool) (data : json) :
  responses (run (analyze_part000 body) (start web uuid oracle)) = [Responded 200 data] ->
  reports_captures data (captures (run (analyze_part000 body) (start web uuid oracle))).
Proof.
  intros Hr. pose proof Hr as Hr'.
  apply (ok_outcome _ _ _ (analyze_part000_outcome body oracle)) in Hr.
  destruct Hr as (es & Hes & data' & shots & -> & Hrep).
  rewrite responses_of_view, Hes in Hr'. rewrite captures_of_view, Hes.
  destruct Hrep as (desktop & mobile & sd & sm & Hne & Hd & Hm & -> & Hrest).
  rewrite filter_app in Hr' |- *.
  destruct Hrest as (Hsd & Hsm & Hrest).
  assert (is_capture sd = true /\ is_response sd = false) as [Hc1 Hr1]
    by (destruct Hsd as [-> | ->]; now split).
  assert (is_capture sm = true /\ is_response sm = false) as [Hc2 Hr2]
    by (destruct Hsm as [-> | ->]; now split).
  cbn [filter is_response is_capture app] in Hr' |- *.
  rewrite Hr1, Hr2 in Hr'. rewrite Hc1, Hc2. cbn in Hr'. injection Hr' as <-.
  exists desktop, mobile, sd, sm.
  destruct Hrest as (Hw & Hs & Hp & Hf).
  do 6 (split; [first [assumption | reflexivity]|]).
  split; [exact Hw|]. split; [exact Hs|]. split; [exact Hp | exact Hf].
Qed.

End Captures.

(** ** Which failures end in a 500 *)

Section Blame.

Variable site : string -> document.
Variable fatal : op -> bool.
Variable cause : Prop.

Lemma same_web_refl w : same_web w w.
Proof. reflexivity. Qed.

Lemma same_web_trans a b c : same_web a b -> same_web b c -> same_web a c.
Proof. unfold same_web. congruence. Qed.

Lemma same_web_await o : keeps same_web (await o).
Proof. intros w. unfold await. destruct (oracle w) as [|[|] rest]; reflexivity. Qed.

Lemma same_web_log e : keeps same_web (log e).
Proof. intros w. reflexivity. Qed.

Lemma same_web_randomUUID : keeps same_web randomUUID.
Proof. intros w. reflexivity. Qed.

Lemma blames_ret {A : Type} (a : A) : blames site fatal cause (ret a).
Proof. intros w Hw. now split. Qed.

Lemma blames_bind {A B : Type} (m : M A) (k : A -> M B) :
  blames site fatal cause m -> (forall a, blames site fatal cause (k a)) ->
  blames site fatal cause (bind m k).
Proof.
  intros Hm Hk w Hw. unfold bind. specialize (Hm w Hw).
  destruct (m w) as [[a|e] w1]; [|exact Hm].
  destruct Hm as [Hweb Hf]. specialize (Hk a w1 Hweb).
  destruct (k a w1) as [[b|e] w2]; [|exact Hk].
  destruct Hk as [Hweb2 Hf2]. split; [assumption | congruence].
Qed.

Lemma blames_bind_with {A B : Type} (Q : A -> Prop) (m : M A) (k : A -> M B) :
  blames site fatal cause m -> returns_on site Q m ->
  (forall a, Q a -> blames site fatal cause (k a)) ->
  blames site fatal cause (bind m k).
Proof.
  intros Hm HQ Hk w Hw. unfold bind. specialize (Hm w Hw). specialize (HQ w).
  destruct (m w) as [[a|e] w1]; [|exact Hm].
  destruct Hm as [Hweb Hf]. specialize (Hk a (HQ a w1 Hw eq_refl) w1 Hweb).
  destruct (k a w1) as [[b|e] w2]; [|exact Hk].
  destruct Hk as [Hweb2 Hf2]. split; [assumption | congruence].
Qed.

Lemma blames_await (o : op) : fatal o = true -> blames site fatal cause (await o).
Proof.
  intros Ho w Hw. unfold await.
  destruct (oracle w) as [|[|] rest]; cbn [web trace]; (split; [assumption|]).
  - rewrite filter_app. cbn. apply app_nil_r.
  - right. exists o. split; [assumption|]. apply in_or_app. right. now left.
  - rewrite filter_app. cbn. apply app_nil_r.
Qed.

Lemma blames_launch_browser : fatal launch = true -> blames site fatal cause launch_browser.
Proof.
  intros Ho w Hw. pose proof (blames_await launch Ho w Hw) as H.
  unfold launch_browser, bind. destruct (await launch w) as [[[]|e] w1]; exact H.
Qed.

Lemma blames_log (e : event) : fatal_throw fatal e = false -> blames site fatal cause (log e).
Proof.
  intros He w Hw. unfold log. cbn [web trace]. split; [assumption|].
  rewrite filter_app. cbn [filter]. rewrite He. apply app_nil_r.
Qed.

Lemma blames_randomUUID : blames site fatal cause randomUUID.
Proof. intros w Hw. now split. Qed.

Lemma blames_lift {A : Type} (r : result A) :
  (forall e, r = Throw e -> cause) -> blames site fatal cause (lift r).
Proof.
  intros H w Hw. unfold lift. destruct r as [a|e]; (split; [assumption|]); [reflexivity|].
  left. now apply (H e).
Qed.

(** A [try] whose [catch] returns a value: nothing is blamed. *)
Lemma blames_caught {A : Type} (m : M A) (y : A) :
  keeps (unseen (fatal_throw fatal)) m -> keeps same_web m ->
  blames site fatal cause (try_catch m (fun _ => ret y)).
Proof.
  intros Hu Hs w Hw. unfold try_catch, ret. specialize (Hu w). specialize (Hs w).
  unfold unseen, same_web in *.
  destruct (m w) as [[a|e] w1]; cbn [snd] in *; (split; [congruence | assumption]).
Qed.

Lemma blames_page_evaluate {A : Type} (url : string) (f : document -> result A) :
  fatal evaluate = true -> (forall e, f (site url) = Throw e -> cause) ->
  blames site fatal cause (page_evaluate url f).
Proof.
  intros Ho Hf w Hw. pose proof (blames_await evaluate Ho w Hw) as H.
  unfold page_evaluate, bind. destruct (await evaluate w) as [[[]|e] w1]; [|exact H].
  destruct H as [Hweb H]. cbv beta. rewrite Hweb.
  destruct (f (site url)) as [a|e] eqn:E; split; try assumption; try reflexivity.
  left. now apply (Hf e).
Qed.

Lemma blames_title_of (url : string) :
  fatal page_title = true -> blames site fatal cause (title_of url).
Proof.
  intros Ho w Hw. pose proof (blames_await page_title Ho w Hw) as H.
  unfold title_of, bind. destruct (await page_title w) as [[[]|e] w1]; exact H.
Qed.

(** What [close_if_launched] adds to the trace. *)
Lemma close_if_launched_trace (w : world) :
  exists extra,
    trace (snd (close_if_launched w)) = (trace w ++ extra)%list
    /\ (extra = [] \/ extra = [Did browser_close] \/ extra = [Threw browser_close]).
Proof.
  unfold close_if_launched, await.
  destruct (browser w); [|exists []; rewrite app_nil_r; auto].
  destruct (oracle w) as [|[|] rest]; cbn [snd trace]; eexists; split; try reflexivity; auto.
Qed.

(** The [try]/[catch]/[finally] of a handler whose body blames [cause] and
    answers 200: its 500 is explained. *)
Lemma guarded_failure_explained (body : M unit) (failure : json) (w : world) :
  web w = site -> fatal browser_close = false ->
  filter (fatal_throw fatal) (trace w) = [] -> responses (trace w) = [] ->
  blames site fatal cause body -> ends_with is_response is_ok_response body ->
  failure_explained fatal cause failure
    (trace (snd (try_catch_finally body (fun _ => respond 500 failure)
                   close_if_launched w))).
Proof.
  intros Hw Hclose Hnone Hnoresp Hbl Hends.
  unfold try_catch_finally, try_catch. specialize (Hbl w Hw). specialize (Hends w).
  assert (forall (r : result unit) w1,
             trace (snd (let (r0, w'') := close_if_launched w1 in
                         match r0 with
                         | Ok _ => (r, w'')
                         | Throw e => (Throw e, w'')
                         end))
             = trace (snd (close_if_launched w1))) as Hsnd.
  { intros r w1. now destruct (close_if_launched w1) as [[[]|e] w2]. }
  destruct (body w) as [[[]|e] w1].
  - rewrite Hsnd. destruct (close_if_launched_trace w1) as (extra & -> & Hextra).
    destruct Hbl as [_ Hf]. destruct Hends as (ev & [d ->] & Hr).
    assert (filter (fatal_throw fatal) (trace w1 ++ extra)%list = []) as Hnofatal.
    { rewrite filter_app, Hf, Hnone.
      destruct Hextra as [-> | [-> | ->]]; cbn; rewrite ?Hclose; reflexivity. }
    assert (responses (trace w1 ++ extra)%list = [Responded 200 d]) as Hresp.
    { unfold responses in *. rewrite filter_app, Hr, Hnoresp.
      destruct Hextra as [-> | [-> | ->]]; reflexivity. }
    split.
    + intros o Ho Hin. exfalso.
      assert (In (Threw o) (filter (fatal_throw fatal) (trace w1 ++ extra)%list)) as H
        by (apply filter_In; now split).
      now rewrite Hnofatal in H.
    + rewrite Hresp. discriminate.
  - unfold respond, log. rewrite Hsnd.
    match goal with |- context [close_if_launched ?w2] =>
      destruct (close_if_launched_trace w2) as (extra & -> & Hextra) end.
    cbn [trace]. destruct Hbl as [_ Hcause].
    assert (responses ((trace w1 ++ [Responded 500 failure]) ++ extra)%list
            = [Responded 500 failure]) as Hresp.
    { unfold responses in *. rewrite !filter_app, Hends, Hnoresp.
      destruct Hextra as [-> | [-> | ->]]; reflexivity. }
    split; [intros; exact Hresp|]. intros _.
    destruct Hcause as [Hc | (o & Ho & Hin)]; [now left|].
    right. exists o. split; [assumption|]. apply in_or_app. left. apply in_or_app. now left.
Qed.

End Blame.

Ltac frame_web :=
  repeat first
    [ apply keeps_ret; apply same_web_refl
    | apply keeps_lift; apply same_web_refl
    | apply keeps_bind; [apply same_web_trans | | intros]
    | apply keeps_try_catch; [apply same_web_trans | | intros]
    | apply keeps_page_evaluate
    | apply keeps_title_of
    | apply same_web_await
    | apply same_web_log
    | apply same_web_randomUUID ].

(** The steps of a handler body, one primitive at a time; what is left is
    the steps that can throw for a cause. *)
Ltac blame_step :=
  first
    [ apply blames_await; reflexivity
    | apply blames_launch_browser; reflexivity
    | apply blames_log; reflexivity
    | apply blames_randomUUID
    | apply blames_ret
    | apply blames_title_of; reflexivity
    | apply blames_caught; [solve [frame_unseen] | solve [frame_web]]
    | apply blames_page_evaluate; [reflexivity | intros ? ?; discriminate] ].

Ltac blame :=
  repeat
    (lazymatch goal with
     | |- blames _ _ _ (bind (extractCSSColors _) _) => fail
     | _ => idtac
     end;
     first
       [ blame_step
       | apply blames_bind; [solve [repeat first [blame_step | apply blames_bind; [|intros]]]
                            | intros] ]).

Lemma extractCSSColors_returns (site : string -> document) (url : string) :
  returns_on site
    (fun rawColors =>
       rawColors = [] \/ rawColors = extractCSSColors_inpage (elements (site url)))
    (extractCSSColors url).
Proof.
  intros w a w' Hw. unfold extractCSSColors, try_catch, page_evaluate, bind, await, ret.
  destruct (oracle w) as [|[|] rest]; cbn [web]; intros [= <- _]; rewrite ?Hw; auto.
Qed.

Lemma bulk_loop_blames (site : string -> document) (urls results : list json) :
  blames site fatal_launch False (bulk_loop urls results).
Proof.
  revert results. induction urls as [|url urls IH]; intros results; cbn [bulk_loop].
  - apply blames_ret.
  - apply blames_bind; [|intros; apply IH].
    unfold bulk_step. destruct (negb (isValidUrl (toString (Some url)))).
    + apply blames_ret.
    + unfold analyzeSingleWebsite, extractWebsiteIntelligence, extractColors,
        extractFonts_index, sleep.
      apply blames_caught; [frame_unseen | frame_web].
Qed.

Section Failures.

Variable web : string -> document.
Variable uuid : nat -> string.

Lemma failure_explained_400 (fatal : op -> bool) (cause : Prop) (failure body : json) :
  failure_explained fatal cause failure [Responded 400 body].
Proof.
  split.
  - intros o _ [H | []]. discriminate.
  - discriminate.
Qed.

(** X15.  Which rejections fail a request of [src/unnamed/part_000].  A
    rejected launch, [newPage], [evaluateOnNewDocument], [setViewport],
    [goto] or [page.close()] always ends in the 500; and the handler
    answers 500 only after one of these, or when a captured colour has one
    or two digit runs.  So a rejected [waitForNetworkIdle], [evaluate] or
    [screenshot], which the helpers catch, never fails the request by
    itself. *)
Theorem part000_tolerates_rendering_failures (body : json) (oracle : list bool) :
  failure_explained fatal_part000
    (colour_short_of_channels (web (toString (get "url" body))))
    blocked_part000
    (run (analyze_part000 body) (start web uuid oracle)).
Proof.
  unfold run, analyze_part000.
  destruct (negb (truthy (get "url" body))
            || negb (isValidUrl (toString (get "url" body))));
    [apply failure_explained_400|].
  unfold ensureDir. unfold bind at 1. cbn [log]. unfold bind at 1. cbn [randomUUID].
  match goal with |- context [Server.uuid ?w ?n] => generalize (Server.uuid w n) end.
  intros id.
  unfold hardenPage, stabilizePage, forceLoadImages, aggressiveScroll,
    extractCategory_part000, extractFonts_part000, extractTags, sleep.
  apply (guarded_failure_explained web); try reflexivity.
  - blame.
    eapply blames_bind_with;
      [ unfold extractCSSColors; blame | apply extractCSSColors_returns | ].
    intros rawColors Hraw.
    apply blames_bind.
    + apply blames_lift. intros e He.
      destruct Hraw as [-> | ->]; [discriminate|].
      apply colors_part000_throws. now exists e.
    + intros colors. blame.
  - unfold extractCSSColors. ends_ok.
Qed.

(** X16.  In [/analyze] of [src/index.js] and of [src/unnamed/part_001]
    nothing is caught on the way: the rejection of any call but the final
    [browser.close()] ends in the 500, and the handler answers 500 only
    after such a rejection or when an extraction throws in the page (the
    category text of a page without body, a captured colour without a
    digit). *)
Theorem every_rejection_fatal_without_catch (body : json) (oracle : list bool) :
  failure_explained fatal_always
    (extraction_throws_index (web (toString (get "url" body))))
    (message "Website analysis failed")
    (run (analyze_index body) (start web uuid oracle))
  /\ failure_explained fatal_always
       (extraction_throws_part001 (web (toString (get "url" body))))
       (message "Website analysis failed")
       (run (analyze_part001 body) (start web uuid oracle)).
Proof.
  split; unfold run.
  - unfold analyze_index.
    destruct (negb (isValidUrl (toString (get "url" body))));
      [apply failure_explained_400|].
    unfold ensureDir. unfold bind at 1. cbn [log].
    unfold analyzeSingleWebsite, extractWebsiteIntelligence, extractColors,
      extractFonts_index, sleep.
    apply (guarded_failure_explained web); try reflexivity.
    + blame.
      apply blames_bind; [|intros; blame].
      blame.
      apply blames_bind.
      { apply blames_page_evaluate; [reflexivity|]. intros e He. left. now exists e. }
      intros intelligence.
      apply blames_bind.
      { apply blames_page_evaluate; [reflexivity|]. intros e He. right. now exists e. }
      intros colors. blame.
    + ends_ok.
  - unfold analyze_part001.
    destruct (negb (isValidUrl (toString (get "url" body))));
      [apply failure_explained_400|].
    unfold ensureDir. unfold bind at 1. cbn [log]. unfold bind at 1. cbn [randomUUID].
    unfold extractCategory_part001, sleep.
    apply (guarded_failure_explained web); try reflexivity.
    + blame.
      apply blames_bind.
      { apply blames_page_evaluate; [reflexivity|]. intros e He. left. now exists e. }
      intros category.
      apply blames_bind.
      { apply blames_page_evaluate; [reflexivity|]. intros e He. right. now exists e. }
      intros colors. blame.
    + ends_ok.
Qed.

Lemma bulk_failure_explained (body : json) (oracle : list bool) :
  failure_explained fatal_launch False (message "Bulk analysis failed")
    (run (analyze_bulk body) (start web uuid oracle)).
Proof.
  unfold run, analyze_bulk.
  destruct (get "urls" body) as [[| | | |[|url urls]|]|]; try apply failure_explained_400.
  unfold ensureDir. unfold bind at 1. cbn [log].
  apply (guarded_failure_explained web); try reflexivity.
  - apply blames_bind; [apply blames_launch_browser; reflexivity | intros].
    apply blames_bind; [apply bulk_loop_blames | intros].
    apply blames_log. reflexivity.
  - apply ends_with_bind; [apply unseen_launch_browser; reflexivity | intros].
    apply ends_with_bind; [apply bulk_loop_silent | intros].
    apply ends_with_respond. eexists; reflexivity.
Qed.

(** X17.  [/analyze/bulk] answers 500 exactly when the launch of the
    browser was rejected: no rejection inside the loop fails the batch. *)
Theorem bulk_fails_only_at_launch (body : json) (oracle : list bool) :
  responses (run (analyze_bulk body) (start web uuid oracle))
  = [Responded 500 (message "Bulk analysis failed")]
  <-> In (Threw launch) (run (analyze_bulk body) (start web uuid oracle)).
Proof.
  destruct (bulk_failure_explained body oracle) as [Hfatal Hcause]. split.
  - intros H. destruct (Hcause H) as [[] | (o & Ho & Hin)].
    destruct o; try discriminate Ho. exact Hin.
  - apply Hfatal. reflexivity.
Qed.

End Failures.

(** ** The further properties on the concrete site *)

(** The batch of an invalid and a valid URL opens one page, for the valid
    URL, and closes it. *)
Lemma bulk_page_accounting_witness :
  exists results,
    responses (run (analyze_bulk example_bulk) (start example_web example_uuid []))
    = [Responded 200 (summary [JStr "not a url"; JStr "https://example.com"] results)]
    /\ count_events is_newPage_call
         (run (analyze_bulk example_bulk) (start example_web example_uuid []))
       = List.length (filter valid_item [JStr "not a url"; JStr "https://example.com"])
    /\ count_events is_page_closed
         (run (analyze_bulk example_bulk) (start example_web example_uuid []))
       = List.length (filter succeeded results).
Proof.
  apply (bulk_page_accounting example_web example_uuid example_bulk
           [JStr "not a url"; JStr "https://example.com"] []).
  - reflexivity.
  - discriminate.
  - exact I.
Defined.

(** The desktop capture of the example site is rejected, the ninth awaited
    call: the handler still answers 200, with the warning. *)
Lemma part000_ok_reports_captures_witness :
  exists data,
    responses (run (analyze_part000 example_request)
                 (start example_web example_uuid
                    [false; false; false; false; false; false; false; false; true]))
    = [Responded 200 data]
    /\ get "status" data = Some (JStr "partial_success")
    /\ reports_captures data
         (captures (run (analyze_part000 example_request)
                      (start example_web example_uuid
                         [false; false; false; false; false; false; false; false; true]))).
Proof.
  eexists. split; [vm_compute; reflexivity|]. split; [reflexivity|].
  apply (part000_ok_reports_captures example_web example_uuid example_request
           [false; false; false; false; false; false; false; false; true]).
  vm_compute. reflexivity.
Defined.

(** The example site, every awaited call resolving: both handlers answer
    200 and name the two files captured. *)
Lemma ok_response_names_captured_files_witness :
  (exists data,
      responses (run (analyze_index example_request) (start example_web example_uuid []))
      = [Responded 200 data]
      /\ names_captured_files "desktopScreenshot" "mobileScreenshot" data
           (captures (run (analyze_index example_request)
                        (start example_web example_uuid []))))
  /\ (exists data,
         responses (run (analyze_part001 example_request) (start example_web example_uuid []))
         = [Responded 200 data]
         /\ names_captured_files "desktop" "mobile" data
              (captures (run (analyze_part001 example_request)
                           (start example_web example_uuid [])))).
Proof.
  split; eexists; (split; [vm_compute; reflexivity|]).
  - apply (proj1 (ok_response_names_captured_files example_web example_uuid
                    example_request [] _)).
    vm_compute. reflexivity.
  - apply (proj2 (ok_response_names_captured_files example_web example_uuid
                    example_request [] _)).
    vm_compute. reflexivity.
Defined.

(** The headings and the keywords of the example page are ASCII; its
    tags. *)
Lemma extractTags_provenance_witness :
  ascii_tag_sources example_page
  /\ ((keyword_of example_page "shop" \/ heading_of 60 example_page "shop")
      /\ is_ascii "shop" = true)
  /\ heading_of 50 example_page "welcome"
  /\ String.length "welcome" < 50
  /\ toLowerCase "welcome" = "welcome"
  /\ is_ascii "welcome" = true.
Proof.
  assert (ascii_tag_sources example_page) as Hascii
    by (split; repeat constructor).
  split; [exact Hascii|]. split.
  - apply (proj1 (extractTags_provenance example_page "shop" Hascii)). vm_compute. auto.
  - apply (proj2 (extractTags_provenance example_page "welcome" Hascii)). vm_compute. auto.
Defined.


(** The colours of the example page. *)
Lemma colors_provenance_witness :
  (exists c, color_of (elements example_page) c /\ startsWith "rgb" c = true
             /\ rgbToHexAll c = Ok "#00000000")
  /\ (exists c, color_of (slice 1200 (elements example_page)) c /\ startsWith "rgb" c = true
                /\ c <> transparent /\ rgbToHex c = Ok (Some "#ff5733")).
Proof.
  split.
  - apply (proj1 (colors_provenance (elements example_page)
                    ["#ff5733"; "#00000000"] "#00000000")).
    + vm_compute. reflexivity.
    + vm_compute. auto.
  - apply (proj1 (proj2 (proj2 (colors_provenance (elements example_page)
                                  ["#ff5733"] "#ff5733")))).
    + vm_compute. reflexivity.
    + vm_compute. auto.
Defined.

(** The navigation of the example request is rejected, the fifth awaited
    call: [part_000] answers 500. *)
Lemma part000_tolerates_rendering_failures_witness :
  responses (run (analyze_part000 example_request)
               (start example_web example_uuid [false; false; false; false; true]))
  = [Responded 500 blocked_part000].
Proof.
  apply (proj1 (part000_tolerates_rendering_failures example_web example_uuid
                  example_request [false; false; false; false; true])
           (goto "https://example.com" 45000)).
  - reflexivity.
  - vm_compute. repeat first [left; reflexivity | right].
Defined.

(** The desktop screenshot of the example request is rejected: [index.js]
    answers 500, and so does [part_001]. *)
Lemma every_rejection_fatal_without_catch_witness :
  responses (run (analyze_index example_request)
               (start example_web example_uuid
                  [false; false; false; false; false; false; false; false; true]))
  = [Responded 500 (message "Website analysis failed")]
  /\ responses (run (analyze_part001 example_request)
                  (start example_web example_uuid
                     [false; false; false; false; false; false; false; false; false; true]))
     = [Responded 500 (message "Website analysis failed")].
Proof.
  split.
  - apply (proj1 (proj1 (every_rejection_fatal_without_catch example_web example_uuid
                           example_request
                           [false; false; false; false; false; false; false; false; true]))
             (screenshot "screenshots/desktop-id-0.webp")).
    + reflexivity.
    + vm_compute. repeat first [left; reflexivity | right].
  - apply (proj1 (proj2 (every_rejection_fatal_without_catch example_web example_uuid
                           example_request
                           [false; false; false; false; false; false; false; false; false;
                            true]))
             (screenshot "screenshots/desktop-id-0.webp")).
    + reflexivity.
    + vm_compute. repeat first [left; reflexivity | right].
Defined.
